(** * bike_scraper: listing relevance and de-duplication

    A shallow embedding of [src/bike_scraper.py] and the properties of its
    matcher, location filter, seen-stores, source pipelines and [main].

    Conventions of the embedding.
    - A Python [str] is the [string] of its code points; every [ascii] is one
      code point below 256, so the development covers the strings of the
      Latin-1 range.
    - Python integers are [Z]; sequences are indexed from 0.
    - The ratio of [difflib.SequenceMatcher] is the rational [2*M/T]; the
      thresholds are rationals.  (The program compares binary64 numbers; for
      the thresholds 0.2 and 0.05 and strings shorter than 2^50 characters
      the two comparisons agree.)
    - A Python [set] of strings is a [gset string]; the unspecified iteration
      order of a set is chosen by the hash seed of the process.
    - The library functions that the program calls ([difflib], [json],
      [urllib.parse] with [ipaddress], text files) follow CPython 3.11.
    - Logging and [time.sleep] have no effect on the data and are left out. *)

From Stdlib Require Import ZArith QArith Ascii String List Lia.
From stdpp Require Import base option list gmap strings sorting.

Local Open Scope string_scope.
Local Open Scope Z_scope.

#[local] Set Warnings "-register-all".

(* ===================================================================== *)
(** ** Python string primitives *)
(* ===================================================================== *)

Module Py.

(** Code point of a character. *)
Definition ord (c : ascii) : Z := Z.of_nat (nat_of_ascii c).

Definition chr (n : Z) : ascii := ascii_of_nat (Z.to_nat n).

Definition in_range (lo hi : Z) (c : ascii) : bool :=
  (lo <=? ord c) && (ord c <=? hi).

(** [str.lower] on one code point below 256: the ASCII capitals and the
    Latin-1 capitals U+00C0..U+00DE (except the sign U+00D7) move up by 32. *)
Definition lower_char (c : ascii) : ascii :=
  if in_range 65 90 c then chr (ord c + 32)
  else if in_range 192 222 c && negb (ord c =? 215) then chr (ord c + 32)
  else c.

Fixpoint lower (s : string) : string :=
  match s with
  | EmptyString => EmptyString
  | String c s' => String (lower_char c) (lower s')
  end.

(** [str.isspace] on one code point below 256. *)
Definition isspace (c : ascii) : bool :=
  in_range 9 13 c || in_range 28 32 c || (ord c =? 133) || (ord c =? 160).

Fixpoint lstrip_by (p : ascii -> bool) (s : string) : string :=
  match s with
  | EmptyString => EmptyString
  | String c s' => if p c then lstrip_by p s' else s
  end.

(** Removes the trailing characters that satisfy [p]. *)
Fixpoint rstrip_by (p : ascii -> bool) (s : string) : string :=
  match s with
  | EmptyString => EmptyString
  | String c s' =>
      match rstrip_by p s' with
      | EmptyString => if p c then EmptyString else String c EmptyString
      | r => String c r
      end
  end.

(** [s.strip()] *)
Definition strip (s : string) : string := rstrip_by isspace (lstrip_by isspace s).

(** [s.startswith(p)] *)
Fixpoint startswith (p s : string) : bool :=
  match p, s with
  | EmptyString, _ => true
  | String a p', String b s' => if ascii_dec a b then startswith p' s' else false
  | String _ _, EmptyString => false
  end.

(** [needle in hay] *)
Fixpoint contains (needle hay : string) : bool :=
  startswith needle hay ||
  match hay with
  | EmptyString => false
  | String _ hay' => contains needle hay'
  end.

(** [c in s] for a single character. *)
Fixpoint has_char (c : ascii) (s : string) : bool :=
  match s with
  | EmptyString => false
  | String d s' => if ascii_dec c d then true else has_char c s'
  end.

(** [s.find(c)] from the start: [-1] when absent. *)
Fixpoint find_char (c : ascii) (s : string) : Z :=
  match s with
  | EmptyString => -1
  | String d s' =>
      if ascii_dec c d then 0
      else let r := find_char c s' in if r <? 0 then -1 else r + 1
  end.

(** [s[n:]] and [s[:n]] for [n >= 0]. *)
Fixpoint drop (n : nat) (s : string) : string :=
  match n, s with
  | O, _ => s
  | S n', String _ s' => drop n' s'
  | S _, EmptyString => EmptyString
  end.

Fixpoint take (n : nat) (s : string) : string :=
  match n, s with
  | S n', String c s' => String c (take n' s')
  | _, _ => EmptyString
  end.

(** [s.replace(c, "")] for a single character. *)
Fixpoint remove_char (c : ascii) (s : string) : string :=
  match s with
  | EmptyString => EmptyString
  | String d s' => if ascii_dec c d then remove_char c s' else String d (remove_char c s')
  end.

(** [s.split(c, 1)] when [c] occurs in [s]: the text before the first [c]
    and the text after it. *)
Fixpoint split_once (c : ascii) (s : string) : string * string :=
  match s with
  | EmptyString => (EmptyString, EmptyString)
  | String d s' =>
      if ascii_dec c d then (EmptyString, s')
      else let '(l, r) := split_once c s' in (String d l, r)
  end.

(** [sep.join(l)] *)
Fixpoint join (sep : string) (l : list string) : string :=
  match l with
  | [] => EmptyString
  | [x] => x
  | x :: rest => x ++ sep ++ join sep rest
  end.

Definition len (s : string) : Z := Z.of_nat (String.length s).

End Py.

(* ===================================================================== *)
(** ** [difflib.SequenceMatcher(None, a, b).ratio()] *)
(* ===================================================================== *)

Module Difflib.

(** A sequence is the list of the characters of a string; [a[i]] is only
    read at indices inside the sequence. *)
Definition at_ (s : list ascii) (i : Z) : ascii :=
  nth (Z.to_nat i) s Ascii.zero.

Definition llen (s : list ascii) : Z := Z.of_nat (length s).

(** The positions of [x] in [b], in increasing order, from position [j0]. *)
Fixpoint positions (x : ascii) (b : list ascii) (j0 : Z) : list Z :=
  match b with
  | [] => []
  | y :: b' =>
      if ascii_dec x y then j0 :: positions x b' (j0 + 1)
      else positions x b' (j0 + 1)
  end.

(** [__chain_b]: with [isjunk = None] no element is junk; with [autojunk]
    an element of [b] is popular, and dropped from [b2j], when [b] has at
    least 200 elements and the element occurs more than [n // 100 + 1]
    times. *)
Definition popular (b : list ascii) (x : ascii) : bool :=
  let n := llen b in
  (200 <=? n) && (n / 100 + 1 <? Z.of_nat (length (positions x b 0))).

Definition b2j (b : list ascii) (x : ascii) : list Z :=
  if popular b x then [] else positions x b 0.

Definition isbjunk (x : ascii) : bool := false.

(** The state of the scan of [find_longest_match]. *)
Record best := Best { besti : Z; bestj : Z; bestsize : Z }.

(** The inner loop: [for j in b2j.get(a[i], nothing)], with its [continue]
    below [blo] and its [break] from [bhi] on. *)
Fixpoint scan_js (i blo bhi : Z) (j2len : gmap Z Z) (js : list Z)
    (newj2len : gmap Z Z) (bst : best) : gmap Z Z * best :=
  match js with
  | [] => (newj2len, bst)
  | j :: js' =>
      if j <? blo then scan_js i blo bhi j2len js' newj2len bst
      else if bhi <=? j then (newj2len, bst)
      else
        let k := default 0 (j2len !! (j - 1)) + 1 in
        let newj2len := <[j := k]> newj2len in
        let bst := if bestsize bst <? k then Best (i - k + 1) (j - k + 1) k else bst in
        scan_js i blo bhi j2len js' newj2len bst
  end.

(** The outer loop: [for i in range(alo, ahi)]. *)
Fixpoint scan_is (a b : list ascii) (blo bhi : Z) (is_ : list Z)
    (j2len : gmap Z Z) (bst : best) : best :=
  match is_ with
  | [] => bst
  | i :: is' =>
      let '(newj2len, bst) := scan_js i blo bhi j2len (b2j b (at_ a i)) ∅ bst in
      scan_is a b blo bhi is' newj2len bst
  end.

(** The two [while] loops that extend a match to the left and to the right;
    [junk] says whether the loop takes junk or non-junk elements.  Each turn
    of the left loop lowers [besti], each turn of the right loop raises
    [bestsize], so [ahi - alo] turns are enough. *)
Fixpoint extend_left (fuel : nat) (a b : list ascii) (alo blo : Z) (junk : bool)
    (bst : best) : best :=
  match fuel with
  | O => bst
  | S fuel' =>
      if (alo <? besti bst) && (blo <? bestj bst)
         && Bool.eqb (isbjunk (at_ b (bestj bst - 1))) junk
         && bool_decide (at_ a (besti bst - 1) = at_ b (bestj bst - 1))
      then extend_left fuel' a b alo blo junk
             (Best (besti bst - 1) (bestj bst - 1) (bestsize bst + 1))
      else bst
  end.

Fixpoint extend_right (fuel : nat) (a b : list ascii) (ahi bhi : Z) (junk : bool)
    (bst : best) : best :=
  match fuel with
  | O => bst
  | S fuel' =>
      if (besti bst + bestsize bst <? ahi) && (bestj bst + bestsize bst <? bhi)
         && Bool.eqb (isbjunk (at_ b (bestj bst + bestsize bst))) junk
         && bool_decide (at_ a (besti bst + bestsize bst) = at_ b (bestj bst + bestsize bst))
      then extend_right fuel' a b ahi bhi junk
             (Best (besti bst) (bestj bst) (bestsize bst + 1))
      else bst
  end.

Definition find_longest_match (a b : list ascii) (alo ahi blo bhi : Z) : best :=
  let bst := scan_is a b blo bhi (seqZ alo (ahi - alo)) ∅ (Best alo blo 0) in
  let fuel := Z.to_nat (ahi - alo) in
  let bst := extend_left fuel a b alo blo false bst in
  let bst := extend_right fuel a b ahi bhi false bst in
  let bst := extend_left fuel a b alo blo true bst in
  extend_right fuel a b ahi bhi true bst.

(** The loop [while queue:] of [get_matching_blocks].  The queue is a stack:
    the head of the list is the entry that [queue.pop()] takes, and
    [queue.append] puts a new head.  Every turn that finds a block uses up
    elements of [a], and only such a turn adds work, so [2 * len(a) + 1]
    turns empty the queue. *)
Fixpoint blocks_loop (fuel : nat) (a b : list ascii) (queue : list (Z * Z * Z * Z))
    (matching_blocks : list (Z * Z * Z)) : list (Z * Z * Z) :=
  match fuel, queue with
  | _, [] => matching_blocks
  | O, _ => matching_blocks
  | S fuel', (alo, ahi, blo, bhi) :: queue =>
      let x := find_longest_match a b alo ahi blo bhi in
      let '(i, j, k) := (besti x, bestj x, bestsize x) in
      if k =? 0 then blocks_loop fuel' a b queue matching_blocks
      else
        let queue := if (alo <? i) && (blo <? j) then (alo, i, blo, j) :: queue else queue in
        let queue := if (i + k <? ahi) && (j + k <? bhi)
                     then (i + k, ahi, j + k, bhi) :: queue else queue in
        blocks_loop fuel' a b queue (matching_blocks ++ [(i, j, k)])%list
  end.

(** The order of tuples, by which [matching_blocks.sort()] sorts. *)
Definition triple_le (x y : Z * Z * Z) : Prop :=
  let '(i1, j1, k1) := x in
  let '(i2, j2, k2) := y in
  i1 < i2 \/ (i1 = i2 /\ (j1 < j2 \/ (j1 = j2 /\ k1 <= k2))).

#[global] Instance triple_le_dec : RelDecision triple_le.
Proof.
  intros [[i1 j1] k1] [[i2 j2] k2]. unfold triple_le.
  apply _.
Defined.

(** The loop that joins adjacent blocks. *)
Fixpoint collapse (blocks : list (Z * Z * Z)) (i1 j1 k1 : Z)
    (non_adjacent : list (Z * Z * Z)) : list (Z * Z * Z) * (Z * Z * Z) :=
  match blocks with
  | [] => (non_adjacent, (i1, j1, k1))
  | (i2, j2, k2) :: rest =>
      if (i1 + k1 =? i2) && (j1 + k1 =? j2)
      then collapse rest i1 j1 (k1 + k2) non_adjacent
      else
        let non_adjacent :=
          if k1 =? 0 then non_adjacent else (non_adjacent ++ [(i1, j1, k1)])%list in
        collapse rest i2 j2 k2 non_adjacent
  end.

Definition get_matching_blocks (a b : list ascii) : list (Z * Z * Z) :=
  let la := llen a in
  let lb := llen b in
  let matching_blocks :=
    blocks_loop (2 * length a + 1) a b [(0, la, 0, lb)] [] in
  let matching_blocks := merge_sort triple_le matching_blocks in
  let '(non_adjacent, (i1, j1, k1)) := collapse matching_blocks 0 0 0 [] in
  let non_adjacent :=
    if k1 =? 0 then non_adjacent else (non_adjacent ++ [(i1, j1, k1)])%list in
  (non_adjacent ++ [(la, lb, 0)])%list.

(** [_calculate_ratio(matches, length)] *)
Definition calculate_ratio (matches length : Z) : Q :=
  if length =? 0 then 1%Q else (inject_Z (2 * matches) / inject_Z length)%Q.

Definition ratio_seq (a b : list ascii) : Q :=
  let matches := foldr Z.add 0 (map (fun t => snd t) (get_matching_blocks a b)) in
  calculate_ratio matches (llen a + llen b).

(** [difflib.SequenceMatcher(None, a, b).ratio()] *)
Definition ratio (a b : string) : Q :=
  ratio_seq (list_ascii_of_string a) (list_ascii_of_string b).

End Difflib.

(** [x > y] on ratios. *)
Definition Qgtb (x y : Q) : bool := negb (Qle_bool x y).

(* ===================================================================== *)
(** ** Exceptions *)
(* ===================================================================== *)

(** The exceptions that the program can meet.  [HTTPError] and
    [ConnectionError] come from [requests].  [UnmodelledValue] is no Python
    exception: it marks the one place where the embedding stops, a seen-file
    whose JSON document gives a set with a member that is not a string of
    code points below 256 (a number, a boolean, [null], or a string with an
    escape of a higher code point). *)
Inductive exn : Type :=
  | ValueError
  | KeyError
  | TypeError
  | JSONDecodeError
  | HTTPError
  | ConnectionError
  | UnmodelledValue.

Inductive result (A : Type) : Type :=
  | Ok (a : A)
  | Raise (e : exn).

Arguments Ok {A} a.
Arguments Raise {A} e.

#[global] Instance exn_eq_dec : EqDecision exn.
Proof. solve_decision. Defined.

(* ===================================================================== *)
(** ** Configuration: the module-level constants *)
(* ===================================================================== *)

Record Config : Type := {
  SEARCH_KEYWORDS : list string;
  KNOWN_BIKES : list string;
  LOCATION_MODE : string;
  ENABLE_EBAY : bool;
  ENABLE_GUMTREE : bool;
  CLEAR_CACHE_ON_START : bool;
  EBAY_RATIO : Q;
  GUMTREE_RATIO : Q
}.

(** The constants as the source file sets them. *)
Definition source_config : Config := {|
  SEARCH_KEYWORDS := ["bike"];
  KNOWN_BIKES := ["Trek"; "Carrera"; "Specialised"];
  LOCATION_MODE := "edinburgh";
  ENABLE_EBAY := true;
  ENABLE_GUMTREE := true;
  CLEAR_CACHE_ON_START := true;
  EBAY_RATIO := (2 # 10)%Q;
  GUMTREE_RATIO := (5 # 100)%Q
|}.

(* ===================================================================== *)
(** ** Shared matching logic *)
(* ===================================================================== *)

(** [RATIO = EBAY_RATIO if website == "ebay" else GUMTREE_RATIO] *)
Definition RATIO (cfg : Config) (website : option string) : Q :=
  if bool_decide (website = Some "ebay") then EBAY_RATIO cfg else GUMTREE_RATIO cfg.

(** [for known in KNOWN_BIKES], on the lower-cased title. *)
Fixpoint known_loop (cfg : Config) (title : string) (website : option string)
    (knowns : list string) : bool :=
  match knowns with
  | [] => false
  | known :: rest =>
      let ratio := Difflib.ratio title (Py.lower known) in
      if Qgtb ratio (RATIO cfg website) then true
      else known_loop cfg title website rest
  end.

(** [for keyword in SEARCH_KEYWORDS], on the lower-cased title. *)
Fixpoint keyword_loop (title : string) (keywords : list string) : bool :=
  match keywords with
  | [] => false
  | keyword :: rest =>
      if Py.contains (Py.lower keyword) title then true
      else keyword_loop title rest
  end.

(** [is_match(title, website=None)]; its call without a website is
    [is_match cfg title None]. *)
Definition is_match (cfg : Config) (title : string) (website : option string) : bool :=
  let title := Py.lower title in
  if known_loop cfg title website (KNOWN_BIKES cfg) then true
  else if bool_decide (website = Some "gumtree") then
    if keyword_loop title (SEARCH_KEYWORDS cfg) then true else false
  else false.

Definition is_nearby (cfg : Config) (location : string) : bool :=
  if bool_decide (LOCATION_MODE cfg = "anywhere") then true
  else Py.contains "edinburgh" (Py.lower location).

(* ===================================================================== *)
(** ** [urllib.parse]: [urlparse] and [urlunparse] *)
(* ===================================================================== *)

Module Url.

Definition is_ascii_alpha (c : ascii) : bool :=
  Py.in_range 65 90 c || Py.in_range 97 122 c.

Definition is_ascii_digit (c : ascii) : bool := Py.in_range 48 57 c.

Definition is_hex_digit (c : ascii) : bool :=
  is_ascii_digit c || Py.in_range 65 70 c || Py.in_range 97 102 c.

(** Membership in [scheme_chars]. *)
Definition is_scheme_char (c : ascii) : bool :=
  is_ascii_alpha c || is_ascii_digit c
  || bool_decide (c = "+"%char) || bool_decide (c = "-"%char) || bool_decide (c = "."%char).

(** Membership in [_WHATWG_C0_CONTROL_OR_SPACE]. *)
Definition is_c0_or_space (c : ascii) : bool := Py.ord c <=? 32.

Fixpoint all_chars (p : ascii -> bool) (s : string) : bool :=
  match s with
  | EmptyString => true
  | String c s' => p c && all_chars p s'
  end.

Definition uses_netloc : list string :=
  [""; "ftp"; "http"; "gopher"; "nntp"; "telnet"; "imap"; "wais"; "file"; "mms";
   "https"; "shttp"; "snews"; "prospero"; "rtsp"; "rtspu"; "rsync"; "svn";
   "svn+ssh"; "sftp"; "nfs"; "git"; "git+ssh"; "ws"; "wss"].

Definition uses_params : list string :=
  [""; "ftp"; "hdl"; "prospero"; "http"; "imap"; "https"; "shttp"; "rtsp";
   "rtspu"; "sip"; "sips"; "mms"; "sftp"; "tel"].

(** [s.split(c)] *)
Fixpoint split (c : ascii) (s : string) : list string :=
  match s with
  | EmptyString => [EmptyString]
  | String d s' =>
      if ascii_dec c d then EmptyString :: split c s'
      else match split c s' with
           | [] => [String d EmptyString]
           | x :: rest => String d x :: rest
           end
  end.

(** [s.partition(c)]: the text before the first [c], whether [c] was found,
    and the text after it. *)
Definition partition (c : ascii) (s : string) : string * bool * string :=
  if Py.has_char c s then let '(l, r) := Py.split_once c s in (l, true, r)
  else (s, false, EmptyString).

(** [s.rpartition(c)[2]]: the text after the last [c], or all of [s]. *)
Fixpoint after_last (c : ascii) (s : string) : string :=
  match s with
  | EmptyString => EmptyString
  | String d s' =>
      if Py.has_char c s' then after_last c s'
      else if ascii_dec c d then s' else s
  end.

(** [IPv4Address._parse_octet] succeeds. *)
Definition valid_octet (o : string) : bool :=
  negb (bool_decide (o = ""))
  && all_chars is_ascii_digit o
  && (Py.len o <=? 3)
  && (bool_decide (o = "0") || negb (Py.startswith "0" o))
  && match o with
     | String a (String b (String c EmptyString)) =>
         (Py.ord a - 48) * 100 + (Py.ord b - 48) * 10 + (Py.ord c - 48) <=? 255
     | _ => true
     end.

(** [ipaddress.IPv4Address(s)] succeeds. *)
Definition valid_ipv4 (s : string) : bool :=
  negb (Py.has_char "/" s)
  && negb (bool_decide (s = ""))
  && (let octets := split "." s in
      bool_decide (length octets = 4%nat) && forallb valid_octet octets).

(** [IPv6Address._parse_hextet] succeeds; [int("", 16)] fails. *)
Definition valid_hextet (h : string) : bool :=
  all_chars is_hex_digit h && (Py.len h <=? 4) && negb (bool_decide (h = "")).

(** The indices [1 .. len(parts) - 2] of the empty parts. *)
Definition inner_empty_indices (parts : list string) : list nat :=
  filter (fun i => (1 <= i)%nat /\ (i + 1 < length parts)%nat /\ parts !! i = Some "")
         (seq 0 (length parts)).

(** [IPv6Address._ip_int_from_string] succeeds. *)
Definition valid_ipv6_body (ip_str : string) : bool :=
  negb (bool_decide (ip_str = ""))
  && (let parts := split ":" ip_str in
      (3 <=? length parts)%nat
      && (let last_part := List.last parts "" in
          let with_v4 := Py.has_char "." last_part in
          (negb with_v4 || valid_ipv4 last_part)
          && (let parts :=
                if with_v4 then (removelast parts ++ ["0"; "0"])%list else parts in
              let n := length parts in
              (n <=? 9)%nat
              && match inner_empty_indices parts with
                 | [] =>
                     (n =? 8)%nat
                     && negb (bool_decide (List.hd "" parts = ""))
                     && negb (bool_decide (List.last parts "" = ""))
                     && forallb valid_hextet parts
                 | [skip_index] =>
                     let parts_hi := Z.of_nat skip_index in
                     let parts_lo := Z.of_nat n - Z.of_nat skip_index - 1 in
                     let head_empty := bool_decide (List.hd "" parts = "") in
                     let tail_empty := bool_decide (List.last parts "" = "") in
                     let parts_hi := if head_empty then parts_hi - 1 else parts_hi in
                     let parts_lo := if tail_empty then parts_lo - 1 else parts_lo in
                     (negb head_empty || (parts_hi =? 0))
                     && (negb tail_empty || (parts_lo =? 0))
                     && (1 <=? 8 - (parts_hi + parts_lo))
                     && forallb valid_hextet (List.firstn (Z.to_nat parts_hi) parts)
                     && forallb valid_hextet
                          (List.skipn (n - Z.to_nat parts_lo) parts)
                 | _ => false
                 end))).

(** [ipaddress.IPv6Address(s)] succeeds: the scope id after [%] is split
    off first. *)
Definition valid_ipv6 (s : string) : bool :=
  negb (Py.has_char "/" s)
  && (let '(addr, sep, scope_id) := partition "%" s in
      (negb sep || (negb (bool_decide (scope_id = "")) && negb (Py.has_char "%" scope_id)))
      && valid_ipv6_body addr).

(** The pattern for an IPvFuture literal matches: a [v], at least one hex
    digit, a dot, and at least one more character, none a line feed. *)
Definition valid_ipvfuture (hostname : string) : bool :=
  match hostname with
  | String "v" rest =>
      let after_hex := Py.lstrip_by is_hex_digit rest in
      negb (bool_decide (after_hex = rest))
      && match after_hex with
         | String "." (String c tail) => negb (Py.has_char "010" (String c tail))
         | _ => false
         end
  | _ => false
  end.

(** [_check_bracketed_host(hostname)] returns. *)
Definition check_bracketed_host (hostname : string) : bool :=
  if Py.startswith "v" hostname then valid_ipvfuture hostname
  else negb (valid_ipv4 hostname) && valid_ipv6 hostname.

(** [_check_bracketed_netloc(netloc)] returns. *)
Definition check_bracketed_netloc (netloc : string) : bool :=
  let hostname_and_port := after_last "@" netloc in
  let '(before_bracket, have_open_br, bracketed) := partition "[" hostname_and_port in
  if have_open_br then
    if negb (bool_decide (before_bracket = "")) then false
    else
      let '(hostname, _, port) := partition "]" bracketed in
      if negb (bool_decide (port = "")) && negb (Py.startswith ":" port) then false
      else check_bracketed_host hostname
  else
    let '(hostname, _, _) := partition ":" hostname_and_port in
    check_bracketed_host hostname.

(** The first position of one of [/], [?], [#], or the length. *)
Fixpoint netloc_end (s : string) : nat :=
  match s with
  | EmptyString => O
  | String c s' =>
      if bool_decide (c = "/"%char) || bool_decide (c = "?"%char) || bool_decide (c = "#"%char)
      then O else S (netloc_end s')
  end.

(** [_splitnetloc(url, 2)] for a [url] that starts with [//]. *)
Definition splitnetloc2 (url : string) : string * string :=
  let rest := Py.drop 2 url in
  let n := netloc_end rest in
  (Py.take n rest, Py.drop n rest).

Record SplitResult := {
  sr_scheme : string; sr_netloc : string; sr_path : string;
  sr_query : string; sr_fragment : string }.

Record ParseResult := {
  scheme : string; netloc : string; path : string;
  params : string; query : string; fragment : string }.

(** The start of [urlsplit]: the leading control characters and spaces are
    stripped, then tabs, carriage returns and line feeds are removed. *)
Definition clean_url (url : string) : string :=
  let url := Py.lstrip_by is_c0_or_space url in
  Py.remove_char "010" (Py.remove_char "013" (Py.remove_char "009" url)).

(** The scheme, when the text before the first colon is a letter followed
    by scheme characters, and the text after it. *)
Definition split_scheme (url : string) : string * string :=
  let i := Py.find_char ":" url in
  if (0 <? i) && match url with String c _ => is_ascii_alpha c | _ => false end
     && all_chars is_scheme_char (Py.take (Z.to_nat i) url)
  then (Py.lower (Py.take (Z.to_nat i) url), Py.drop (Z.to_nat i + 1) url)
  else ("", url).

(** The end of [urlsplit]: the fragment is cut at the first [#], then the
    query at the first [?]. *)
Definition split_query_fragment (scheme netloc url : string) : SplitResult :=
  let '(url, fragment) :=
    if Py.has_char "#" url then Py.split_once "#" url else (url, "") in
  let '(url, query) :=
    if Py.has_char "?" url then Py.split_once "?" url else (url, "") in
  {| sr_scheme := scheme; sr_netloc := netloc; sr_path := url;
     sr_query := query; sr_fragment := fragment |}.

(** The checks of the brackets of the netloc raise [ValueError]. *)
Definition netloc_error (netloc : string) : bool :=
  let has_open := Py.has_char "[" netloc in
  let has_close := Py.has_char "]" netloc in
  (has_open && negb has_close) || (has_close && negb has_open)
  || (has_open && has_close && negb (check_bracketed_netloc netloc)).

(** [urlsplit(url)].  [_checknetloc] only inspects a netloc with characters
    outside ASCII, and raises when its NFKC form holds one of [/?#@:]; no
    code point below 256 has such a form, so it always returns here. *)
Definition urlsplit (url : string) : result SplitResult :=
  let '(scheme, url) := split_scheme (clean_url url) in
  if bool_decide (Py.take 2 url = "//") then
    let '(netloc, url) := splitnetloc2 url in
    if netloc_error netloc then Raise ValueError
    else Ok (split_query_fragment scheme netloc url)
  else Ok (split_query_fragment scheme "" url).

(** The last position of [c] in [s], or [-1]. *)
Fixpoint rfind_char (c : ascii) (s : string) : Z :=
  match s with
  | EmptyString => -1
  | String d s' =>
      let r := rfind_char c s' in
      if 0 <=? r then r + 1 else if ascii_dec c d then 0 else -1
  end.

(** [url.find(c, start)] for [0 <= start]. *)
Definition find_char_from (c : ascii) (s : string) (start : Z) : Z :=
  let r := Py.find_char c (Py.drop (Z.to_nat start) s) in
  if r <? 0 then -1 else start + r.

Definition splitparams (url : string) : string * string :=
  if Py.has_char "/" url then
    let i := find_char_from ";" url (rfind_char "/" url) in
    if i <? 0 then (url, "")
    else (Py.take (Z.to_nat i) url, Py.drop (Z.to_nat i + 1) url)
  else
    let i := Py.find_char ";" url in
    (Py.take (Z.to_nat i) url, Py.drop (Z.to_nat i + 1) url).

Definition urlparse (url : string) : result ParseResult :=
  match urlsplit url with
  | Raise e => Raise e
  | Ok r =>
      let '(url, params) :=
        if bool_decide (sr_scheme r ∈ uses_params) && Py.has_char ";" (sr_path r)
        then splitparams (sr_path r) else (sr_path r, "") in
      Ok {| scheme := sr_scheme r; netloc := sr_netloc r; path := url;
            params := params; query := sr_query r; fragment := sr_fragment r |}
  end.

Definition urlunsplit (scheme netloc url query fragment : string) : string :=
  let url :=
    if negb (bool_decide (netloc = ""))
       || (negb (bool_decide (scheme = "")) && bool_decide (scheme ∈ uses_netloc)
           && negb (bool_decide (Py.take 2 url = "//")))
    then
      let url :=
        if negb (bool_decide (url = "")) && negb (bool_decide (Py.take 1 url = "/"))
        then "/" ++ url else url in
      "//" ++ netloc ++ url
    else url in
  let url := if negb (bool_decide (scheme = "")) then scheme ++ ":" ++ url else url in
  let url := if negb (bool_decide (query = "")) then url ++ "?" ++ query else url in
  let url := if negb (bool_decide (fragment = "")) then url ++ "#" ++ fragment else url in
  url.

Definition urlunparse (p : ParseResult) : string :=
  let url := if negb (bool_decide (params p = "")) then path p ++ ";" ++ params p else path p in
  urlunsplit (scheme p) (netloc p) url (query p) (fragment p).

(** [parsed._replace(query="", fragment="")] *)
Definition replace_query_fragment (p : ParseResult) (q f : string) : ParseResult :=
  {| scheme := scheme p; netloc := netloc p; path := path p;
     params := params p; query := q; fragment := f |}.

End Url.

Definition normalize_ebay_url (link : string) : result string :=
  match Url.urlparse link with
  | Raise e => Raise e
  | Ok parsed => Ok (Url.urlunparse (Url.replace_query_fragment parsed "" ""))
  end.

(** Sequencing of computations that may raise. *)
Definition bind_result {A B : Type} (r : result A) (k : A -> result B) : result B :=
  match r with
  | Ok a => k a
  | Raise e => Raise e
  end.

#[global] Instance result_bind : MBind result :=
  fun A B k r => bind_result r k.
#[global] Instance result_ret : MRet result := @Ok.

(* ===================================================================== *)
(** ** [json.load] and [json.dump] *)
(* ===================================================================== *)

Module Json.

(** A decoded document.  A string value is the list of its code points,
    which an escape [\uXXXX] can take beyond 255; a number keeps its text. *)
Inductive value : Type :=
  | Null
  | Bool (b : bool)
  | Number (lexeme : string)
  | Str (s : list Z)
  | Array (l : list value)
  | Object (members : list (list Z * value)).

Definition dquote : ascii := "034"%char.
Definition backslash : ascii := "092"%char.

Definition is_ws (c : ascii) : bool :=
  bool_decide (c = " "%char) || bool_decide (c = "009"%char)
  || bool_decide (c = "010"%char) || bool_decide (c = "013"%char).

Definition skip_ws (s : string) : string := Py.lstrip_by is_ws s.

Definition hex_val (c : ascii) : option Z :=
  if Py.in_range 48 57 c then Some (Py.ord c - 48)
  else if Py.in_range 97 102 c then Some (Py.ord c - 87)
  else if Py.in_range 65 70 c then Some (Py.ord c - 55)
  else None.

Definition hex4 (a b c d : ascii) : option Z :=
  match hex_val a, hex_val b, hex_val c, hex_val d with
  | Some x, Some y, Some z, Some w => Some (((x * 16 + y) * 16 + z) * 16 + w)
  | _, _, _, _ => None
  end.

(** The table [BACKSLASH] of the one-letter escapes. *)
Definition unescape (e : ascii) : option Z :=
  if bool_decide (e = dquote) then Some 34
  else if bool_decide (e = backslash) then Some 92
  else if bool_decide (e = "/"%char) then Some 47
  else if bool_decide (e = "b"%char) then Some 8
  else if bool_decide (e = "f"%char) then Some 12
  else if bool_decide (e = "n"%char) then Some 10
  else if bool_decide (e = "r"%char) then Some 13
  else if bool_decide (e = "t"%char) then Some 9
  else None.

Definition snoc {A : Type} (l : list A) (x : A) : list A := (l ++ [x])%list.

(** [scanstring(s, end, strict=True)], from the character after the opening
    quote: the decoded string and the text after the closing quote. *)
Fixpoint scanstring (s : string) (acc : list Z) : result (list Z * string) :=
  match s with
  | EmptyString => Raise JSONDecodeError
  | String c rest =>
      if bool_decide (c = dquote) then Ok (acc, rest)
      else if bool_decide (c = backslash) then
        match rest with
        | EmptyString => Raise JSONDecodeError
        | String e rest1 =>
            if bool_decide (e = "u"%char) then
              match rest1 with
              | String h1 (String h2 (String h3 (String h4 rest'))) =>
                  match hex4 h1 h2 h3 h4 with
                  | None => Raise JSONDecodeError
                  | Some uni =>
                      if (55296 <=? uni) && (uni <=? 56319) then
                        match rest' with
                        | String b (String u (String g1 (String g2 (String g3
                            (String g4 rest''))))) =>
                            if bool_decide (b = backslash) && bool_decide (u = "u"%char)
                            then
                              match hex4 g1 g2 g3 g4 with
                              | None => Raise JSONDecodeError
                              | Some uni2 =>
                                  if (56320 <=? uni2) && (uni2 <=? 57343)
                                  then scanstring rest''
                                         (snoc acc (65536 + ((uni - 55296) * 1024
                                                             + (uni2 - 56320))))
                                  else scanstring rest' (snoc acc uni)
                              end
                            else scanstring rest' (snoc acc uni)
                        | _ => scanstring rest' (snoc acc uni)
                        end
                      else scanstring rest' (snoc acc uni)
                  end
              | _ => Raise JSONDecodeError
              end
            else
              match unescape e with
              | Some ch => scanstring rest1 (snoc acc ch)
              | None => Raise JSONDecodeError
              end
        end
      else if Py.ord c <=? 31 then Raise JSONDecodeError
      else scanstring rest (snoc acc (Py.ord c))
  end.

(** The longest prefix of digits, and the rest. *)
Fixpoint span_digits (s : string) : string * string :=
  match s with
  | String c s' =>
      if Py.in_range 48 57 c then let '(d, r) := span_digits s' in (String c d, r)
      else (EmptyString, s)
  | EmptyString => (EmptyString, EmptyString)
  end.

(** [NUMBER_RE] at the start of [s]: an optional minus sign, then [0] or a
    run of digits that starts with a non-zero digit; then, if present, a dot
    with at least one digit, and an [e] or [E] with an optional sign and at
    least one digit.  The result is the text of the number, whether it has a
    fraction or an exponent, and the rest. *)
Definition match_number (s : string) : option (string * bool * string) :=
  let '(sign, s1) :=
    if Py.startswith "-" s then ("-", Py.drop 1 s) else ("", s) in
  let integer : option (string * string) :=
    if Py.startswith "0" s1 then Some ("0", Py.drop 1 s1)
    else match s1 with
         | String c _ => if Py.in_range 49 57 c then Some (span_digits s1) else None
         | EmptyString => None
         end in
  match integer with
  | None => None
  | Some (int_digits, r) =>
      let '(frac, r) :=
        if Py.startswith "." r then
          match span_digits (Py.drop 1 r) with
          | (EmptyString, _) => ("", r)
          | (d, r2) => ("." ++ d, r2)
          end
        else ("", r) in
      let '(exp, r) :=
        match r with
        | String e r1 =>
            if bool_decide (e = "e"%char) || bool_decide (e = "E"%char) then
              let '(esign, r2) :=
                if Py.startswith "+" r1 then ("+", Py.drop 1 r1)
                else if Py.startswith "-" r1 then ("-", Py.drop 1 r1)
                else ("", r1) in
              match span_digits r2 with
              | (EmptyString, _) => ("", r)
              | (d, r3) => (String e esign ++ d, r3)
              end
            else ("", r)
        | EmptyString => ("", r)
        end in
      Some (sign ++ int_digits ++ frac ++ exp,
            negb (bool_decide (frac = "")) || negb (bool_decide (exp = "")), r)
  end.

(** [sys.get_int_max_str_digits()] *)
Definition int_max_str_digits : Z := 4300.

Definition count_digits (s : string) : Z :=
  Py.len (if Py.startswith "-" s then Py.drop 1 s else s).

(** The loop of [parse_array]: [scan] reads one value. *)
Fixpoint array_loop (n : nat) (scan : string -> result (value * string)) (s : string)
    (acc : list value) : result (value * string) :=
  match n with
  | O => Raise JSONDecodeError
  | S n' =>
      '(v, s) ← scan s;
      match skip_ws s with
      | String c rest =>
          if bool_decide (c = "]"%char) then Ok (Array (snoc acc v), rest)
          else if bool_decide (c = ","%char)
          then array_loop n' scan (skip_ws rest) (snoc acc v)
          else Raise JSONDecodeError
      | EmptyString => Raise JSONDecodeError
      end
  end.

(** The loop of [parse_object]. *)
Fixpoint object_loop (n : nat) (scan : string -> result (value * string)) (s : string)
    (acc : list (list Z * value)) : result (value * string) :=
  match n with
  | O => Raise JSONDecodeError
  | S n' =>
      match s with
      | String q rest =>
          if bool_decide (q = dquote) then
            '(key, s) ← scanstring rest [];
            match skip_ws s with
            | String c rest =>
                if bool_decide (c = ":"%char) then
                  '(v, s) ← scan (skip_ws rest);
                  match skip_ws s with
                  | String d rest =>
                      if bool_decide (d = "}"%char) then Ok (Object (snoc acc (key, v)), rest)
                      else if bool_decide (d = ","%char)
                      then object_loop n' scan (skip_ws rest) (snoc acc (key, v))
                      else Raise JSONDecodeError
                  | EmptyString => Raise JSONDecodeError
                  end
                else Raise JSONDecodeError
            | EmptyString => Raise JSONDecodeError
            end
          else Raise JSONDecodeError
      | EmptyString => Raise JSONDecodeError
      end
  end.

(** [parse_array], from the character after the bracket: the empty list,
    or the loop; the loop reads at least one character per turn. *)
Definition parse_array (scan : string -> result (value * string)) (rest : string)
    : result (value * string) :=
  let s := skip_ws rest in
  if Py.startswith "]" s then Ok (Array [], Py.drop 1 s)
  else array_loop (String.length s) scan s [].

(** [parse_object], from the character after the brace. *)
Definition parse_object (scan : string -> result (value * string)) (rest : string)
    : result (value * string) :=
  let s := skip_ws rest in
  if Py.startswith "}" s then Ok (Object [], Py.drop 1 s)
  else object_loop (String.length s) scan s [].

(** [scan_once(string, idx)]: one value at the start of [s] and the text
    after it.  Every nested value starts at least one character further
    on, so a depth of [len(s) + 1] is never used up. *)
Fixpoint scan_once (depth : nat) (s : string) : result (value * string) :=
  match depth with
  | O => Raise JSONDecodeError
  | S depth' =>
      match s with
      | EmptyString => Raise JSONDecodeError
      | String c rest =>
          if bool_decide (c = dquote) then
            '(str, rest) ← scanstring rest [];  Ok (Str str, rest)
          else if bool_decide (c = "{"%char) then parse_object (scan_once depth') rest
          else if bool_decide (c = "["%char) then parse_array (scan_once depth') rest
          else if Py.startswith "null" s then Ok (Null, Py.drop 4 s)
          else if Py.startswith "true" s then Ok (Bool true, Py.drop 4 s)
          else if Py.startswith "false" s then Ok (Bool false, Py.drop 5 s)
          else
            match match_number s with
            | Some (lexeme, is_float, rest) =>
                if negb is_float && (int_max_str_digits <? count_digits lexeme)
                then Raise ValueError
                else Ok (Number lexeme, rest)
            | None =>
                if Py.startswith "NaN" s then Ok (Number "NaN", Py.drop 3 s)
                else if Py.startswith "Infinity" s then Ok (Number "Infinity", Py.drop 8 s)
                else if Py.startswith "-Infinity" s then Ok (Number "-Infinity", Py.drop 9 s)
                else Raise JSONDecodeError
            end
      end
  end.

(** [json.loads(s)] *)
Definition loads (s : string) : result value :=
  '(obj, rest) ← scan_once (S (String.length s)) (skip_ws s) ;
  match skip_ws rest with
  | EmptyString => Ok obj
  | _ => Raise JSONDecodeError
  end.

Definition hex_digit (n : Z) : ascii :=
  if n <? 10 then Py.chr (48 + n) else Py.chr (87 + n).

(** [ESCAPE_DCT] and the replacement function of
    [encode_basestring_ascii], for one character. *)
Definition escape_char (c : ascii) : string :=
  if bool_decide (c = backslash) then String backslash (String backslash "")
  else if bool_decide (c = dquote) then String backslash (String dquote "")
  else if bool_decide (c = "008"%char) then String backslash "b"
  else if bool_decide (c = "012"%char) then String backslash "f"
  else if bool_decide (c = "010"%char) then String backslash "n"
  else if bool_decide (c = "013"%char) then String backslash "r"
  else if bool_decide (c = "009"%char) then String backslash "t"
  else if Py.in_range 32 126 c then String c ""
  else String backslash
         (String "u" (String "0" (String "0"
            (String (hex_digit (Py.ord c / 16)) (String (hex_digit (Py.ord c mod 16)) ""))))).

Fixpoint escape (s : string) : string :=
  match s with
  | EmptyString => EmptyString
  | String c s' => escape_char c ++ escape s'
  end.

Definition encode_basestring_ascii (s : string) : string :=
  String dquote (escape s ++ String dquote "").

(** [json.dumps(l)] for a list of strings, with the default separators. *)
Definition dumps (l : list string) : string :=
  "[" ++ Py.join ", " (map encode_basestring_ascii l) ++ "]".

End Json.

(* ===================================================================== *)
(** ** Files, sets and the state of a run *)
(* ===================================================================== *)

(** Reading a file opened in text mode: [\r\n] and a lone [\r] arrive as
    [\n]. *)
Fixpoint read_text (content : string) : string :=
  match content with
  | EmptyString => EmptyString
  | String "013" (String "010" rest) => String "010" (read_text rest)
  | String "013" rest => String "010" (read_text rest)
  | String c rest => String c (read_text rest)
  end.

(** [for line in f] on the text read: every line keeps its [\n]; a last
    line without [\n] is a line too. *)
Fixpoint file_lines (s : string) : list string :=
  match s with
  | EmptyString => []
  | String c rest =>
      if bool_decide (c = "010"%char) then String c "" :: file_lines rest
      else match file_lines rest with
           | [] => [String c ""]
           | l :: ls => String c l :: ls
           end
  end.

(** The order in which a set is iterated is not specified; it follows from
    the hash seed of the process.  Every seed gives an order of the
    elements: entry [k] of the seed picks the next element among those
    left. *)
Fixpoint permute {A : Type} (n : nat) (seed : list nat) (l : list A) : list A :=
  match n with
  | O => []
  | S n' =>
      let k := (List.hd O seed mod length l)%nat in
      match l !! k with
      | Some x => x :: permute n' (List.tl seed) (delete k l)
      | None => []
      end
  end.

(** [list(s)] for a set [s]. *)
Definition list_of_set (seed : list nat) (s : gset string) : list string :=
  permute (length (elements s)) seed (elements s).

(** A tag of a parsed page, as far as the program looks at it: its
    attributes and its text. *)
Record Tag : Type := { attrs : gmap string string; text : string }.

(** One element [.s-item] of the eBay page, seen through the three calls of
    [select_one]: each gives a tag or [None]. *)
Record EbayItem : Type := {
  link_tag : option Tag;
  title_tag : option Tag;
  loc_tag : option Tag
}.

(** What is outside the program during one run: the answer of each site,
    already parsed (the elements [.s-item] of the eBay page, the [a]
    elements of the Gumtree page), or the exception that the request
    raises, and the hash seed. *)
Record Env : Type := {
  ebay_response : result (list EbayItem);
  gumtree_response : result (list Tag);
  hash_seed : list nat
}.

(** The state that the program reads and writes: the two seen-files
    ([None] when the path does not exist), the two global lists of matches,
    and the text printed. *)
Record World : Type := {
  SEEN_EBAY : option string;
  SEEN_GUMTREE : option string;
  ebay_matches : list (string * string);
  gumtree_matches : list (string * string);
  stdout : string
}.

(** A computation reads and writes the state and returns or raises; the
    state written before an exception stays written. *)
Definition M (A : Type) : Type := World -> result A * World.

Definition ret {A : Type} (a : A) : M A := fun w => (Ok a, w).

Definition raise {A : Type} (e : exn) : M A := fun w => (Raise e, w).

Definition bind {A B : Type} (m : M A) (k : A -> M B) : M B :=
  fun w =>
    match m w with
    | (Ok a, w') => k a w'
    | (Raise e, w') => (Raise e, w')
    end.

Definition lift {A : Type} (r : result A) : M A := fun w => (r, w).

Notation "x <~ m ;; k" := (bind m (fun x => k))
  (at level 100, m at next level, right associativity, only parsing).
Notation "m ;;; k" := (bind m (fun _ => k))
  (at level 100, right associativity, only parsing).

Definition set_SEEN_EBAY (f : option string) (w : World) : World :=
  {| SEEN_EBAY := f; SEEN_GUMTREE := SEEN_GUMTREE w;
     ebay_matches := ebay_matches w; gumtree_matches := gumtree_matches w;
     stdout := stdout w |}.

Definition set_SEEN_GUMTREE (f : option string) (w : World) : World :=
  {| SEEN_EBAY := SEEN_EBAY w; SEEN_GUMTREE := f;
     ebay_matches := ebay_matches w; gumtree_matches := gumtree_matches w;
     stdout := stdout w |}.

Definition set_ebay_matches (l : list (string * string)) (w : World) : World :=
  {| SEEN_EBAY := SEEN_EBAY w; SEEN_GUMTREE := SEEN_GUMTREE w;
     ebay_matches := l; gumtree_matches := gumtree_matches w;
     stdout := stdout w |}.

Definition set_gumtree_matches (l : list (string * string)) (w : World) : World :=
  {| SEEN_EBAY := SEEN_EBAY w; SEEN_GUMTREE := SEEN_GUMTREE w;
     ebay_matches := ebay_matches w; gumtree_matches := l;
     stdout := stdout w |}.

Definition set_stdout (s : string) (w : World) : World :=
  {| SEEN_EBAY := SEEN_EBAY w; SEEN_GUMTREE := SEEN_GUMTREE w;
     ebay_matches := ebay_matches w; gumtree_matches := gumtree_matches w;
     stdout := s |}.

(** [print(s)] *)
Definition print (s : string) : M unit :=
  fun w => (Ok tt, set_stdout (stdout w ++ s ++ String "010" "") w).

(* ===================================================================== *)
(** ** eBay *)
(* ===================================================================== *)

Definition narrow (s : list Z) : option string :=
  if forallb (fun n => (0 <=? n) && (n <? 256)) s
  then Some (string_of_list_ascii (map Py.chr s)) else None.

Definition unhashable (v : Json.value) : bool :=
  match v with
  | Json.Array _ | Json.Object _ => true
  | _ => false
  end.

Definition as_str (v : Json.value) : option string :=
  match v with
  | Json.Str s => narrow s
  | _ => None
  end.

(** [set(obj)] for a decoded document: the members of a list, the keys of
    an object, the characters of a string; [TypeError] for a list with a
    list or an object in it, and for a document that cannot be iterated.
    A member that is not a string, or a string with a code point above
    255, is outside the embedding. *)
Definition set_of_json (obj : Json.value) : result (gset string) :=
  match obj with
  | Json.Array l =>
      if existsb unhashable l then Raise TypeError
      else match mapM as_str l with
           | Some strs => Ok (list_to_set strs)
           | None => Raise UnmodelledValue
           end
  | Json.Object members =>
      match mapM (fun m => narrow (fst m)) members with
      | Some keys => Ok (list_to_set keys)
      | None => Raise UnmodelledValue
      end
  | Json.Str s =>
      match narrow s with
      | Some str => Ok (list_to_set (map (fun c => String c "") (list_ascii_of_string str)))
      | None => Raise UnmodelledValue
      end
  | _ => Raise TypeError
  end.

Definition load_ebay_seen : M (gset string) :=
  fun w =>
    match SEEN_EBAY w with
    | Some content =>
        (obj ← Json.loads (read_text content); set_of_json obj, w)
    | None => (Ok ∅, w)
    end.

(** [save_ebay_seen(seen)]; [seed] gives the order of [list(seen)]. *)
Definition save_ebay_seen (seed : list nat) (seen : gset string) : M unit :=
  fun w => (Ok tt, set_SEEN_EBAY (Some (Json.dumps (list_of_set seed seen))) w).

(** The request and [raise_for_status], then the elements that
    [soup.select(".s-item")] finds in the text returned. *)
Definition fetch_ebay_results (env : Env) : M (list EbayItem) :=
  lift (ebay_response env).

(** [tag[key]] *)
Definition getitem (t : Tag) (key : string) : result string :=
  match attrs t !! key with
  | Some v => Ok v
  | None => Raise KeyError
  end.

(** [ebay_matches.append(m)] *)
Definition append_ebay_match (m : string * string) : M unit :=
  fun w => (Ok tt, set_ebay_matches (ebay_matches w ++ [m])%list w).

(** The body of the loop of [process_ebay], for one item. *)
Definition ebay_item (cfg : Config) (seen : gset string) (item : EbayItem)
    (new_seen : gset string) : M (gset string) :=
  match link_tag item, title_tag item with
  | Some link_tag, Some title_tag =>
      href <~ lift (getitem link_tag "href") ;;
      link <~ lift (normalize_ebay_url href) ;;
      let title := Py.strip (text title_tag) in
      let location :=
        match loc_tag item with
        | Some loc_tag => Py.strip (text loc_tag)
        | None => "Unknown"
        end in
      if bool_decide (link ∈ seen) then ret new_seen
      else
        let matched := is_match cfg title (Some "ebay") in
        let located := is_nearby cfg location in
        (if matched && located
         then append_ebay_match (Py.drop 11 title, link)
         else ret tt) ;;;
        ret ({[link]} ∪ new_seen)
  | _, _ => ret new_seen
  end.

Fixpoint ebay_loop (cfg : Config) (seen : gset string) (results : list EbayItem)
    (new_seen : gset string) : M (gset string) :=
  match results with
  | [] => ret new_seen
  | item :: rest =>
      new_seen <~ ebay_item cfg seen item new_seen ;;
      ebay_loop cfg seen rest new_seen
  end.

Definition process_ebay (cfg : Config) (env : Env) : M unit :=
  results <~ fetch_ebay_results env ;;
  seen <~ load_ebay_seen ;;
  let new_seen := seen in
  new_seen <~ ebay_loop cfg seen results new_seen ;;
  save_ebay_seen (hash_seed env) new_seen.

(* ===================================================================== *)
(** ** Gumtree *)
(* ===================================================================== *)

Definition load_gumtree_seen : M (gset string) :=
  fun w =>
    match SEEN_GUMTREE w with
    | Some content => (Ok (list_to_set (map Py.strip (file_lines (read_text content)))), w)
    | None => (Ok ∅, w)
    end.

(** Opening the file for appending creates it when it does not exist; the
    line separator of the system is [\n]. *)
Definition mark_gumtree_seen (url : string) : M unit :=
  fun w =>
    (Ok tt,
     set_SEEN_GUMTREE (Some (default "" (SEEN_GUMTREE w) ++ url ++ String "010" "")) w).

(** The request and [raise_for_status], then the [a] elements of the text
    returned. *)
Definition fetch_gumtree_results (env : Env) : M (list Tag) :=
  lift (gumtree_response env).

(** A parsed Gumtree listing: the dictionary with the keys [title] and
    [link]. *)
Record Listing : Type := { title : string; link : string }.

(** [soup.find_all("a", href=True)]: the [a] elements with an attribute
    [href]. *)
Definition find_all_a_href (anchors : list Tag) : list Tag :=
  List.filter (fun t => bool_decide (is_Some (attrs t !! "href"))) anchors.

Fixpoint parse_items (items : list Tag) (results : list Listing) : list Listing :=
  match items with
  | [] => results
  | item :: rest =>
      let href := default "" (attrs item !! "href") in
      let title := Py.strip (default "" (attrs item !! "aria-label")) in
      if bool_decide (href = "") then parse_items rest results
      else if negb (Py.startswith "/p/" href) then parse_items rest results
      else
        let full_link := "https://www.gumtree.com" ++ href in
        let title := if bool_decide (title = "") then Py.strip (text item) else title in
        if negb (bool_decide (title = "")) && Py.contains "/p/" href
        then parse_items rest (results ++ [{| title := title; link := full_link |}])%list
        else parse_items rest results
  end.

Definition parse_gumtree (html : list Tag) : list Listing :=
  parse_items (find_all_a_href html) [].

(** [gumtree_matches.append(m)] *)
Definition append_gumtree_match (m : string * string) : M unit :=
  fun w => (Ok tt, set_gumtree_matches (gumtree_matches w ++ [m])%list w).

(** The body of the loop of [process_gumtree], for one item. *)
Definition gumtree_item (cfg : Config) (seen : gset string) (item : Listing) : M unit :=
  if bool_decide (link item ∈ seen) then ret tt
  else
    (if is_match cfg (title item) (Some "gumtree")
     then append_gumtree_match (title item, link item)
     else ret tt) ;;;
    mark_gumtree_seen (link item).

Fixpoint gumtree_loop (cfg : Config) (seen : gset string) (results : list Listing) : M unit :=
  match results with
  | [] => ret tt
  | item :: rest => gumtree_item cfg seen item ;;; gumtree_loop cfg seen rest
  end.

Definition process_gumtree (cfg : Config) (env : Env) : M unit :=
  html <~ fetch_gumtree_results env ;;
  let results := parse_gumtree html in
  seen <~ load_gumtree_seen ;;
  gumtree_loop cfg seen results.

(* ===================================================================== *)
(** ** Main *)
(* ===================================================================== *)

(** Both files are unlinked when they exist. *)
Definition clear_cache : M unit :=
  fun w => (Ok tt, set_SEEN_GUMTREE None (set_SEEN_EBAY None w)).

Fixpoint print_matches (l : list (string * string)) : M unit :=
  match l with
  | [] => ret tt
  | (title, link) :: rest =>
      print title ;;; print (link ++ String "010" "") ;;; print_matches rest
  end.

Definition main (cfg : Config) (env : Env) : M unit :=
  (if CLEAR_CACHE_ON_START cfg then clear_cache else ret tt) ;;;
  (if ENABLE_EBAY cfg then process_ebay cfg env else ret tt) ;;;
  (if ENABLE_GUMTREE cfg then process_gumtree cfg env else ret tt) ;;;
  em <~ (fun w => (Ok (ebay_matches w), w)) ;;
  (if bool_decide (em = []) then ret tt else print "All ebay matches!") ;;;
  print_matches em ;;;
  gm <~ (fun w => (Ok (gumtree_matches w), w)) ;;
  (if bool_decide (gm = []) then ret tt else print "All gumtree matches!") ;;;
  print_matches gm.

(* ===================================================================== *)
(** ** Vocabulary of the statements *)
(* ===================================================================== *)

(** The configuration with other thresholds. *)
Definition with_ratios (cfg : Config) (ebay gumtree : Q) : Config := {|
  SEARCH_KEYWORDS := SEARCH_KEYWORDS cfg;
  KNOWN_BIKES := KNOWN_BIKES cfg;
  LOCATION_MODE := LOCATION_MODE cfg;
  ENABLE_EBAY := ENABLE_EBAY cfg;
  ENABLE_GUMTREE := ENABLE_GUMTREE cfg;
  CLEAR_CACHE_ON_START := CLEAR_CACHE_ON_START cfg;
  EBAY_RATIO := ebay;
  GUMTREE_RATIO := gumtree
|}.

(** The value that a string decodes to. *)
Definition str_value (s : string) : Json.value :=
  Json.Str (map Py.ord (list_ascii_of_string s)).

(** The identity of an eBay item, as the loop computes it: [None] for an
    item without link tag or without title tag, the normalized link
    otherwise; the exceptions are those of [link_tag["href"]] and of
    [urlparse]. *)
Definition item_link (item : EbayItem) : result (option string) :=
  match link_tag item, title_tag item with
  | Some lt, Some _ =>
      href ← getitem lt "href"; link ← normalize_ebay_url href; Ok (Some link)
  | _, _ => Ok None
  end.

(** The title and the location of an eBay item, as the loop computes them. *)
Definition item_title (item : EbayItem) : string :=
  match title_tag item with
  | Some t => Py.strip (text t)
  | None => ""
  end.

Definition item_location (item : EbayItem) : string :=
  match loc_tag item with
  | Some t => Py.strip (text t)
  | None => "Unknown"
  end.


(** A link without query and fragment, and what may follow it: nothing, or
    a query or a fragment. *)
Definition no_query_fragment (base : string) : Prop :=
  Py.has_char "?" base = false /\ Py.has_char "#" base = false.


(** A state with no files, no matches and nothing printed. *)
Definition fresh_world : World :=
  {| SEEN_EBAY := None; SEEN_GUMTREE := None; ebay_matches := [];
     gumtree_matches := []; stdout := "" |}.

(** A tag with the attribute [href], and a tag with text only. *)
Definition a_tag (href label : string) : Tag :=
  {| attrs := {[ "href" := href; "aria-label" := label ]}; text := "" |}.

Definition text_tag (t : string) : Tag := {| attrs := ∅; text := t |}.

Definition link_tag_to (href : string) : Tag :=
  {| attrs := {[ "href" := href ]}; text := "" |}.

(** Sample listings and pages. *)
Definition ebay_listing (href t loc : string) : EbayItem :=
  {| link_tag := Some (link_tag_to href); title_tag := Some (text_tag t);
     loc_tag := Some (text_tag loc) |}.

Definition trek_listing : EbayItem :=
  ebay_listing "https://www.ebay.co.uk/itm/1?hash=abc" "New ListingTrek Marlin 5"
    " Edinburgh, UK ".

Definition short_listing : EbayItem :=
  ebay_listing "https://www.ebay.co.uk/itm/2" "Trek" "Edinburgh".

Definition untitled_listing : EbayItem :=
  {| link_tag := Some (link_tag_to "https://www.ebay.co.uk/itm/3");
     title_tag := None; loc_tag := None |}.

Definition bike_anchor : Tag := a_tag "/p/bikes/1" "Road bike".

(** An anchor whose [href] ends with a space. *)
Definition spaced_anchor : Tag := a_tag "/p/bikes/1 " "Road bike".

Definition env_of (e : result (list EbayItem)) (g : result (list Tag)) : Env :=
  {| ebay_response := e; gumtree_response := g; hash_seed := [] |}.

(** The state before the two pipelines of [main]. *)
Definition after_clear (cfg : Config) (w : World) : World :=
  if CLEAR_CACHE_ON_START cfg then snd (clear_cache w) else w.

(** A title of 69 characters that holds the keyword and is far from every
    known term. *)
Definition far_title : string :=
  "bike00000000000000000000000000000000000000000000000000000000000000000".

(** A state whose eBay seen-file holds the identity of [trek_listing]. *)
Definition seen_world : World :=
  set_SEEN_EBAY (Some (Json.dumps ["https://www.ebay.co.uk/itm/1"])) fresh_world.




(** The condition of the loop that extends a block to the left, and of the
    loop that extends it to the right. *)
Definition left_condition (a b : list ascii) (alo blo : Z) (junk : bool)
    (bst : Difflib.best) : bool :=
  (alo <? Difflib.besti bst) && (blo <? Difflib.bestj bst)
  && Bool.eqb (Difflib.isbjunk (Difflib.at_ b (Difflib.bestj bst - 1))) junk
  && bool_decide (Difflib.at_ a (Difflib.besti bst - 1)
                  = Difflib.at_ b (Difflib.bestj bst - 1)).

Definition right_condition (a b : list ascii) (ahi bhi : Z) (junk : bool)
    (bst : Difflib.best) : bool :=
  (Difflib.besti bst + Difflib.bestsize bst <? ahi)
  && (Difflib.bestj bst + Difflib.bestsize bst <? bhi)
  && Bool.eqb (Difflib.isbjunk (Difflib.at_ b (Difflib.bestj bst + Difflib.bestsize bst))) junk
  && bool_decide (Difflib.at_ a (Difflib.besti bst + Difflib.bestsize bst)
                  = Difflib.at_ b (Difflib.bestj bst + Difflib.bestsize bst)).

(** The work left in the queue of [get_matching_blocks]: every entry counts
    twice its rows of [a], plus one. *)
Fixpoint queue_work (queue : list (Z * Z * Z * Z)) : Z :=
  match queue with
  | [] => 0
  | (alo, ahi, _, _) :: rest => 2 * (ahi - alo) + 1 + queue_work rest
  end.

Definition queue_ok (queue : list (Z * Z * Z * Z)) : Prop :=
  Forall (fun e => e.1.1.1 <= e.1.1.2) queue.

(** A scanner consumes when the text that it leaves is shorter than the
    text that it was given. *)
Definition consuming (scan : string -> result (Json.value * string)) : Prop :=
  forall s v rest, scan s = Ok (v, rest) -> (String.length rest < String.length s)%nat.

(** The set that [load_gumtree_seen] reads from a file. *)
Definition gumtree_set (file : option string) : gset string :=
  match file with
  | Some content => list_to_set (map Py.strip (file_lines (read_text content)))
  | None => ∅
  end.

(** A link that the seen-file of Gumtree gives back as it is: [strip] does
    not change it and it holds no line break. *)
Definition plain_link (l : string) : Prop :=
  Py.strip l = l /\ Py.has_char "010" l = false /\ Py.has_char "013" l = false.

(** A seen-file to which a line can be appended: it does not exist, is
    empty, or ends with a line feed. *)
Definition appendable (file : option string) : Prop :=
  match file with
  | None => True
  | Some content => content = "" \/ exists c, content = c ++ String "010" ""
  end.

(* ===================================================================== *)
(** ** Vocabulary of the further properties *)
(* ===================================================================== *)

(** The matches that a run of the eBay loop appends for a page, from the
    set loaded at its start: one for every item that has an identity
    outside the set, a matching title and an accepted location, in the
    order of the page. *)
Definition ebay_emitted (cfg : Config) (seen : gset string) (items : list EbayItem)
    : list (string * string) :=
  flat_map (fun item =>
    match item_link item with
    | Ok (Some link) =>
        if negb (bool_decide (link ∈ seen))
           && is_match cfg (item_title item) (Some "ebay")
           && is_nearby cfg (item_location item)
        then [(Py.drop 11 (item_title item), link)]
        else []
    | _ => []
    end) items.

(** An item whose identity can be computed: it is incomplete, or its link
    tag has an [href] that [urlparse] accepts. *)
Definition well_linked (item : EbayItem) : Prop :=
  exists ol, item_link item = Ok ol.

(** The eBay state after a run that saved [new_seen] and appended [new]. *)
Definition ebay_saved (seed : list nat) (new_seen : gset string)
    (new : list (string * string)) (w : World) : World :=
  set_SEEN_EBAY (Some (Json.dumps (list_of_set seed new_seen)))
    (set_ebay_matches (ebay_matches w ++ new)%list w).

(** A page of eBay: a match, an item without title tag, and a match with
    a short title. *)
Definition sample_page : list EbayItem := [trek_listing; untitled_listing; short_listing].

(** An item whose link tag has no [href], and an item whose [href] opens a
    bracket that is never closed. *)
Definition hrefless_listing : EbayItem :=
  {| link_tag := Some (text_tag ""); title_tag := Some (text_tag "Trek 820");
     loc_tag := None |}.

Definition bracket_listing : EbayItem := ebay_listing "http://[" "Trek 820" "Edinburgh".

(** An item that matches no known term at the thresholds of the source. *)
Definition chair_listing : EbayItem :=
  ebay_listing "https://www.ebay.co.uk/itm/9" "Garden chair" "Glasgow".

(** The listing that [parse_gumtree] makes of [spaced_anchor]. *)
Definition spaced_listing : Listing :=
  {| title := "Road bike"; link := "https://www.gumtree.com/p/bikes/1 " |}.

(** The listings of a page whose link is not in the set loaded at the
    start of the run, in the order of the page. *)
Definition gumtree_fresh (seen : gset string) (results : list Listing) : list Listing :=
  List.filter (fun it => negb (bool_decide (link it ∈ seen))) results.

(** The matches that a run of the Gumtree loop appends for a page: one
    for every such listing with a matching title. *)
Definition gumtree_emitted (cfg : Config) (seen : gset string) (results : list Listing)
    : list (string * string) :=
  map (fun it => (title it, link it))
    (List.filter (fun it => is_match cfg (title it) (Some "gumtree"))
       (gumtree_fresh seen results)).

(** The lines that the loop appends to the seen-file: the link of every
    such listing, each followed by a line feed. *)
Fixpoint marked_lines (new : list Listing) : string :=
  match new with
  | [] => ""
  | it :: rest => link it ++ String "010" "" ++ marked_lines rest
  end.

(** The seen-file after the loop: untouched when no listing was new,
    created when it did not exist. *)
Definition gumtree_marked (file : option string) (new : list Listing) : option string :=
  match new with
  | [] => file
  | _ :: _ => Some (default "" file ++ marked_lines new)
  end.

(** The state after a run of [process_gumtree] over the listings
    [results]. *)
Definition gumtree_done (cfg : Config) (results : list Listing) (w : World) : World :=
  let seen := gumtree_set (SEEN_GUMTREE w) in
  set_SEEN_GUMTREE (gumtree_marked (SEEN_GUMTREE w) (gumtree_fresh seen results))
    (set_gumtree_matches (gumtree_matches w ++ gumtree_emitted cfg seen results)%list w).

(** The listing that one anchor of the page gives, if any. *)
Definition listing_of (a : Tag) : option Listing :=
  match attrs a !! "href" with
  | Some href =>
      if Py.startswith "/p/" href then
        let label := Py.strip (default "" (attrs a !! "aria-label")) in
        let t := if bool_decide (label = "") then Py.strip (text a) else label in
        if bool_decide (t = "") then None
        else Some {| title := t; link := "https://www.gumtree.com" ++ href |}
      else None
  | None => None
  end.

(** A listing with a link under [https://www.gumtree.com/p/] and a title
    that is stripped and not empty. *)
Definition well_formed_listing (it : Listing) : Prop :=
  (exists rest, link it = "https://www.gumtree.com/p/" ++ rest)
  /\ title it <> ""
  /\ Py.strip (title it) = title it.

(** The part of the state that belongs to Gumtree and to the output, put
    into a state; and the same for eBay. *)
Definition with_gumtree_side (g : option string) (m : list (string * string))
    (s : string) (w : World) : World :=
  set_stdout s (set_SEEN_GUMTREE g (set_gumtree_matches m w)).

Definition with_ebay_side (f : option string) (m : list (string * string))
    (s : string) (w : World) : World :=
  set_stdout s (set_SEEN_EBAY f (set_ebay_matches m w)).

(** The text that the loop over a list of matches prints: for each match
    the title on a line, the link on a line, and an empty line. *)
Fixpoint printed (l : list (string * string)) : string :=
  match l with
  | [] => ""
  | (t, u) :: rest =>
      t ++ String "010" "" ++ u ++ String "010" (String "010" "") ++ printed rest
  end.

(** The heading and the matches, or nothing for an empty list. *)
Definition report (heading : string) (l : list (string * string)) : string :=
  if bool_decide (l = []) then "" else heading ++ String "010" "" ++ printed l.

(** The two pipelines of [main], each when it is enabled. *)
Definition pipelines (cfg : Config) (env : Env) : M unit :=
  (if ENABLE_EBAY cfg then process_ebay cfg env else ret tt) ;;;
  (if ENABLE_GUMTREE cfg then process_gumtree cfg env else ret tt).

(** The state after the report of [main]. *)
Definition reported (w : World) : World :=
  set_stdout
    (stdout w ++ report "All ebay matches!" (ebay_matches w)
       ++ report "All gumtree matches!" (gumtree_matches w)) w.




(** The sum of the sizes of a list of blocks. *)
Definition sum_sizes (blocks : list (Z * Z * Z)) : Z :=
  foldr Z.add 0 (map (fun t => snd t) blocks).

(** The rows of [a], and of [b], that the entries of the queue span. *)
Fixpoint a_room (queue : list (Z * Z * Z * Z)) : Z :=
  match queue with
  | [] => 0
  | (alo, ahi, _, _) :: rest => (ahi - alo) + a_room rest
  end.

Fixpoint b_room (queue : list (Z * Z * Z * Z)) : Z :=
  match queue with
  | [] => 0
  | (_, _, blo, bhi) :: rest => (bhi - blo) + b_room rest
  end.

(** Every entry of the queue is a pair of ranges. *)
Definition queue_ranges (queue : list (Z * Z * Z * Z)) : Prop :=
  Forall (fun e => e.1.1.1 <= e.1.1.2 /\ e.1.2 <= e.2) queue.

(** The entries of [j2len] describe runs that lie in [b[blo:bhi]], and so
    does the best block. *)
Definition runs_inside (blo bhi : Z) (j2len : gmap Z Z) : Prop :=
  forall j v, j2len !! j = Some v -> 1 <= v /\ blo <= j - v + 1 /\ j < bhi.

Definition best_inside (blo bhi : Z) (bst : Difflib.best) : Prop :=
  blo <= Difflib.bestj bst /\ Difflib.bestj bst + Difflib.bestsize bst <= bhi.

(** The configuration with another location mode. *)
Definition with_location_mode (cfg : Config) (mode : string) : Config := {|
  SEARCH_KEYWORDS := SEARCH_KEYWORDS cfg;
  KNOWN_BIKES := KNOWN_BIKES cfg;
  LOCATION_MODE := mode;
  ENABLE_EBAY := ENABLE_EBAY cfg;
  ENABLE_GUMTREE := ENABLE_GUMTREE cfg;
  CLEAR_CACHE_ON_START := CLEAR_CACHE_ON_START cfg;
  EBAY_RATIO := EBAY_RATIO cfg;
  GUMTREE_RATIO := GUMTREE_RATIO cfg
|}.

(** The address that [fetch_gumtree_results] requests: the location is
    [edinburgh] in the mode [edinburgh] and [united-kingdom] in every
    other mode, and the query is made of the keywords. *)
Definition gumtree_search_location (cfg : Config) : string :=
  if bool_decide (LOCATION_MODE cfg = "edinburgh") then "edinburgh" else "united-kingdom".

Definition gumtree_search_url (cfg : Config) : string :=
  let query := Py.join "+" (SEARCH_KEYWORDS cfg) in
  let base_url := "https://www.gumtree.com/search" in
  base_url ++ "?search_category=bicycles&search_location="
    ++ gumtree_search_location cfg ++ "&q=" ++ query.

(** The length of the run of characters that are not popular and that
    ends at position [t] of [s]. *)
Fixpoint unpopular_run_nat (s : list ascii) (t : nat) : Z :=
  if Difflib.popular s (nth t s Ascii.zero) then 0
  else match t with
       | O => 1
       | S t' => unpopular_run_nat s t' + 1
       end.

Definition unpopular_run (s : list ascii) (t : Z) : Z :=
  if t <? 0 then 0 else unpopular_run_nat s (Z.to_nat t).

(** The entries of [j2len] before row [i] of the scan of [s] against
    itself: a run that ends at column [j] is no longer than the run of
    unpopular characters there, nor than the one at row [i - 1]; and the
    entry of the diagonal is that run. *)
Definition own_rows (s : list ascii) (i : Z) (j2len : gmap Z Z) : Prop :=
  (forall j v, j2len !! j = Some v ->
     1 <= v /\ v <= unpopular_run s j /\ v <= unpopular_run s (i - 1))
  /\ default 0 (j2len !! (i - 1)) = unpopular_run s (i - 1).

(** The best block before row [i]: it lies on the diagonal, above row
    [i], and is as long as every run of the diagonal above row [i]. *)
Definition own_best (s : list ascii) (i : Z) (bst : Difflib.best) : Prop :=
  Difflib.besti bst = Difflib.bestj bst
  /\ 0 <= Difflib.besti bst /\ 0 <= Difflib.bestsize bst
  /\ Difflib.besti bst + Difflib.bestsize bst <= i
  /\ forall t, 0 <= t < i -> unpopular_run s t <= Difflib.bestsize bst.

(* ===================================================================== *)
(** * Properties *)
(* ===================================================================== *)

(** ** Strings *)

#[local] Arguments String.append !s1 s2 : simpl nomatch.

Lemma startswith_spec (p s : string) :
  Py.startswith p s = true <-> exists post, s = p ++ post.
Proof.
  revert s. induction p as [|a p IH]; intros s; simpl.
  - split; [intros _; exists s; reflexivity | reflexivity].
  - destruct s as [|b s].
    + split; [discriminate | intros [post H]; discriminate].
    + destruct (ascii_dec a b) as [->|Hne].
      * rewrite IH. split; intros [post H]; exists post; simpl in *; congruence.
      * split; [discriminate | intros [post H]; simpl in H; congruence].
Qed.

(** [needle in hay] holds exactly when [hay] is some text, then [needle],
    then some text. *)
Lemma contains_spec (needle hay : string) :
  Py.contains needle hay = true <-> exists pre post, hay = pre ++ needle ++ post.
Proof.
  induction hay as [|c hay IH].
  - simpl. rewrite orb_false_r, startswith_spec. split.
    + intros [post H]. exists "", post. exact H.
    + intros [pre [post H]]. destruct pre; simpl in H; [eauto | discriminate].
  - cbn [Py.contains]. rewrite orb_true_iff, startswith_spec, IH. split.
    + intros [[post H] | [pre [post H]]].
      * exists "", post. exact H.
      * exists (String c pre), post. simpl. congruence.
    + intros [pre [post H]]. destruct pre as [|d pre]; simpl in H.
      * left. eauto.
      * right. exists pre, post. congruence.
Qed.

Lemma Qgtb_spec (x y : Q) : Qgtb x y = true <-> (y < x)%Q.
Proof.
  unfold Qgtb. rewrite negb_true_iff. split.
  - intros H. apply Qnot_le_lt. intros Hle.
    apply Qle_bool_iff in Hle. congruence.
  - intros H. destruct (Qle_bool x y) eqn:E; [|reflexivity].
    apply Qle_bool_iff in E. exfalso. eapply Qlt_not_le; eauto.
Qed.

(** ** The matcher *)

(** The loop over the known terms finds a match exactly when the ratio of
    some term is above the threshold of the website. *)
Lemma known_loop_spec (cfg : Config) (t : string) (website : option string)
    (knowns : list string) :
  known_loop cfg t website knowns = true <->
  exists known, In known knowns /\
    (RATIO cfg website < Difflib.ratio t (Py.lower known))%Q.
Proof.
  induction knowns as [|k ks IH]; simpl.
  - split; [discriminate | intros [known [[] _]]].
  - destruct (Qgtb _ _) eqn:E.
    + split; [|reflexivity]. intros _. exists k. split; [now left|].
      now apply Qgtb_spec.
    + rewrite IH. split.
      * intros [known [Hin Hlt]]. exists known. split; [now right | exact Hlt].
      * intros [known [[<-|Hin] Hlt]].
        -- apply Qgtb_spec in Hlt. congruence.
        -- exists known. split; assumption.
Qed.

Lemma keyword_loop_spec (t : string) (keywords : list string) :
  keyword_loop t keywords = true <->
  exists keyword, In keyword keywords /\ Py.contains (Py.lower keyword) t = true.
Proof.
  induction keywords as [|k ks IH]; simpl.
  - split; [discriminate | intros [keyword [[] _]]].
  - destruct (Py.contains (Py.lower k) t) eqn:E.
    + split; [|reflexivity]. intros _. exists k. split; [now left | exact E].
    + rewrite IH. split.
      * intros [keyword [Hin Hc]]. exists keyword. split; [now right | exact Hc].
      * intros [keyword [[<-|Hin] Hc]]; [congruence|].
        exists keyword. split; assumption.
Qed.

(** [is_match] is its similarity path or, for Gumtree only, its keyword
    path. *)
Lemma is_match_paths (cfg : Config) (t : string) (website : option string) :
  is_match cfg t website =
  known_loop cfg (Py.lower t) website (KNOWN_BIKES cfg)
  || (bool_decide (website = Some "gumtree")
      && keyword_loop (Py.lower t) (SEARCH_KEYWORDS cfg)).
Proof.
  unfold is_match.
  destruct (known_loop _ _ _ _); [reflexivity|].
  destruct (bool_decide _); [|reflexivity].
  destruct (keyword_loop _ _); reflexivity.
Qed.

(** C5.  The location filter accepts every location when the mode is
    [anywhere]; in every other mode it accepts a location exactly when the
    lower-cased text contains [edinburgh]: it rejects [Unknown] and accepts
    [Edinburgh, UK]. *)
Theorem C5_location_filter (cfg : Config) (location : string) :
  (LOCATION_MODE cfg = "anywhere" ->
     is_nearby cfg location = true /\ is_nearby cfg "Unknown" = true)
  /\ (LOCATION_MODE cfg <> "anywhere" ->
        (is_nearby cfg location = true <->
           exists pre post, Py.lower location = pre ++ "edinburgh" ++ post)
        /\ is_nearby cfg "Unknown" = false
        /\ is_nearby cfg "Edinburgh, UK" = true).
Proof.
  unfold is_nearby. split.
  - intros Hm. rewrite bool_decide_eq_true_2 by exact Hm. split; reflexivity.
  - intros Hm. rewrite bool_decide_eq_false_2 by exact Hm.
    split; [apply contains_spec|]. split; reflexivity.
Qed.

Lemma C5_location_filter_witness :
  LOCATION_MODE source_config <> "anywhere"
  /\ is_nearby source_config "Unknown" = false
  /\ is_nearby source_config "Edinburgh, UK" = true
  /\ (is_nearby source_config "Leith, EDINBURGH" = true <->
        exists pre post, Py.lower "Leith, EDINBURGH" = pre ++ "edinburgh" ++ post).
Proof.
  assert (Hm : LOCATION_MODE source_config <> "anywhere") by (simpl; discriminate).
  split; [exact Hm|].
  destruct (C5_location_filter source_config "Leith, EDINBURGH") as [_ H].
  destruct (H Hm) as [Hiff [Hu He]].
  split; [exact Hu|]. split; [exact He | exact Hiff].
Defined.

(** C6.  A title that contains a configured keyword, case-insensitively,
    and whose ratio against every known term does not exceed the threshold
    of the website, matches for the website [gumtree] and for no other. *)
Theorem C6_keyword_path_source_restricted (cfg : Config) (t : string)
    (website : option string) :
  (exists keyword pre post, In keyword (SEARCH_KEYWORDS cfg)
     /\ Py.lower t = pre ++ Py.lower keyword ++ post) ->
  (forall known, In known (KNOWN_BIKES cfg) ->
     (Difflib.ratio (Py.lower t) (Py.lower known) <= RATIO cfg website)%Q) ->
  (website = Some "gumtree" -> is_match cfg t website = true)
  /\ (website <> Some "gumtree" -> is_match cfg t website = false).
Proof.
  intros [keyword [pre [post [Hin Hsub]]]] Hlow.
  rewrite is_match_paths.
  assert (Hk : known_loop cfg (Py.lower t) website (KNOWN_BIKES cfg) = false).
  { destruct (known_loop _ _ _ _) eqn:E; [|reflexivity].
    apply known_loop_spec in E. destruct E as [known [Hk Hlt]].
    exfalso. eapply Qlt_not_le; [exact Hlt | apply Hlow, Hk]. }
  assert (Hw : keyword_loop (Py.lower t) (SEARCH_KEYWORDS cfg) = true).
  { apply keyword_loop_spec. exists keyword. split; [exact Hin|].
    apply contains_spec. eauto. }
  rewrite Hk, Hw. simpl. split; intros H.
  - rewrite bool_decide_eq_true_2 by exact H. reflexivity.
  - rewrite bool_decide_eq_false_2 by exact H. reflexivity.
Qed.

Lemma C6_keyword_path_source_restricted_witness :
  is_match source_config far_title (Some "gumtree") = true
  /\ is_match source_config "BIKE000000" (Some "ebay") = false
  /\ is_match source_config far_title None = false.
Proof.
  split; [|split].
  - apply (C6_keyword_path_source_restricted source_config far_title (Some "gumtree")).
    + exists "bike", "", (Py.drop 4 far_title). split; [now left | reflexivity].
    + intros known [<-|[<-|[<-|[]]]]; vm_compute; discriminate.
    + reflexivity.
  - apply (C6_keyword_path_source_restricted source_config "BIKE000000" (Some "ebay")).
    + exists "bike", "", "000000". split; [now left | reflexivity].
    + intros known [<-|[<-|[<-|[]]]]; vm_compute; discriminate.
    + discriminate.
  - apply (C6_keyword_path_source_restricted source_config far_title None).
    + exists "bike", "", (Py.drop 4 far_title). split; [now left | reflexivity].
    + intros known [<-|[<-|[<-|[]]]]; vm_compute; discriminate.
    + discriminate.
Defined.



(** ** The seen-file of eBay: what [json.dump] writes, [json.load] reads *)

Lemma append_assoc (a b c : string) : (a ++ b) ++ c = a ++ (b ++ c).
Proof. induction a as [|x a IH]; simpl; [reflexivity | now rewrite IH]. Qed.

Lemma length_append (a b : string) :
  String.length (a ++ b) = (String.length a + String.length b)%nat.
Proof. induction a as [|x a IH]; simpl; [reflexivity | now rewrite IH]. Qed.

Ltac each_char c :=
  destruct c as [[|] [|] [|] [|] [|] [|] [|] [|]].

(** Decoding undoes the escape of one character. *)
Lemma scanstring_escape_char (c : ascii) (tail : string) (acc : list Z) :
  Json.scanstring (Json.escape_char c ++ tail) acc
  = Json.scanstring tail (Json.snoc acc (Py.ord c)).
Proof. each_char c; reflexivity. Qed.

Lemma scanstring_escape (s rest : string) (acc : list Z) :
  Json.scanstring (Json.escape s ++ String Json.dquote rest) acc
  = Ok ((acc ++ map Py.ord (list_ascii_of_string s))%list, rest).
Proof.
  revert acc. induction s as [|c s IH]; intros acc.
  - simpl. now rewrite app_nil_r.
  - cbn [Json.escape]. rewrite append_assoc, scanstring_escape_char, IH.
    unfold Json.snoc. cbn [list_ascii_of_string map]. now rewrite <- app_assoc.
Qed.

Lemma ord_bounds (c : ascii) : 0 <= Py.ord c < 256.
Proof. each_char c; vm_compute; (split; [intros H; discriminate H | reflexivity]). Qed.

Lemma chr_ord (c : ascii) : Py.chr (Py.ord c) = c.
Proof. each_char c; reflexivity. Qed.

Lemma narrow_ord (s : string) :
  narrow (map Py.ord (list_ascii_of_string s)) = Some s.
Proof.
  unfold narrow.
  assert (Hall : forallb (fun n => (0 <=? n) && (n <? 256))
                   (map Py.ord (list_ascii_of_string s)) = true).
  { induction s as [|c s IH]; [reflexivity|]. cbn [list_ascii_of_string map forallb].
    rewrite IH. pose proof (ord_bounds c) as [H1 H2].
    apply Z.leb_le in H1. apply Z.ltb_lt in H2. now rewrite H1, H2. }
  rewrite Hall. f_equal. clear Hall.
  induction s as [|c s IH]; [reflexivity|].
  cbn [list_ascii_of_string map string_of_list_ascii]. now rewrite chr_ord, IH.
Qed.

Lemma scan_once_string (d : nat) (s rest : string) :
  Json.scan_once (S d) (Json.encode_basestring_ascii s ++ rest) = Ok (str_value s, rest).
Proof.
  unfold Json.encode_basestring_ascii. cbn [String.append Json.scan_once].
  rewrite append_assoc. cbn [String.append].
  rewrite scanstring_escape. reflexivity.
Qed.

Lemma skip_ws_encoded (s rest : string) :
  Json.skip_ws (Json.encode_basestring_ascii s ++ rest)
  = Json.encode_basestring_ascii s ++ rest.
Proof. reflexivity. Qed.

Lemma array_loop_dumps (l : list string) : forall (x : string) (n d : nat)
    (acc : list Json.value) (tail : string),
  (length l < n)%nat ->
  Json.array_loop n (Json.scan_once (S d))
    (Py.join ", " (map Json.encode_basestring_ascii (x :: l)) ++ "]" ++ tail) acc
  = Ok (Json.Array (acc ++ map str_value (x :: l))%list, tail).
Proof.
  induction l as [|y l IH]; intros x n d acc tail Hn.
  - destruct n as [|n]; [simpl in Hn; lia|].
    cbn [map Py.join Json.array_loop].
    rewrite scan_once_string. reflexivity.
  - destruct n as [|n]; [simpl in Hn; lia|].
    change (Py.join ", " (map Json.encode_basestring_ascii (x :: y :: l)))
      with (Json.encode_basestring_ascii x ++ ", "
            ++ Py.join ", " (map Json.encode_basestring_ascii (y :: l))).
    rewrite !append_assoc. cbn [Json.array_loop].
    rewrite scan_once_string.
    cbn [mbind result_bind bind_result String.append Json.skip_ws Py.lstrip_by].
    change (Json.is_ws ",") with false. change (Json.is_ws " ") with true.
    cbv iota.
    assert (Hskip : forall r, Py.lstrip_by Json.is_ws
              (Py.join ", " (map Json.encode_basestring_ascii (y :: l)) ++ r)
              = Py.join ", " (map Json.encode_basestring_ascii (y :: l)) ++ r).
    { intros r. destruct l; reflexivity. }
    change (Json.skip_ws (String " " ?r)) with (Py.lstrip_by Json.is_ws r).
    rewrite Hskip. change (String "]" tail) with ("]" ++ tail).
    rewrite IH by (simpl in Hn; lia).
    unfold Json.snoc. rewrite <- app_assoc. reflexivity.
Qed.

Lemma join_encoded_length (x : string) (l : list string) :
  (length l < String.length
     (Py.join ", " (map Json.encode_basestring_ascii (x :: l)) ++ "]"))%nat.
Proof.
  revert x. induction l as [|y l IH]; intros x.
  - cbn [map Py.join length]. rewrite length_append. simpl. lia.
  - change (Py.join ", " (map Json.encode_basestring_ascii (x :: y :: l)))
      with (Json.encode_basestring_ascii x ++ ", "
            ++ Py.join ", " (map Json.encode_basestring_ascii (y :: l))).
    rewrite !append_assoc, length_append, length_append.
    specialize (IH y). cbn [length]. simpl String.length at 1 2. lia.
Qed.

(** Decoding the text written for a list of strings gives that list. *)
Lemma loads_dumps (l : list string) :
  Json.loads (Json.dumps l) = Ok (Json.Array (map str_value l)).
Proof.
  unfold Json.loads, Json.dumps. destruct l as [|x l].
  - reflexivity.
  - change (Json.skip_ws ("[" ++ ?r)) with ("[" ++ r).
    cbn [String.append].
    set (body := Py.join ", " (map Json.encode_basestring_ascii (x :: l)) ++ "]").
    cbn [String.length].
    change (Json.scan_once (S ?d) (String "[" ?r))
      with (Json.parse_array (Json.scan_once d) r).
    unfold Json.parse_array.
    assert (Hb : Json.skip_ws body = body) by (subst body; destruct l; reflexivity).
    assert (Hs : Py.startswith "]" body = false) by (subst body; destruct l; reflexivity).
    rewrite Hb, Hs.
    pose proof (join_encoded_length x l) as Hlen. fold body in Hlen.
    destruct (String.length body) as [|n] eqn:En; [lia|].
    subst body.
    replace (Py.join ", " (map Json.encode_basestring_ascii (x :: l)) ++ "]")
      with (Py.join ", " (map Json.encode_basestring_ascii (x :: l)) ++ "]" ++ "")
      by reflexivity.
    rewrite array_loop_dumps by lia. reflexivity.
Qed.

Lemma has_char_append (c : ascii) (a b : string) :
  Py.has_char c (a ++ b) = Py.has_char c a || Py.has_char c b.
Proof.
  induction a as [|x a IH]; simpl; [reflexivity|].
  destruct (ascii_dec c x); [reflexivity | exact IH].
Qed.

Lemma read_text_cons (c : ascii) (s : string) :
  c <> "013"%char -> read_text (String c s) = String c (read_text s).
Proof. intros Hc. each_char c; try reflexivity. now destruct Hc. Qed.

(** A text without carriage return is read as it is. *)
Lemma read_text_no_cr (s : string) :
  Py.has_char "013" s = false -> read_text s = s.
Proof.
  induction s as [|c s IH]; [reflexivity|]. cbn [Py.has_char].
  destruct (ascii_dec "013" c) as [|Hne]; [discriminate|].
  intros H. rewrite read_text_cons by congruence. now rewrite IH.
Qed.

Lemma escape_char_no_cr (c : ascii) : Py.has_char "013" (Json.escape_char c) = false.
Proof. each_char c; reflexivity. Qed.

Lemma escape_no_cr (s : string) : Py.has_char "013" (Json.escape s) = false.
Proof.
  induction s as [|c s IH]; [reflexivity|].
  cbn [Json.escape]. now rewrite has_char_append, escape_char_no_cr, IH.
Qed.

Lemma dumps_no_cr (l : list string) : Py.has_char "013" (Json.dumps l) = false.
Proof.
  unfold Json.dumps. rewrite !has_char_append.
  assert (H : Py.has_char "013" (Py.join ", " (map Json.encode_basestring_ascii l)) = false).
  { induction l as [|x l IH]; [reflexivity|].
    assert (Hx : Py.has_char "013" (Json.encode_basestring_ascii x) = false).
    { unfold Json.encode_basestring_ascii. cbn [Py.has_char].
      destruct (ascii_dec _ _); [discriminate|].
      now rewrite has_char_append, escape_no_cr. }
    destruct l as [|y l]; [exact Hx|].
    change (Py.join ", " (map Json.encode_basestring_ascii (x :: y :: l)))
      with (Json.encode_basestring_ascii x ++ ", "
            ++ Py.join ", " (map Json.encode_basestring_ascii (y :: l))).
    now rewrite !has_char_append, Hx, IH. }
  now rewrite H.
Qed.

Lemma set_of_json_strings (l : list string) :
  set_of_json (Json.Array (map str_value l)) = Ok (list_to_set l).
Proof.
  unfold set_of_json.
  assert (H1 : existsb unhashable (map str_value l) = false)
    by (induction l; [reflexivity | exact IHl]).
  assert (H2 : mapM as_str (map str_value l) = Some l).
  { clear H1. induction l as [|x l IH]; [reflexivity|].
    cbn [map mapM as_str str_value].
    rewrite narrow_ord. cbn [mbind option_bind]. rewrite IH. reflexivity. }
  now rewrite H1, H2.
Qed.

(** Every seed orders the elements: the result is a permutation. *)
Lemma permute_perm {A : Type} (n : nat) : forall (seed : list nat) (l : list A),
  length l = n -> permute n seed l ≡ₚ l.
Proof.
  induction n as [|n IH]; intros seed l Hl.
  - destruct l; [reflexivity | discriminate].
  - cbn [permute].
    assert (Hk : (List.hd O seed mod length l < length l)%nat)
      by (apply Nat.mod_upper_bound; lia).
    destruct (lookup_lt_is_Some_2 l _ Hk) as [x Hx]. rewrite Hx.
    etransitivity; [|symmetry; apply (delete_Permutation l _ x Hx)].
    constructor. apply IH. rewrite length_delete by eauto. lia.
Qed.

Lemma list_of_set_perm (seed : list nat) (s : gset string) :
  list_of_set seed s ≡ₚ elements s.
Proof. apply permute_perm. reflexivity. Qed.

(** What [save_ebay_seen] writes, [load_ebay_seen] reads back as the same
    set, whatever the order of the list was. *)
Lemma load_after_save (seed : list nat) (seen : gset string) (w w' : World) :
  SEEN_EBAY w' = SEEN_EBAY (snd (save_ebay_seen seed seen w)) ->
  load_ebay_seen w' = (Ok seen, w').
Proof.
  intros Hf. unfold load_ebay_seen. rewrite Hf. cbn [save_ebay_seen snd set_SEEN_EBAY SEEN_EBAY].
  rewrite read_text_no_cr by apply dumps_no_cr.
  rewrite loads_dumps. cbn [mbind result_bind bind_result].
  rewrite set_of_json_strings. do 2 f_equal.
  rewrite (list_to_set_perm_L _ _ (list_of_set_perm seed seen)).
  apply list_to_set_elements_L.
Qed.

(** ** The eBay pipeline *)

Lemma set_ebay_matches_nil (w : World) :
  set_ebay_matches (ebay_matches w ++ [])%list w = w.
Proof. destruct w. unfold set_ebay_matches. cbn. now rewrite app_nil_r. Qed.

Lemma set_ebay_matches_app (w : World) (n1 n2 : list (string * string)) :
  set_ebay_matches
    (ebay_matches (set_ebay_matches (ebay_matches w ++ n1)%list w) ++ n2)%list
    (set_ebay_matches (ebay_matches w ++ n1)%list w)
  = set_ebay_matches (ebay_matches w ++ (n1 ++ n2))%list w.
Proof. unfold set_ebay_matches. cbn. now rewrite app_assoc. Qed.

(** The body of the loop, case by case. *)
Lemma ebay_item_spec (cfg : Config) (seen : gset string) (item : EbayItem)
    (ns : gset string) (w : World) :
  ebay_item cfg seen item ns w =
  match item_link item with
  | Raise e => (Raise e, w)
  | Ok None => (Ok ns, w)
  | Ok (Some link) =>
      if bool_decide (link ∈ seen) then (Ok ns, w)
      else (Ok ({[link]} ∪ ns),
            if is_match cfg (item_title item) (Some "ebay")
               && is_nearby cfg (item_location item)
            then set_ebay_matches
                   (ebay_matches w ++ [(Py.drop 11 (item_title item), link)])%list w
            else w)
  end.
Proof.
  unfold ebay_item, item_link, item_title, item_location.
  destruct (link_tag item) as [lt|]; [|reflexivity].
  destruct (title_tag item) as [tt|]; [|reflexivity].
  unfold bind, lift, mbind, result_bind.
  destruct (getitem lt "href") as [href|e]; [|reflexivity]. cbn [bind_result].
  destruct (normalize_ebay_url href) as [link|e]; [|reflexivity]. cbn [bind_result].
  destruct (bool_decide (link ∈ seen)); [reflexivity|].
  destruct (is_match _ _ _ && is_nearby _ _); reflexivity.
Qed.

Lemma ebay_loop_app (cfg : Config) (seen : gset string) (l1 l2 : list EbayItem) :
  forall (ns : gset string) (w : World),
  ebay_loop cfg seen (l1 ++ l2)%list ns w =
  match ebay_loop cfg seen l1 ns w with
  | (Ok ns', w') => ebay_loop cfg seen l2 ns' w'
  | (Raise e, w') => (Raise e, w')
  end.
Proof.
  induction l1 as [|item l1 IH]; intros ns w; [reflexivity|].
  cbn [app ebay_loop]. unfold bind.
  destruct (ebay_item cfg seen item ns w) as [[ns'|e] w']; [apply IH | reflexivity].
Qed.

Lemma union_sub_r (l : string) (ns ns' : gset string) :
  {[l]} ∪ ns ⊆ ns' -> ns ⊆ ns'.
Proof. set_solver. Qed.

Lemma union_sub_l (l : string) (ns ns' : gset string) :
  {[l]} ∪ ns ⊆ ns' -> l ∈ ns'.
Proof. set_solver. Qed.

(** What a run of the loop does to the state and to the set: it only
    appends matches, none with an identity of the loaded set; and when it
    returns, the set holds what it held, the identity of every match, and
    the identity of every item that has one. *)
Lemma ebay_loop_inv (cfg : Config) (seen : gset string) (items : list EbayItem) :
  forall (ns : gset string) (w : World) (r : result (gset string)) (w' : World),
  ebay_loop cfg seen items ns w = (r, w') ->
  exists new,
    w' = set_ebay_matches (ebay_matches w ++ new)%list w
    /\ Forall (fun p => p.2 ∉ seen) new
    /\ forall ns', r = Ok ns' ->
         ns ⊆ ns'
         /\ Forall (fun p => p.2 ∈ ns') new
         /\ forall item, In item items ->
              exists ol, item_link item = Ok ol
                /\ forall link, ol = Some link -> link ∈ seen \/ link ∈ ns'.
Proof.
  induction items as [|item items IH]; intros ns w r w' Hrun.
  - cbn in Hrun. injection Hrun as <- <-. exists [].
    rewrite set_ebay_matches_nil. split; [reflexivity|]. split; [constructor|].
    intros ns' [= <-]. split; [reflexivity|]. split; [constructor|].
    intros item [].
  - cbn [ebay_loop] in Hrun. unfold bind in Hrun. rewrite ebay_item_spec in Hrun.
    destruct (item_link item) as [[link|]|e] eqn:El.
    + destruct (bool_decide (link ∈ seen)) eqn:Es.
      * apply bool_decide_eq_true in Es.
        destruct (IH _ _ _ _ Hrun) as [new [Hw [Hn Hok]]].
        exists new. split; [exact Hw|]. split; [exact Hn|].
        intros ns' Hr. destruct (Hok ns' Hr) as [Hsub [Hin Hall]].
        split; [exact Hsub|]. split; [exact Hin|].
        intros it [<-|Hit]; [|now apply Hall].
        exists (Some link). split; [exact El|]. intros l [= <-]. now left.
      * apply bool_decide_eq_false in Es.
        destruct (is_match _ _ _ && is_nearby _ _).
        -- destruct (IH _ _ _ _ Hrun) as [new [Hw [Hn Hok]]].
           exists ((Py.drop 11 (item_title item), link) :: new).
           split; [rewrite Hw; apply set_ebay_matches_app|].
           split; [constructor; [exact Es | exact Hn]|].
           intros ns' Hr. destruct (Hok ns' Hr) as [Hsub [Hin Hall]].
           split; [eapply union_sub_r, Hsub|].
           split; [constructor; [eapply union_sub_l, Hsub | exact Hin]|].
           intros it [<-|Hit]; [|now apply Hall].
           exists (Some link). split; [exact El|]. intros l [= <-]. right.
           eapply union_sub_l, Hsub.
        -- destruct (IH _ _ _ _ Hrun) as [new [Hw [Hn Hok]]].
           exists new. split; [exact Hw|]. split; [exact Hn|].
           intros ns' Hr. destruct (Hok ns' Hr) as [Hsub [Hin Hall]].
           split; [eapply union_sub_r, Hsub|]. split; [exact Hin|].
           intros it [<-|Hit]; [|now apply Hall].
           exists (Some link). split; [exact El|]. intros l [= <-]. right.
           eapply union_sub_l, Hsub.
    + destruct (IH _ _ _ _ Hrun) as [new [Hw [Hn Hok]]].
      exists new. split; [exact Hw|]. split; [exact Hn|].
      intros ns' Hr. destruct (Hok ns' Hr) as [Hsub [Hin Hall]].
      split; [exact Hsub|]. split; [exact Hin|].
      intros it [<-|Hit]; [|now apply Hall].
      exists None. split; [exact El|]. intros l [=].
    + injection Hrun as <- <-. exists [].
      rewrite set_ebay_matches_nil. split; [reflexivity|]. split; [constructor|].
      intros ns' [=].
Qed.

(** When every item is incomplete or has an identity of the loaded set,
    the loop changes nothing. *)
Lemma ebay_loop_silent (cfg : Config) (seen : gset string) (items : list EbayItem) :
  (forall item, In item items ->
     exists ol, item_link item = Ok ol /\ forall link, ol = Some link -> link ∈ seen) ->
  forall (ns : gset string) (w : World), ebay_loop cfg seen items ns w = (Ok ns, w).
Proof.
  induction items as [|item items IH]; intros Hall ns w; [reflexivity|].
  cbn [ebay_loop]. unfold bind. rewrite ebay_item_spec.
  destruct (Hall item (or_introl eq_refl)) as [ol [El Hin]]. rewrite El.
  destruct ol as [link|].
  - rewrite bool_decide_eq_true_2 by now apply Hin.
    apply IH. intros it Hit. apply Hall. now right.
  - apply IH. intros it Hit. apply Hall. now right.
Qed.

Lemma load_ebay_seen_world (w : World) : snd (load_ebay_seen w) = w.
Proof. unfold load_ebay_seen. destruct (SEEN_EBAY w); reflexivity. Qed.


(** A run of [process_ebay] that returns has loaded a set and saved a set:
    the saved set holds the loaded one, the identity of every match of the
    run and the identity of every item that has one, and it is what every
    later load reads. *)
Lemma process_ebay_completed (cfg : Config) (env : Env) (w w' : World) :
  process_ebay cfg env w = (Ok tt, w') ->
  exists items seen new_seen new,
    ebay_response env = Ok items
    /\ load_ebay_seen w = (Ok seen, w)
    /\ (forall w'', SEEN_EBAY w'' = SEEN_EBAY w' -> load_ebay_seen w'' = (Ok new_seen, w''))
    /\ seen ⊆ new_seen
    /\ ebay_matches w' = (ebay_matches w ++ new)%list
    /\ Forall (fun p => p.2 ∈ new_seen) new
    /\ forall item, In item items ->
         exists ol, item_link item = Ok ol /\ forall link, ol = Some link -> link ∈ new_seen.
Proof.
  unfold process_ebay, fetch_ebay_results, bind, lift. intros Hrun.
  destruct (ebay_response env) as [items|e]; [|discriminate].
  pose proof (load_ebay_seen_world w) as Hlw.
  destruct (load_ebay_seen w) as [[seen|e] w0] eqn:Hload; cbn in Hlw; subst w0;
    [|discriminate].
  destruct (ebay_loop cfg seen items seen w) as [[ns|e] w1] eqn:El; [|discriminate].
  destruct (ebay_loop_inv _ _ _ _ _ _ _ El) as [new [Hw [Hn Hok]]].
  destruct (Hok ns eq_refl) as [Hsub [Hin Hall]].
  injection Hrun as <-.
  exists items, seen, ns, new. split; [reflexivity|]. split; [reflexivity|].
  split; [intros w'' Hf; now apply (load_after_save (hash_seed env) ns w1)|].
  split; [exact Hsub|]. split; [subst w1; reflexivity|]. split; [exact Hin|].
  intros item Hit. destruct (Hall item Hit) as [ol [El' Hl]].
  exists ol. split; [exact El'|]. intros link Hlink.
  destruct (Hl link Hlink) as [H|H]; [now apply Hsub | exact H].
Qed.

(** After a run that returned, a run on the same page, from a state with
    the seen-file that the first run left, emits no match. *)
Lemma process_ebay_rerun (cfg cfg' : Config) (env env' : Env) (w w1 w1' : World) :
  process_ebay cfg env w = (Ok tt, w1) ->
  ebay_response env' = ebay_response env ->
  SEEN_EBAY w1' = SEEN_EBAY w1 ->
  exists w2, process_ebay cfg' env' w1' = (Ok tt, w2)
    /\ ebay_matches w2 = ebay_matches w1'
    /\ gumtree_matches w2 = gumtree_matches w1'.
Proof.
  intros Hrun Hresp Hfile.
  destruct (process_ebay_completed _ _ _ _ Hrun)
    as [items [seen [ns [new [Hitems [Hload [Hreload [Hsub [_ [_ Hall]]]]]]]]]].
  unfold process_ebay, fetch_ebay_results, bind, lift.
  rewrite Hresp, Hitems, (Hreload w1' Hfile).
  rewrite (ebay_loop_silent cfg' ns items Hall).
  eexists. split; [reflexivity|]. split; reflexivity.
Qed.

(** ** The Gumtree pipeline *)

Lemma set_gumtree_matches_nil (w : World) :
  set_gumtree_matches (gumtree_matches w ++ [])%list w = w.
Proof. destruct w. unfold set_gumtree_matches. cbn. now rewrite app_nil_r. Qed.




(** ** The claims on the pipelines and on [main] *)

(** C1, as the code has it.  A failure of a request is not isolated: it
    propagates out of [main].  A failure of the eBay request ends the run
    before the Gumtree pipeline and before anything is printed; a failure
    of the Gumtree request ends the run in the state in which the eBay
    pipeline left it, again before anything is printed. *)
Theorem C1_fetch_failure_propagates (cfg : Config) (env : Env) (w : World) (e : exn) :
  (ENABLE_EBAY cfg = true -> ebay_response env = Raise e ->
     main cfg env w = (Raise e, after_clear cfg w))
  /\ (ENABLE_GUMTREE cfg = true -> gumtree_response env = Raise e ->
      forall w1,
        (if ENABLE_EBAY cfg then process_ebay cfg env else ret tt) (after_clear cfg w)
          = (Ok tt, w1) ->
        main cfg env w = (Raise e, w1)).
Proof.
  split.
  - intros He Hr. unfold main, bind, after_clear. rewrite He.
    unfold process_ebay, fetch_ebay_results, bind, lift. rewrite Hr.
    destruct (CLEAR_CACHE_ON_START cfg); reflexivity.
  - intros Hg Hr w1 H1. unfold main, bind, after_clear in *. rewrite Hg.
    destruct (CLEAR_CACHE_ON_START cfg); cbn [clear_cache ret snd] in *;
      rewrite H1; unfold process_gumtree, fetch_gumtree_results, bind, lift;
      rewrite Hr; reflexivity.
Qed.

Lemma C1_fetch_failure_propagates_witness :
  main source_config (env_of (Raise HTTPError) (Ok [bike_anchor])) fresh_world
    = (Raise HTTPError, fresh_world)
  /\ main source_config (env_of (Ok [trek_listing]) (Raise ConnectionError)) fresh_world
     = (Raise ConnectionError,
        snd (process_ebay source_config (env_of (Ok [trek_listing]) (Raise ConnectionError))
               fresh_world)).
Proof.
  split.
  - apply (proj1 (C1_fetch_failure_propagates source_config
                    (env_of (Raise HTTPError) (Ok [bike_anchor])) fresh_world HTTPError));
      reflexivity.
  - apply (proj2 (C1_fetch_failure_propagates source_config
                    (env_of (Ok [trek_listing]) (Raise ConnectionError)) fresh_world
                    ConnectionError)); [reflexivity | reflexivity |].
    vm_compute. reflexivity.
Defined.

(** C1 as stated fails: with the eBay request failing, [main] raises and
    the Gumtree pipeline, which would have found a match, has not run. *)
Lemma C1_counterexample :
  main source_config (env_of (Raise HTTPError) (Ok [bike_anchor])) fresh_world
    = (Raise HTTPError, fresh_world)
  /\ gumtree_matches
       (snd (process_gumtree source_config (env_of (Raise HTTPError) (Ok [bike_anchor]))
               fresh_world))
     = [("Road bike", "https://www.gumtree.com/p/bikes/1")].
Proof. split; vm_compute; reflexivity. Qed.




(** C3 at a failing input.  A Gumtree listing whose link ends with a space
    is written to the file with the space and read back without it: the
    second run on the same page, from the state that the first run left,
    emits the listing again. *)
Theorem C3_gumtree_rerun_emits_again :
  let env := env_of (Ok []) (Ok [spaced_anchor]) in
  let w1 := snd (process_gumtree source_config env fresh_world) in
  let w2 := snd (process_gumtree source_config env w1) in
  gumtree_matches w1 = [("Road bike", "https://www.gumtree.com/p/bikes/1 ")]
  /\ gumtree_matches w2
     = [("Road bike", "https://www.gumtree.com/p/bikes/1 ");
        ("Road bike", "https://www.gumtree.com/p/bikes/1 ")]
  /\ fst (process_gumtree source_config env w1) = Ok tt.
Proof. repeat split; vm_compute; reflexivity. Qed.







(** C10.  For an eBay item with a new identity the decision is taken on the
    whole title, as [strip] leaves it; the first 11 characters are cut from
    the title that is emitted, after the decision and whatever they are: a
    title of 11 characters or fewer is emitted as the empty string. *)
Theorem C10_trim_after_match (cfg : Config) (seen new_seen : gset string)
    (item : EbayItem) (w : World) (lt tt : Tag) (href link : string) :
  link_tag item = Some lt ->
  title_tag item = Some tt ->
  attrs lt !! "href" = Some href ->
  normalize_ebay_url href = Ok link ->
  link ∉ seen ->
  ebay_item cfg seen item new_seen w
  = (Ok ({[link]} ∪ new_seen),
     if is_match cfg (Py.strip (text tt)) (Some "ebay")
        && is_nearby cfg (item_location item)
     then set_ebay_matches
            (ebay_matches w ++ [(Py.drop 11 (Py.strip (text tt)), link)])%list w
     else w)
  /\ ((String.length (Py.strip (text tt)) <= 11)%nat ->
      Py.drop 11 (Py.strip (text tt)) = "").
Proof.
  intros Hl Ht Hh Hn Hs. split.
  - rewrite ebay_item_spec. unfold item_link, item_title, getitem.
    rewrite Hl, Ht, Hh. unfold mbind, result_bind. cbn [bind_result]. rewrite Hn.
    cbn [bind_result]. rewrite bool_decide_eq_false_2 by exact Hs. reflexivity.
  - generalize (Py.strip (text tt)). intros s.
    assert (H : forall n s, (String.length s <= n)%nat -> Py.drop n s = "").
    { clear. induction n as [|n IH]; intros [|c s] Hlen; simpl in *;
        try reflexivity; try lia. apply IH. lia. }
    apply H.
Qed.

Lemma C10_trim_after_match_witness :
  ebay_item source_config ∅ short_listing ∅ fresh_world
  = (Ok ({["https://www.ebay.co.uk/itm/2"]} ∪ ∅),
     set_ebay_matches [("", "https://www.ebay.co.uk/itm/2")] fresh_world)
  /\ ebay_matches (snd (ebay_item source_config ∅ trek_listing ∅ fresh_world))
     = [("Trek Marlin 5", "https://www.ebay.co.uk/itm/1")].
Proof.
  split.
  - refine (proj1 (C10_trim_after_match source_config ∅ ∅ short_listing fresh_world
                     (link_tag_to "https://www.ebay.co.uk/itm/2") (text_tag "Trek")
                     "https://www.ebay.co.uk/itm/2" "https://www.ebay.co.uk/itm/2"
                     eq_refl eq_refl eq_refl eq_refl _)).
    apply not_elem_of_empty.
  - rewrite (proj1 (C10_trim_after_match source_config ∅ ∅ trek_listing fresh_world
                      (link_tag_to "https://www.ebay.co.uk/itm/1?hash=abc")
                      (text_tag "New ListingTrek Marlin 5")
                      "https://www.ebay.co.uk/itm/1?hash=abc" "https://www.ebay.co.uk/itm/1"
                      eq_refl eq_refl eq_refl eq_refl (not_elem_of_empty _))).
    vm_compute. reflexivity.
Defined.

(** ** Normalization of eBay links *)


Lemma append_empty_r (s : string) : s ++ "" = s.
Proof. induction s as [|c s IH]; simpl; [reflexivity | now rewrite IH]. Qed.





Lemma has_char_drop (x : ascii) (n : nat) (s : string) :
  Py.has_char x s = false -> Py.has_char x (Py.drop n s) = false.
Proof.
  revert s. induction n as [|n IH]; intros [|c s]; simpl; try (intros; assumption || reflexivity).
  destruct (ascii_dec x c); [discriminate | apply IH].
Qed.



Lemma find_char_neg (c : ascii) (s : string) :
  Py.find_char c s < 0 -> Py.has_char c s = false.
Proof.
  induction s as [|d s IH]; simpl; [reflexivity|].
  destruct (ascii_dec c d); [lia|].
  destruct (Py.find_char c s <? 0) eqn:E; [intros _; apply IH; lia | lia].
Qed.














Lemma split_query_fragment_path (sch nl url : string) :
  Url.sr_scheme (Url.split_query_fragment sch nl url) = sch
  /\ Url.sr_netloc (Url.split_query_fragment sch nl url) = nl
  /\ Url.sr_path (Url.split_query_fragment sch nl url)
     = let u := if Py.has_char "#" url then fst (Py.split_once "#" url) else url in
       if Py.has_char "?" u then fst (Py.split_once "?" u) else u.
Proof.
  unfold Url.split_query_fragment.
  destruct (Py.has_char "#" url); [destruct (Py.split_once "#" url) as [u f]|];
    cbn [fst].
  - destruct (Py.has_char "?" u); [destruct (Py.split_once "?" u)|]; repeat split.
  - destruct (Py.has_char "?" url); [destruct (Py.split_once "?" url)|]; repeat split.
Qed.







(** ** The loops of the model end by their conditions *)

(** Every order of the elements comes from some seed. *)
Lemma permute_any_order {A : Type} (l' : list A) : forall l : list A,
  l ≡ₚ l' -> exists seed, permute (length l) seed l = l'.
Proof.
  induction l' as [|x l' IH]; intros l Hp.
  - apply Permutation_nil_r in Hp. subst l. exists []. reflexivity.
  - assert (Hx : x ∈ l) by (rewrite Hp; left).
    apply list_elem_of_lookup in Hx. destruct Hx as [k Hk].
    assert (Hlen : (k < length l)%nat) by (eapply lookup_lt_Some; eauto).
    assert (Hd : delete k l ≡ₚ l').
    { apply (Permutation_cons_inv (a := x)).
      rewrite <- (delete_Permutation l k x Hk). exact Hp. }
    destruct (IH _ Hd) as [seed Hseed].
    exists (k :: seed). destruct (length l) as [|n] eqn:En; [lia|].
    cbn [permute List.hd List.tl]. rewrite En.
    rewrite Nat.mod_small by lia. rewrite Hk. f_equal.
    rewrite length_delete in Hseed by eauto. rewrite En in Hseed.
    replace (S n - 1)%nat with n in Hseed by lia. exact Hseed.
Qed.

(** The scan of [find_longest_match] keeps the best block inside the rows
    of [a] that it has read. *)
Lemma scan_js_bounds (i alo blo bhi : Z) (j2len : gmap Z Z) (js : list Z) :
  alo <= i ->
  (forall j v, j2len !! j = Some v -> 1 <= v <= i - alo) ->
  forall (newj2len : gmap Z Z) (bst : Difflib.best),
  (forall j v, newj2len !! j = Some v -> 1 <= v <= i - alo + 1) ->
  alo <= Difflib.besti bst -> 0 <= Difflib.bestsize bst ->
  Difflib.besti bst + Difflib.bestsize bst <= i + 1 ->
  let r := Difflib.scan_js i blo bhi j2len js newj2len bst in
  (forall j v, fst r !! j = Some v -> 1 <= v <= i - alo + 1)
  /\ alo <= Difflib.besti (snd r) /\ 0 <= Difflib.bestsize (snd r)
  /\ Difflib.besti (snd r) + Difflib.bestsize (snd r) <= i + 1.
Proof.
  intros Hi Hold. induction js as [|j js IH]; intros new bst Hnew Hb1 Hb2 Hb3; cbn [Difflib.scan_js].
  - cbn [fst snd]. auto.
  - destruct (j <? blo); [now apply IH|].
    destruct (bhi <=? j); [cbn [fst snd]; auto|].
    assert (Hk : 1 <= default 0 (j2len !! (j - 1)) + 1 <= i - alo + 1).
    { destruct (j2len !! (j - 1)) as [v|] eqn:E; simpl.
      - specialize (Hold _ _ E). lia.
      - lia. }
    apply IH.
    + intros j' v. rewrite lookup_insert. case_decide; [intros [= <-]; exact Hk | apply Hnew].
    + destruct (Difflib.bestsize bst <? _); cbn [Difflib.besti]; lia.
    + destruct (Difflib.bestsize bst <? _); cbn [Difflib.bestsize]; lia.
    + destruct (Difflib.bestsize bst <? _); cbn [Difflib.besti Difflib.bestsize]; lia.
Qed.

Lemma scan_is_bounds (a b : list ascii) (alo blo bhi : Z) (n : nat) :
  forall (i : Z) (j2len : gmap Z Z) (bst : Difflib.best),
  alo <= i ->
  (forall j v, j2len !! j = Some v -> 1 <= v <= i - alo) ->
  alo <= Difflib.besti bst -> 0 <= Difflib.bestsize bst ->
  Difflib.besti bst + Difflib.bestsize bst <= i ->
  let r := Difflib.scan_is a b blo bhi (seqZ i (Z.of_nat n)) j2len bst in
  alo <= Difflib.besti r /\ 0 <= Difflib.bestsize r
  /\ Difflib.besti r + Difflib.bestsize r <= i + Z.of_nat n.
Proof.
  induction n as [|n IH]; intros i j2len bst Hi Hold Hb1 Hb2 Hb3.
  - rewrite seqZ_nil by lia. cbn [Difflib.scan_is]. lia.
  - rewrite seqZ_cons by lia. cbn [Difflib.scan_is].
    pose proof (scan_js_bounds i alo blo bhi j2len (Difflib.b2j b (Difflib.at_ a i))
                  Hi Hold ∅ bst) as Hjs.
    destruct (Difflib.scan_js i blo bhi j2len _ ∅ bst) as [new bst'].
    cbn [fst snd] in Hjs.
    destruct Hjs as [Hnew [H1 [H2 H3]]]; try lia.
    { intros j v. rewrite lookup_empty. discriminate. }
    replace (Z.pred (Z.of_nat (S n))) with (Z.of_nat n) by lia.
    specialize (IH (Z.succ i) new bst').
    cbv zeta in IH.
    replace (i + Z.of_nat (S n)) with (Z.succ i + Z.of_nat n) by lia.
    apply IH; try lia.
    intros j v Hv. specialize (Hnew _ _ Hv). lia.
Qed.

Lemma extend_left_spec (a b : list ascii) (alo ahi blo : Z) (junk : bool) (fuel : nat) :
  forall bst : Difflib.best,
  alo <= Difflib.besti bst -> 0 <= Difflib.bestsize bst ->
  Difflib.besti bst + Difflib.bestsize bst <= ahi ->
  Difflib.besti bst - alo <= Z.of_nat fuel ->
  let r := Difflib.extend_left fuel a b alo blo junk bst in
  alo <= Difflib.besti r /\ 0 <= Difflib.bestsize r
  /\ Difflib.besti r + Difflib.bestsize r <= ahi
  /\ left_condition a b alo blo junk r = false.
Proof.
  induction fuel as [|fuel IH]; intros bst H1 H2 H3 Hf; cbv zeta.
  - cbn [Difflib.extend_left]. repeat (split; [assumption|]).
    unfold left_condition.
    replace (alo <? Difflib.besti bst) with false by (symmetry; apply Z.ltb_ge; lia).
    reflexivity.
  - cbn [Difflib.extend_left]. fold (left_condition a b alo blo junk bst).
    destruct (left_condition a b alo blo junk bst) eqn:Ec; [|auto].
    assert (Hlt : alo < Difflib.besti bst).
    { unfold left_condition in Ec. rewrite !andb_true_iff in Ec.
      destruct Ec as [[[Ec _] _] _]. now apply Z.ltb_lt in Ec. }
    apply IH; cbn [Difflib.besti Difflib.bestsize]; lia.
Qed.

Lemma extend_right_spec (a b : list ascii) (alo ahi bhi : Z) (junk : bool) (fuel : nat) :
  forall bst : Difflib.best,
  alo <= Difflib.besti bst -> 0 <= Difflib.bestsize bst ->
  Difflib.besti bst + Difflib.bestsize bst <= ahi ->
  ahi - (Difflib.besti bst + Difflib.bestsize bst) <= Z.of_nat fuel ->
  let r := Difflib.extend_right fuel a b ahi bhi junk bst in
  alo <= Difflib.besti r /\ 0 <= Difflib.bestsize r
  /\ Difflib.besti r + Difflib.bestsize r <= ahi
  /\ right_condition a b ahi bhi junk r = false.
Proof.
  induction fuel as [|fuel IH]; intros bst H1 H2 H3 Hf; cbv zeta.
  - cbn [Difflib.extend_right]. repeat (split; [assumption|]).
    unfold right_condition.
    replace (Difflib.besti bst + Difflib.bestsize bst <? ahi) with false
      by (symmetry; apply Z.ltb_ge; lia).
    reflexivity.
  - cbn [Difflib.extend_right]. fold (right_condition a b ahi bhi junk bst).
    destruct (right_condition a b ahi bhi junk bst) eqn:Ec; [|auto].
    assert (Hlt : Difflib.besti bst + Difflib.bestsize bst < ahi).
    { unfold right_condition in Ec. rewrite !andb_true_iff in Ec.
      destruct Ec as [[[Ec _] _] _]. now apply Z.ltb_lt in Ec. }
    apply IH; cbn [Difflib.besti Difflib.bestsize]; lia.
Qed.

(** [find_longest_match] returns a block inside [a[alo:ahi]]; each of its
    four loops of extension ends because its condition fails. *)
Lemma find_longest_match_bounds (a b : list ascii) (alo ahi blo bhi : Z) :
  alo <= ahi ->
  let x := Difflib.find_longest_match a b alo ahi blo bhi in
  alo <= Difflib.besti x /\ 0 <= Difflib.bestsize x
  /\ Difflib.besti x + Difflib.bestsize x <= ahi
  /\ right_condition a b ahi bhi true x = false.
Proof.
  intros Hle. unfold Difflib.find_longest_match.
  set (fuel := Z.to_nat (ahi - alo)).
  assert (Hs : let r := Difflib.scan_is a b blo bhi (seqZ alo (ahi - alo)) ∅
                          (Difflib.Best alo blo 0) in
               alo <= Difflib.besti r /\ 0 <= Difflib.bestsize r
               /\ Difflib.besti r + Difflib.bestsize r <= ahi).
  { pose proof (scan_is_bounds a b alo blo bhi fuel alo ∅ (Difflib.Best alo blo 0)) as H.
    cbv zeta in H. subst fuel. rewrite Z2Nat.id in H by lia.
    replace (alo + (ahi - alo)) with ahi in H by lia.
    apply H; cbn [Difflib.besti Difflib.bestsize]; try lia.
    intros j v. rewrite lookup_empty. discriminate. }
  cbv zeta in Hs. destruct Hs as [H1 [H2 H3]].
  set (s0 := Difflib.scan_is a b blo bhi (seqZ alo (ahi - alo)) ∅ (Difflib.Best alo blo 0))
    in *.
  destruct (extend_left_spec a b alo ahi blo false fuel s0) as [A1 [A2 [A3 _]]];
    try assumption; [subst fuel; lia|].
  set (s1 := Difflib.extend_left fuel a b alo blo false s0) in *.
  destruct (extend_right_spec a b alo ahi bhi false fuel s1) as [B1 [B2 [B3 _]]];
    try assumption; [subst fuel; lia|].
  set (s2 := Difflib.extend_right fuel a b ahi bhi false s1) in *.
  destruct (extend_left_spec a b alo ahi blo true fuel s2) as [C1 [C2 [C3 _]]];
    try assumption; [subst fuel; lia|].
  set (s3 := Difflib.extend_left fuel a b alo blo true s2) in *.
  apply (extend_right_spec a b alo ahi bhi true fuel s3); try assumption.
  subst fuel; lia.
Qed.

Lemma queue_work_nonneg (queue : list (Z * Z * Z * Z)) :
  queue_ok queue -> 0 <= queue_work queue.
Proof.
  induction 1 as [|[[[alo ahi] blo] bhi] q Hle _ IH]; cbn [queue_work]; [lia|].
  cbn in Hle. lia.
Qed.

(** The loop of [get_matching_blocks] ends because the queue is empty:
    with enough turns for the work in the queue, more turns change
    nothing. *)
Lemma blocks_loop_enough (a b : list ascii) (fuel1 : nat) :
  forall (fuel2 : nat) (queue : list (Z * Z * Z * Z)) (blocks : list (Z * Z * Z)),
  queue_ok queue ->
  queue_work queue <= Z.of_nat fuel1 -> queue_work queue <= Z.of_nat fuel2 ->
  Difflib.blocks_loop fuel1 a b queue blocks = Difflib.blocks_loop fuel2 a b queue blocks.
Proof.
  induction fuel1 as [|fuel1 IH]; intros fuel2 queue blocks Hok H1 H2.
  - destruct queue as [|[[[alo ahi] blo] bhi] queue]; [destruct fuel2; reflexivity|].
    apply Forall_cons in Hok. destruct Hok as [Hle Hq]. cbn in Hle.
    pose proof (queue_work_nonneg queue Hq). cbn [queue_work] in H1. lia.
  - destruct queue as [|[[[alo ahi] blo] bhi] queue]; [destruct fuel2; reflexivity|].
    apply Forall_cons in Hok. destruct Hok as [Hle Hq]. cbn in Hle.
    pose proof (queue_work_nonneg queue Hq) as Hnn. cbn [queue_work] in H1, H2.
    destruct fuel2 as [|fuel2]; [lia|].
    cbn [Difflib.blocks_loop].
    destruct (find_longest_match_bounds a b alo ahi blo bhi Hle) as [B1 [B2 [B3 _]]].
    set (x := Difflib.find_longest_match a b alo ahi blo bhi) in *.
    destruct (Difflib.bestsize x =? 0) eqn:Ek.
    + apply IH; [exact Hq | lia | lia].
    + apply Z.eqb_neq in Ek.
      destruct ((alo <? Difflib.besti x) && (blo <? Difflib.bestj x)) eqn:E1;
        destruct ((Difflib.besti x + Difflib.bestsize x <? ahi)
                  && (Difflib.bestj x + Difflib.bestsize x <? bhi)) eqn:E2;
        apply IH; cbn [queue_work];
        repeat (constructor; [cbn; lia|]); try exact Hq; lia.
Qed.

(** The turns that [get_matching_blocks] allows are enough. *)
Lemma get_matching_blocks_turns (a b : list ascii) (more : nat) :
  Difflib.blocks_loop (2 * length a + 1 + more) a b
    [(0, Difflib.llen a, 0, Difflib.llen b)] []
  = Difflib.blocks_loop (2 * length a + 1) a b
      [(0, Difflib.llen a, 0, Difflib.llen b)] [].
Proof.
  apply blocks_loop_enough.
  - constructor; [cbn; unfold Difflib.llen; lia | constructor].
  - cbn [queue_work]. unfold Difflib.llen. lia.
  - cbn [queue_work]. unfold Difflib.llen. lia.
Qed.

Lemma lstrip_by_length (p : ascii -> bool) (s : string) :
  (String.length (Py.lstrip_by p s) <= String.length s)%nat.
Proof.
  induction s as [|c s IH]; simpl; [lia|]. destruct (p c); simpl; lia.
Qed.

Lemma drop_length (n : nat) (s : string) :
  (String.length (Py.drop n s) <= String.length s)%nat.
Proof.
  revert s. induction n as [|n IH]; intros [|c s]; simpl; try lia.
  specialize (IH s). lia.
Qed.

Lemma startswith_drop_length (c : ascii) (p s : string) :
  Py.startswith (String c p) s = true ->
  (String.length (Py.drop (S (String.length p)) s) < String.length s)%nat.
Proof.
  destruct s as [|d s]; simpl; [discriminate|]. intros _.
  pose proof (drop_length (String.length p) s). lia.
Qed.

Lemma span_digits_length (s : string) :
  (String.length (fst (Json.span_digits s)) + String.length (snd (Json.span_digits s))
   = String.length s)%nat.
Proof.
  induction s as [|c s IH]; [reflexivity|]. cbn [Json.span_digits].
  destruct (Py.in_range 48 57 c); [|reflexivity].
  destruct (Json.span_digits s) as [d r]. cbn [fst snd String.length] in *. lia.
Qed.

Lemma scanstring_consumes (n : nat) :
  forall (s : string) (acc r : list Z) (rest : string),
  (String.length s <= n)%nat ->
  Json.scanstring s acc = Ok (r, rest) ->
  (String.length rest < String.length s)%nat.
Proof.
  induction n as [|n IH]; intros s acc r rest Hn Hs.
  - destruct s; [discriminate | simpl in Hn; lia].
  - destruct s as [|c s]; [discriminate|]. cbn [Json.scanstring] in Hs.
    assert (Hrec : forall t acc', (String.length t <= String.length s)%nat ->
              Json.scanstring t acc' = Ok (r, rest) ->
              (String.length rest < String.length (String c s))%nat).
    { intros t acc' Ht Hr. apply IH in Hr; simpl in *; lia. }
    destruct (bool_decide (c = Json.dquote)).
    { injection Hs as <- <-. simpl. lia. }
    destruct (bool_decide (c = Json.backslash)).
    2:{ destruct (Py.ord c <=? 31); [discriminate|]. eapply Hrec; [|exact Hs]. lia. }
    destruct s as [|e s1]; [discriminate|].
    destruct (bool_decide (e = "u"%char)).
    2:{ destruct (Json.unescape e); [|discriminate].
        eapply Hrec; [|exact Hs]. simpl. lia. }
    destruct s1 as [|h1 [|h2 [|h3 [|h4 s2]]]]; try discriminate.
    destruct (Json.hex4 h1 h2 h3 h4) as [uni|]; [|discriminate].
    destruct ((55296 <=? uni) && (uni <=? 56319)).
    2:{ eapply Hrec; [|exact Hs]. simpl. lia. }
    destruct s2 as [|b [|u [|g1 [|g2 [|g3 [|g4 s3]]]]]];
      try (eapply Hrec; [|exact Hs]; simpl; lia).
    destruct (bool_decide (b = Json.backslash) && bool_decide (u = "u"%char)).
    2:{ eapply Hrec; [|exact Hs]. simpl. lia. }
    destruct (Json.hex4 g1 g2 g3 g4) as [uni2|]; [|discriminate].
    destruct ((56320 <=? uni2) && (uni2 <=? 57343));
      (eapply Hrec; [|exact Hs]; simpl; lia).
Qed.

Lemma match_number_consumes (s lexeme rest : string) (is_float : bool) :
  Json.match_number s = Some (lexeme, is_float, rest) ->
  (String.length rest < String.length s)%nat.
Proof.
  unfold Json.match_number.
  set (p := if Py.startswith "-" s then ("-", Py.drop 1 s) else ("", s)).
  assert (Hp : (String.length (snd p) <= String.length s)%nat).
  { subst p. destruct (Py.startswith "-" s); cbn [snd]; [apply drop_length | lia]. }
  destruct p as [sign s1]. cbn [snd] in Hp.
  set (integer := if Py.startswith "0" s1 then Some ("0", Py.drop 1 s1) else _).
  assert (Hi : forall d r, integer = Some (d, r) ->
                 (String.length r < String.length s1)%nat).
  { subst integer. intros d r. destruct (Py.startswith "0" s1) eqn:E0.
    - intros [= <- <-]. apply (startswith_drop_length "0" "" s1 E0).
    - destruct s1 as [|c s1']; [discriminate|].
      destruct (Py.in_range 49 57 c) eqn:Ec; [|discriminate].
      intros Hsp.
      assert (Hsp' : Json.span_digits (String c s1') = (d, r)) by congruence.
      clear Hsp. pose proof (span_digits_length s1') as Hl.
      cbn [Json.span_digits] in Hsp'.
      assert (Hd : Py.in_range 48 57 c = true).
      { unfold Py.in_range in *. apply andb_true_iff in Ec. destruct Ec as [E1 E2].
        rewrite E2, andb_true_r. apply Z.leb_le. apply Z.leb_le in E1. lia. }
      rewrite Hd in Hsp'. destruct (Json.span_digits s1') as [d' r'].
      injection Hsp' as <- <-. cbn [fst snd String.length] in *. lia. }
  destruct integer as [[d r]|]; [|discriminate].
  specialize (Hi d r eq_refl).
  set (f := if Py.startswith "." r then _ else _).
  assert (Hf : (String.length (snd f) <= String.length r)%nat).
  { subst f. destruct (Py.startswith "." r); [|cbn; lia].
    pose proof (span_digits_length (Py.drop 1 r)) as Hl.
    pose proof (drop_length 1 r).
    destruct (Json.span_digits (Py.drop 1 r)) as [[|x d'] r2]; cbn [fst snd] in *; lia. }
  destruct f as [frac r1]. cbn [snd] in Hf.
  set (e := match r1 with EmptyString => _ | String _ _ => _ end).
  assert (He : (String.length (snd e) <= String.length r1)%nat).
  { subst e. destruct r1 as [|c r2]; [cbn; lia|].
    destruct (_ || _); [|cbn; lia].
    set (q := if Py.startswith "+" r2 then _ else _).
    assert (Hq : (String.length (snd q) <= String.length r2)%nat).
    { subst q. destruct (Py.startswith "+" r2); [apply drop_length|].
      destruct (Py.startswith "-" r2); [apply drop_length | cbn; lia]. }
    destruct q as [esign r3]. cbn [snd] in Hq.
    pose proof (span_digits_length r3) as Hl.
    destruct (Json.span_digits r3) as [[|x d'] r4]; cbn [fst snd String.length] in *; lia. }
  destruct e as [ex r5]. cbn [snd] in He.
  intros [= _ _ <-]. lia.
Qed.

Lemma skip_ws_length (s : string) :
  (String.length (Json.skip_ws s) <= String.length s)%nat.
Proof. apply lstrip_by_length. Qed.

Lemma array_loop_consumes (scan : string -> result (Json.value * string)) (n : nat) :
  consuming scan ->
  forall (s : string) (acc : list Json.value) (v : Json.value) (rest : string),
  Json.array_loop n scan s acc = Ok (v, rest) ->
  (String.length rest < String.length s)%nat.
Proof.
  intros Hc. induction n as [|n IH]; intros s acc v rest H; [discriminate|].
  cbn [Json.array_loop] in H. unfold mbind, result_bind in H.
  destruct (scan s) as [[v1 s1]|e] eqn:Es; [|discriminate]. cbn [bind_result] in H.
  apply Hc in Es. pose proof (skip_ws_length s1) as Hw.
  destruct (Json.skip_ws s1) as [|c r]; [discriminate|]. cbn [String.length] in Hw.
  destruct (bool_decide (c = "]"%char)); [injection H as <- <-; lia|].
  destruct (bool_decide (c = ","%char)); [|discriminate].
  apply IH in H. pose proof (skip_ws_length r). lia.
Qed.

Lemma object_loop_consumes (scan : string -> result (Json.value * string)) (n : nat) :
  consuming scan ->
  forall (s : string) (acc : list (list Z * Json.value)) (v : Json.value) (rest : string),
  Json.object_loop n scan s acc = Ok (v, rest) ->
  (String.length rest < String.length s)%nat.
Proof.
  intros Hc. induction n as [|n IH]; intros s acc v rest H; [discriminate|].
  cbn [Json.object_loop] in H. destruct s as [|q s0]; [discriminate|].
  destruct (bool_decide (q = Json.dquote)); [|discriminate].
  unfold mbind, result_bind in H.
  destruct (Json.scanstring s0 []) as [[key s1]|e] eqn:Ek; [|discriminate].
  cbn [bind_result] in H. apply (scanstring_consumes _ _ _ _ _ (le_n _)) in Ek.
  pose proof (skip_ws_length s1) as Hw1.
  destruct (Json.skip_ws s1) as [|c r1]; [discriminate|]. cbn [String.length] in Hw1.
  destruct (bool_decide (c = ":"%char)); [|discriminate].
  destruct (scan (Json.skip_ws r1)) as [[v1 s2]|e] eqn:Es; [|discriminate].
  cbn [bind_result] in H. apply Hc in Es.
  pose proof (skip_ws_length r1) as Hw2. pose proof (skip_ws_length s2) as Hw3.
  destruct (Json.skip_ws s2) as [|d r2]; [discriminate|]. cbn [String.length] in Hw3.
  destruct (bool_decide (d = "}"%char)); [injection H as <- <-; cbn [String.length]; lia|].
  destruct (bool_decide (d = ","%char)); [|discriminate].
  apply IH in H. pose proof (skip_ws_length r2). cbn [String.length]. lia.
Qed.

Lemma scan_once_consumes (depth : nat) : consuming (Json.scan_once depth).
Proof.
  induction depth as [|d IH]; intros s v rest H; [discriminate|].
  cbn [Json.scan_once] in H. destruct s as [|c s0]; [discriminate|].
  destruct (bool_decide (c = Json.dquote)).
  { unfold mbind, result_bind in H.
    destruct (Json.scanstring s0 []) as [[str r]|e] eqn:Ek; [|discriminate].
    cbn [bind_result] in H. injection H as <- <-.
    apply (scanstring_consumes _ _ _ _ _ (le_n _)) in Ek. cbn [String.length]. lia. }
  destruct (bool_decide (c = "{"%char)).
  { unfold Json.parse_object in H. pose proof (skip_ws_length s0) as Hw.
    destruct (Py.startswith "}" (Json.skip_ws s0)) eqn:E.
    - injection H as <- <-.
      destruct (Json.skip_ws s0); cbn [String.length] in *; lia.
    - apply (object_loop_consumes _ _ IH) in H. cbn [String.length]. lia. }
  destruct (bool_decide (c = "["%char)).
  { unfold Json.parse_array in H. pose proof (skip_ws_length s0) as Hw.
    destruct (Py.startswith "]" (Json.skip_ws s0)) eqn:E.
    - injection H as <- <-.
      destruct (Json.skip_ws s0); cbn [String.length] in *; lia.
    - apply (array_loop_consumes _ _ IH) in H. cbn [String.length]. lia. }
  set (t := String c s0) in *.
  destruct (Py.startswith "null" t) eqn:E1;
    [injection H as <- <-; apply (startswith_drop_length "n" "ull" t E1)|].
  destruct (Py.startswith "true" t) eqn:E2;
    [injection H as <- <-; apply (startswith_drop_length "t" "rue" t E2)|].
  destruct (Py.startswith "false" t) eqn:E3;
    [injection H as <- <-; apply (startswith_drop_length "f" "alse" t E3)|].
  destruct (Json.match_number t) as [[[lexeme is_float] r]|] eqn:Em.
  { apply match_number_consumes in Em.
    destruct (negb is_float && _); [discriminate|]. now injection H as <- <-. }
  destruct (Py.startswith "NaN" t) eqn:E4;
    [injection H as <- <-; apply (startswith_drop_length "N" "aN" t E4)|].
  destruct (Py.startswith "Infinity" t) eqn:E5;
    [injection H as <- <-; apply (startswith_drop_length "I" "nfinity" t E5)|].
  destruct (Py.startswith "-Infinity" t) eqn:E6;
    [injection H as <- <-; apply (startswith_drop_length "-" "Infinity" t E6)|].
  discriminate.
Qed.

(** The turns that [parse_array] allows are enough: with at least as many
    turns as characters, more turns change nothing. *)
Lemma array_loop_turns (scan : string -> result (Json.value * string)) (n1 : nat) :
  consuming scan -> scan "" = Raise JSONDecodeError ->
  forall (n2 : nat) (s : string) (acc : list Json.value),
  (String.length s <= n1)%nat -> (String.length s <= n2)%nat ->
  Json.array_loop n1 scan s acc = Json.array_loop n2 scan s acc.
Proof.
  intros Hc He. induction n1 as [|n1 IH]; intros n2 s acc H1 H2.
  - destruct s; [|simpl in H1; lia].
    destruct n2; [reflexivity|]. cbn [Json.array_loop]. now rewrite He.
  - destruct n2 as [|n2].
    + destruct s; [|simpl in H2; lia]. cbn [Json.array_loop]. now rewrite He.
    + cbn [Json.array_loop]. unfold mbind, result_bind.
      destruct (scan s) as [[v s1]|e] eqn:Es; [|reflexivity]. cbn [bind_result].
      apply Hc in Es. pose proof (skip_ws_length s1) as Hw.
      destruct (Json.skip_ws s1) as [|c r]; [reflexivity|]. cbn [String.length] in Hw.
      destruct (bool_decide (c = "]"%char)); [reflexivity|].
      destruct (bool_decide (c = ","%char)); [|reflexivity].
      pose proof (skip_ws_length r). apply IH; lia.
Qed.

Lemma object_loop_turns (scan : string -> result (Json.value * string)) (n1 : nat) :
  consuming scan ->
  forall (n2 : nat) (s : string) (acc : list (list Z * Json.value)),
  (String.length s <= n1)%nat -> (String.length s <= n2)%nat ->
  Json.object_loop n1 scan s acc = Json.object_loop n2 scan s acc.
Proof.
  intros Hc. induction n1 as [|n1 IH]; intros n2 s acc H1 H2.
  - destruct s; [|simpl in H1; lia]. destruct n2; reflexivity.
  - destruct n2 as [|n2].
    + destruct s; [reflexivity | simpl in H2; lia].
    + cbn [Json.object_loop]. destruct s as [|q s0]; [reflexivity|].
      destruct (bool_decide (q = Json.dquote)); [|reflexivity].
      unfold mbind, result_bind.
      destruct (Json.scanstring s0 []) as [[key s1]|e] eqn:Ek; [|reflexivity].
      cbn [bind_result]. apply (scanstring_consumes _ _ _ _ _ (le_n _)) in Ek.
      pose proof (skip_ws_length s1) as Hw1.
      destruct (Json.skip_ws s1) as [|c r1]; [reflexivity|]. cbn [String.length] in Hw1.
      destruct (bool_decide (c = ":"%char)); [|reflexivity].
      destruct (scan (Json.skip_ws r1)) as [[v1 s2]|e] eqn:Es; [|reflexivity].
      cbn [bind_result]. apply Hc in Es.
      pose proof (skip_ws_length r1) as Hw2. pose proof (skip_ws_length s2) as Hw3.
      destruct (Json.skip_ws s2) as [|d r2]; [reflexivity|]. cbn [String.length] in Hw3.
      destruct (bool_decide (d = "}"%char)); [reflexivity|].
      destruct (bool_decide (d = ","%char)); [|reflexivity].
      pose proof (skip_ws_length r2). cbn [String.length] in *. apply IH; lia.
Qed.

(** Two scanners that agree on the texts up to the length of [s] give the
    same loops on [s]. *)
Lemma array_loop_agree (scan1 scan2 : string -> result (Json.value * string)) (n : nat) :
  consuming scan1 ->
  forall (s : string) (acc : list Json.value),
  (forall t, (String.length t <= String.length s)%nat -> scan1 t = scan2 t) ->
  Json.array_loop n scan1 s acc = Json.array_loop n scan2 s acc.
Proof.
  intros Hc. induction n as [|n IH]; intros s acc Hag; [reflexivity|].
  cbn [Json.array_loop]. rewrite <- (Hag s (le_n _)). unfold mbind, result_bind.
  destruct (scan1 s) as [[v s1]|e] eqn:Es; [|reflexivity]. cbn [bind_result].
  apply Hc in Es. pose proof (skip_ws_length s1) as Hw.
  destruct (Json.skip_ws s1) as [|c r]; [reflexivity|]. cbn [String.length] in Hw.
  destruct (bool_decide (c = "]"%char)); [reflexivity|].
  destruct (bool_decide (c = ","%char)); [|reflexivity].
  pose proof (skip_ws_length r). apply IH. intros t Ht. apply Hag. lia.
Qed.

Lemma object_loop_agree (scan1 scan2 : string -> result (Json.value * string)) (n : nat) :
  consuming scan1 ->
  forall (s : string) (acc : list (list Z * Json.value)),
  (forall t, (String.length t <= String.length s)%nat -> scan1 t = scan2 t) ->
  Json.object_loop n scan1 s acc = Json.object_loop n scan2 s acc.
Proof.
  intros Hc. induction n as [|n IH]; intros s acc Hag; [reflexivity|].
  cbn [Json.object_loop]. destruct s as [|q s0]; [reflexivity|].
  destruct (bool_decide (q = Json.dquote)); [|reflexivity].
  unfold mbind, result_bind.
  destruct (Json.scanstring s0 []) as [[key s1]|e] eqn:Ek; [|reflexivity].
  cbn [bind_result]. apply (scanstring_consumes _ _ _ _ _ (le_n _)) in Ek.
  pose proof (skip_ws_length s1) as Hw1.
  destruct (Json.skip_ws s1) as [|c r1]; [reflexivity|]. cbn [String.length] in Hw1.
  destruct (bool_decide (c = ":"%char)); [|reflexivity].
  pose proof (skip_ws_length r1) as Hw2.
  rewrite <- (Hag (Json.skip_ws r1)) by (cbn [String.length]; lia).
  destruct (scan1 (Json.skip_ws r1)) as [[v1 s2]|e] eqn:Es; [|reflexivity].
  cbn [bind_result]. apply Hc in Es. pose proof (skip_ws_length s2) as Hw3.
  destruct (Json.skip_ws s2) as [|d r2]; [reflexivity|]. cbn [String.length] in Hw3.
  destruct (bool_decide (d = "}"%char)); [reflexivity|].
  destruct (bool_decide (d = ","%char)); [|reflexivity].
  pose proof (skip_ws_length r2). apply IH. intros t Ht. apply Hag.
  cbn [String.length]. lia.
Qed.

(** The depth that [loads] allows is enough: with a depth above the length
    of the text, more depth changes nothing. *)
Lemma scan_once_depth (d1 : nat) : forall (d2 : nat) (s : string),
  (String.length s < d1)%nat -> (String.length s < d2)%nat ->
  Json.scan_once d1 s = Json.scan_once d2 s.
Proof.
  induction d1 as [|d1 IH]; intros d2 s H1 H2; [lia|].
  destruct d2 as [|d2]; [lia|]. cbn [Json.scan_once].
  destruct s as [|c s0]; [reflexivity|]. cbn [String.length] in H1, H2.
  pose proof (skip_ws_length s0) as Hw.
  destruct (bool_decide (c = Json.dquote)); [reflexivity|].
  destruct (bool_decide (c = "{"%char)).
  { unfold Json.parse_object. destruct (Py.startswith "}" _); [reflexivity|].
    apply object_loop_agree; [apply scan_once_consumes|].
    intros t Ht. apply IH; lia. }
  destruct (bool_decide (c = "["%char)); [|reflexivity].
  unfold Json.parse_array. destruct (Py.startswith "]" _); [reflexivity|].
  apply array_loop_agree; [apply scan_once_consumes|].
  intros t Ht. apply IH; lia.
Qed.

(** ** The seen-file of Gumtree: appending a line, reading it back *)

Lemma read_text_cr (b : ascii) (r : string) :
  b <> "010"%char ->
  read_text (String "013" (String b r)) = String "010" (read_text (String b r)).
Proof. intros Hb. each_char b; try reflexivity. now destruct Hb. Qed.

(** Reading a text that ends with a line feed, followed by more text. *)
Lemma read_text_after_line (n : nat) : forall c : string,
  (String.length c <= n)%nat ->
  exists r, forall x,
    read_text ((c ++ String "010" "") ++ x) = (r ++ String "010" "") ++ read_text x.
Proof.
  induction n as [|n IH]; intros c Hn.
  - destruct c; [|simpl in Hn; lia]. exists "". intros x. reflexivity.
  - destruct c as [|a c1]; [exists ""; intros x; reflexivity|].
    cbn [String.length] in Hn.
    destruct (ascii_dec a "013") as [->|Ha].
    + destruct c1 as [|b c2].
      * exists "". intros x. reflexivity.
      * destruct (ascii_dec b "010") as [->|Hb].
        -- cbn [String.length] in Hn. destruct (IH c2 ltac:(lia)) as [r Hr].
           exists (String "010" r). intros x.
           change (read_text ((String "013" (String "010" c2) ++ String "010" "") ++ x))
             with (String "010" (read_text ((c2 ++ String "010" "") ++ x))).
           rewrite Hr. reflexivity.
        -- destruct (IH (String b c2) ltac:(lia)) as [r Hr].
           exists (String "010" r). intros x.
           change ((String "013" (String b c2) ++ String "010" "") ++ x)
             with (String "013" (String b ((c2 ++ String "010" "") ++ x))).
           rewrite read_text_cr by exact Hb.
           change (String b ((c2 ++ String "010" "") ++ x))
             with ((String b c2 ++ String "010" "") ++ x).
           rewrite Hr. reflexivity.
    + destruct (IH c1 ltac:(lia)) as [r Hr].
      exists (String a r). intros x.
      change ((String a c1 ++ String "010" "") ++ x)
        with (String a ((c1 ++ String "010" "") ++ x)).
      rewrite read_text_cons by exact Ha. rewrite Hr. reflexivity.
Qed.

Lemma file_lines_line_nonempty (c : string) : file_lines (c ++ String "010" "") <> [].
Proof.
  induction c as [|a c IH]; [discriminate|].
  change (String a c ++ String "010" "") with (String a (c ++ String "010" "")).
  cbn [file_lines]. destruct (bool_decide (a = "010"%char)); [discriminate|].
  destruct (file_lines (c ++ String "010" "")); [contradiction | discriminate].
Qed.

Lemma file_lines_after_line (c x : string) :
  file_lines ((c ++ String "010" "") ++ x)
  = (file_lines (c ++ String "010" "") ++ file_lines x)%list.
Proof.
  induction c as [|a c IH]; [reflexivity|].
  change ((String a c ++ String "010" "") ++ x)
    with (String a ((c ++ String "010" "") ++ x)).
  change (String a c ++ String "010" "") with (String a (c ++ String "010" "")).
  cbn [file_lines]. rewrite IH.
  destruct (bool_decide (a = "010"%char)); [reflexivity|].
  pose proof (file_lines_line_nonempty c) as Hne.
  destruct (file_lines (c ++ String "010" "")); [contradiction | reflexivity].
Qed.

Lemma file_lines_one_line (l : string) :
  Py.has_char "010" l = false ->
  file_lines (l ++ String "010" "") = [l ++ String "010" ""].
Proof.
  induction l as [|a l IH]; [reflexivity|]. cbn [Py.has_char].
  destruct (ascii_dec "010" a) as [|Ha]; [discriminate|]. intros H.
  change (String a l ++ String "010" "") with (String a (l ++ String "010" "")).
  cbn [file_lines]. rewrite bool_decide_eq_false_2 by congruence.
  now rewrite (IH H).
Qed.

Lemma rstrip_by_line (p : ascii -> bool) (l : string) :
  p "010"%char = true ->
  Py.rstrip_by p (l ++ String "010" "") = Py.rstrip_by p l.
Proof.
  intros Hp. induction l as [|a l IH]; simpl; [now rewrite Hp | now rewrite IH].
Qed.

Lemma rstrip_by_length (p : ascii -> bool) (s : string) :
  (String.length (Py.rstrip_by p s) <= String.length s)%nat.
Proof.
  induction s as [|c s IH]; simpl; [lia|].
  destruct (Py.rstrip_by p s); [destruct (p c)|]; simpl in *; lia.
Qed.

Lemma lstrip_by_same_length (p : ascii -> bool) (s : string) :
  String.length (Py.lstrip_by p s) = String.length s -> Py.lstrip_by p s = s.
Proof.
  destruct s as [|c s]; [reflexivity|]. simpl. destruct (p c); [|reflexivity].
  pose proof (lstrip_by_length p s). lia.
Qed.

(** A link that [strip] leaves alone is what [strip] makes of its line. *)
Lemma strip_line (l : string) :
  Py.strip l = l -> Py.strip (l ++ String "010" "") = l.
Proof.
  unfold Py.strip. intros H.
  assert (Hl : Py.lstrip_by Py.isspace l = l).
  { apply lstrip_by_same_length.
    pose proof (rstrip_by_length Py.isspace (Py.lstrip_by Py.isspace l)) as H1.
    pose proof (lstrip_by_length Py.isspace l) as H2.
    rewrite H in H1. lia. }
  rewrite Hl in H. destruct l as [|a l].
  - reflexivity.
  - assert (Ha : Py.isspace a = false).
    { simpl in Hl. destruct (Py.isspace a); [|reflexivity].
      pose proof (lstrip_by_length Py.isspace l) as H2. rewrite Hl in H2.
      simpl in H2. lia. }
    change (String a l ++ String "010" "") with (String a (l ++ String "010" "")).
    cbn [Py.lstrip_by]. rewrite Ha.
    change (String a (l ++ String "010" "")) with (String a l ++ String "010" "").
    rewrite rstrip_by_line by reflexivity. exact H.
Qed.

Lemma singleton_list_set (l : string) :
  (list_to_set [l] : gset string) = ∅ ∪ {[l]}.
Proof. cbn. now rewrite (right_id_L ∅ (∪)), (left_id_L ∅ (∪)). Qed.

Lemma union_singleton_list_set (X : gset string) (l : string) :
  X ∪ list_to_set [l] = X ∪ {[l]}.
Proof. cbn. now rewrite (right_id_L ∅ (∪)). Qed.

(** Appending the line of a plain link adds the link to the set that the
    file gives. *)
Lemma gumtree_set_append (file : option string) (l : string) :
  appendable file -> plain_link l ->
  gumtree_set (Some (default "" file ++ l ++ String "010" ""))
  = gumtree_set file ∪ {[l]}.
Proof.
  intros Hf [Hs [Hn Hr]].
  assert (Hline : map Py.strip (file_lines (read_text (l ++ String "010" ""))) = [l]).
  { rewrite read_text_no_cr by (rewrite has_char_append, Hr; reflexivity).
    rewrite file_lines_one_line by exact Hn. cbn [map]. now rewrite strip_line. }
  assert (Hnew : forall content, content = "" \/ (exists c, content = c ++ String "010" "") ->
            gumtree_set (Some (content ++ l ++ String "010" ""))
            = gumtree_set (Some content) ∪ {[l]}).
  { intros content [->|[c ->]]; unfold gumtree_set.
    - change ("" ++ l ++ String "010" "") with (l ++ String "010" "").
      rewrite Hline. apply singleton_list_set.
    - destruct (read_text_after_line _ c (le_n _)) as [r Hread].
      rewrite Hread. pose proof (Hread "") as H0.
      rewrite !append_empty_r in H0. cbn [read_text] in H0.
      rewrite ?append_empty_r in H0. rewrite H0.
      rewrite file_lines_after_line, map_app, list_to_set_app_L.
      rewrite read_text_no_cr in Hline by (rewrite has_char_append, Hr; reflexivity).
      rewrite read_text_no_cr by (rewrite has_char_append, Hr; reflexivity).
      rewrite Hline. apply union_singleton_list_set. }
  destruct file as [content|]; cbn [default].
  - apply Hnew. exact Hf.
  - rewrite (Hnew "" (or_introl eq_refl)). reflexivity.
Qed.

Lemma load_gumtree_seen_set (w : World) :
  load_gumtree_seen w = (Ok (gumtree_set (SEEN_GUMTREE w)), w).
Proof. unfold load_gumtree_seen, gumtree_set. destruct (SEEN_GUMTREE w); reflexivity. Qed.

Lemma subseteq_union_single (X Y : gset string) (l : string) :
  X ∪ {[l]} ⊆ Y -> X ⊆ Y /\ l ∈ Y.
Proof.
  intros H. split.
  - intros x Hx. apply H, elem_of_union_l, Hx.
  - apply H, elem_of_union_r, elem_of_singleton. reflexivity.
Qed.

(** The body of the loop for an item that is not in the loaded set: the
    match, if any, is appended, then the line of the link. *)
Lemma gumtree_item_new (cfg : Config) (seen : gset string) (item : Listing) (w : World) :
  link item ∉ seen ->
  exists w1, gumtree_item cfg seen item w = (Ok tt, w1)
    /\ SEEN_GUMTREE w1
       = Some (default "" (SEEN_GUMTREE w) ++ link item ++ String "010" "").
Proof.
  intros Hs. unfold gumtree_item, bind. rewrite bool_decide_eq_false_2 by exact Hs.
  destruct (is_match cfg (title item) (Some "gumtree")); eexists; split; reflexivity.
Qed.

(** The loop of [process_gumtree] on plain links: the file stays
    appendable, the set that it gives grows, and in the end holds the link
    of every item that was not in the loaded set. *)
Lemma gumtree_loop_file (cfg : Config) (seen : gset string) (items : list Listing) :
  Forall (fun it => plain_link (link it)) items ->
  forall w : World,
  appendable (SEEN_GUMTREE w) ->
  let w' := snd (gumtree_loop cfg seen items w) in
  appendable (SEEN_GUMTREE w')
  /\ gumtree_set (SEEN_GUMTREE w) ⊆ gumtree_set (SEEN_GUMTREE w')
  /\ forall it, In it items -> link it ∈ seen \/ link it ∈ gumtree_set (SEEN_GUMTREE w').
Proof.
  induction 1 as [|item items Hp _ IH]; intros w Ha; cbv zeta.
  - cbn. split; [exact Ha|]. split; [reflexivity | intros it []].
  - cbn [gumtree_loop]. unfold bind.
    destruct (decide (link item ∈ seen)) as [Hin|Hnin].
    + unfold gumtree_item. rewrite bool_decide_eq_true_2 by exact Hin. cbn [ret].
      destruct (IH w Ha) as [H1 [H2 H3]].
      split; [exact H1|]. split; [exact H2|].
      intros it [<-|Hit]; [now left | now apply H3].
    + destruct (gumtree_item_new cfg seen item w Hnin) as [w1 [Hitem Hfile]].
      rewrite Hitem.
      assert (Ha1 : appendable (SEEN_GUMTREE w1)).
      { rewrite Hfile. right. exists (default "" (SEEN_GUMTREE w) ++ link item).
        now rewrite append_assoc. }
      destruct (IH w1 Ha1) as [H1 [H2 H3]].
      rewrite Hfile in H2 at 1. rewrite (gumtree_set_append _ _ Ha Hp) in H2.
      apply subseteq_union_single in H2. destruct H2 as [H2 Hl].
      split; [exact H1|]. split; [exact H2|].
      intros it [<-|Hit]; [right; exact Hl | now apply H3].
Qed.

Lemma gumtree_loop_silent (cfg : Config) (seen : gset string) (items : list Listing) :
  (forall it, In it items -> link it ∈ seen) ->
  forall w : World, gumtree_loop cfg seen items w = (Ok tt, w).
Proof.
  induction items as [|item items IH]; intros Hall w; [reflexivity|].
  cbn [gumtree_loop]. unfold bind, gumtree_item.
  rewrite bool_decide_eq_true_2 by (apply Hall; now left). cbn [ret].
  apply IH. intros it Hit. apply Hall. now right.
Qed.

(** On a page whose links are plain, from an appendable file, a second run
    of [process_gumtree] emits no match. *)
Lemma process_gumtree_rerun (cfg cfg' : Config) (env env' : Env) (w w1' : World) :
  gumtree_response env' = gumtree_response env ->
  appendable (SEEN_GUMTREE w) ->
  (forall html, gumtree_response env = Ok html ->
     Forall (fun it => plain_link (link it)) (parse_gumtree html)) ->
  fst (process_gumtree cfg env w) = Ok tt ->
  SEEN_GUMTREE w1' = SEEN_GUMTREE (snd (process_gumtree cfg env w)) ->
  process_gumtree cfg' env' w1' = (Ok tt, w1').
Proof.
  intros Hresp Ha Hplain Hok Hfile.
  unfold process_gumtree, fetch_gumtree_results, bind, lift in *.
  rewrite Hresp. destruct (gumtree_response env) as [html|e]; [|discriminate].
  rewrite load_gumtree_seen_set in *.
  destruct (gumtree_loop_file cfg (gumtree_set (SEEN_GUMTREE w)) (parse_gumtree html)
              (Hplain html eq_refl) w Ha) as [_ [Hsub Hall]].
  rewrite Hfile. apply gumtree_loop_silent.
  intros it Hit. destruct (Hall it Hit) as [H|H]; [now apply Hsub | exact H].
Qed.

(* ===================================================================== *)
(** * Further properties *)
(* ===================================================================== *)

(** ** The eBay pipeline, in full *)

(** X1.  The eBay seen-file is a faithful store: what [save_ebay_seen]
    writes for a set, [load_ebay_seen] reads back as the same set, whatever
    the order in which the set was listed. *)
Theorem X1_ebay_seen_round_trip (seed : list nat) (seen : gset string) (w : World) :
  load_ebay_seen (snd (save_ebay_seen seed seen w))
  = (Ok seen, snd (save_ebay_seen seed seen w)).
Proof. apply (load_after_save seed seen w). reflexivity. Qed.

Lemma ebay_emitted_app (cfg : Config) (seen : gset string) (l1 l2 : list EbayItem) :
  ebay_emitted cfg seen (l1 ++ l2)%list
  = (ebay_emitted cfg seen l1 ++ ebay_emitted cfg seen l2)%list.
Proof. unfold ebay_emitted. apply flat_map_app. Qed.

(** The loop over items that all have an identity or are incomplete: the
    matches appended and the set returned. *)
Lemma ebay_loop_closed (cfg : Config) (seen : gset string) (items : list EbayItem) :
  Forall well_linked items ->
  forall (ns : gset string) (w : World),
  exists ns',
    ebay_loop cfg seen items ns w
    = (Ok ns', set_ebay_matches (ebay_matches w ++ ebay_emitted cfg seen items)%list w)
    /\ forall l, l ∈ ns' <->
         l ∈ ns \/ ((l ∉ seen) /\ exists item, In item items /\ item_link item = Ok (Some l)).
Proof.
  induction 1 as [|item items [ol Hol] _ IH]; intros ns w.
  - exists ns. cbn. rewrite set_ebay_matches_nil. split; [reflexivity|].
    intros l. split; [now left|]. intros [H|[_ [it [[] _]]]]. exact H.
  - cbn [ebay_loop]. unfold bind. rewrite ebay_item_spec.
    change (ebay_emitted cfg seen (item :: items))
      with (ebay_emitted cfg seen ([item] ++ items)%list).
    rewrite ebay_emitted_app.
    unfold ebay_emitted at 1. cbn [flat_map]. rewrite Hol, app_nil_r.
    destruct ol as [link|].
    + destruct (bool_decide (link ∈ seen)) eqn:Es; cbn [negb andb].
      * apply bool_decide_eq_true in Es.
        destruct (IH ns w) as [ns' [Hrun Hmem]]. exists ns'. split; [exact Hrun|].
        intros l. rewrite Hmem. split.
        -- intros [H|[Hn [it [Hit Hl]]]]; [now left|]. right. split; [exact Hn|].
           exists it. split; [now right | exact Hl].
        -- intros [H|[Hn [it [[<-|Hit] Hl]]]]; [now left| |].
           ++ rewrite Hol in Hl. injection Hl as ->. contradiction.
           ++ right. split; [exact Hn|]. exists it. split; assumption.
      * apply bool_decide_eq_false in Es.
        destruct (is_match cfg (item_title item) (Some "ebay")
                  && is_nearby cfg (item_location item)).
        -- match goal with |- context [ebay_loop _ _ _ ?n ?w1] =>
             destruct (IH n w1) as [ns' [Hrun Hmem]] end.
           exists ns'. split.
           ++ rewrite Hrun. f_equal. apply set_ebay_matches_app.
           ++ intros l. rewrite Hmem, elem_of_union, elem_of_singleton. split.
              ** intros [[->|H]|[Hn [it [Hit Hl]]]].
                 --- right. split; [exact Es|]. exists item. split; [now left | exact Hol].
                 --- now left.
                 --- right. split; [exact Hn|]. exists it. split; [now right | exact Hl].
              ** intros [H|[Hn [it [[<-|Hit] Hl]]]].
                 --- left. now right.
                 --- rewrite Hol in Hl. injection Hl as ->. left. now left.
                 --- right. split; [exact Hn|]. exists it. split; assumption.
        -- match goal with |- context [ebay_loop _ _ _ ?n ?w1] =>
             destruct (IH n w1) as [ns' [Hrun Hmem]] end.
           exists ns'. split; [exact Hrun|].
           intros l. rewrite Hmem, elem_of_union, elem_of_singleton. split.
           ++ intros [[->|H]|[Hn [it [Hit Hl]]]].
              ** right. split; [exact Es|]. exists item. split; [now left | exact Hol].
              ** now left.
              ** right. split; [exact Hn|]. exists it. split; [now right | exact Hl].
           ++ intros [H|[Hn [it [[<-|Hit] Hl]]]].
              ** left. now right.
              ** rewrite Hol in Hl. injection Hl as ->. left. now left.
              ** right. split; [exact Hn|]. exists it. split; assumption.
    + destruct (IH ns w) as [ns' [Hrun Hmem]]. exists ns'. split; [exact Hrun|].
      intros l. rewrite Hmem. split.
      * intros [H|[Hn [it [Hit Hl]]]]; [now left|]. right. split; [exact Hn|].
        exists it. split; [now right | exact Hl].
      * intros [H|[Hn [it [[<-|Hit] Hl]]]]; [now left| |].
        -- rewrite Hol in Hl. discriminate.
        -- right. split; [exact Hn|]. exists it. split; assumption.
Qed.

Lemma process_ebay_closed (cfg : Config) (env : Env) (w : World)
    (items : list EbayItem) (seen : gset string) :
  ebay_response env = Ok items ->
  load_ebay_seen w = (Ok seen, w) ->
  Forall well_linked items ->
  exists new_seen,
    process_ebay cfg env w
    = (Ok tt, ebay_saved (hash_seed env) new_seen (ebay_emitted cfg seen items) w)
    /\ (forall l, l ∈ new_seen <->
          l ∈ seen \/ exists item, In item items /\ item_link item = Ok (Some l))
    /\ forall w', SEEN_EBAY w' = SEEN_EBAY (snd (process_ebay cfg env w)) ->
         load_ebay_seen w' = (Ok new_seen, w').
Proof.
  intros Hresp Hload Hall.
  destruct (ebay_loop_closed cfg seen items Hall seen w) as [ns [Hrun Hmem]].
  exists ns. unfold process_ebay, fetch_ebay_results, bind, lift.
  rewrite Hresp, Hload, Hrun. split; [reflexivity|]. split.
  - intros l. rewrite Hmem. split.
    + intros [H|[_ H]]; [now left | now right].
    + intros [H|H]; [now left|].
      destruct (decide (l ∈ seen)) as [Hs|Hs]; [now left | now right].
  - intros w' Hf.
    apply (load_after_save (hash_seed env) ns
             (set_ebay_matches (ebay_matches w ++ ebay_emitted cfg seen items)%list w)).
    exact Hf.
Qed.

Lemma ebay_emitted_seen (cfg : Config) (seen : gset string) (items : list EbayItem) :
  (forall item l, In item items -> item_link item = Ok (Some l) -> l ∈ seen) ->
  ebay_emitted cfg seen items = [].
Proof.
  induction items as [|item items IH]; intros Hall; [reflexivity|].
  change (ebay_emitted cfg seen (item :: items))
    with (ebay_emitted cfg seen ([item] ++ items)%list).
  rewrite ebay_emitted_app, IH by (intros it l Hit; apply Hall; now right).
  rewrite app_nil_r. unfold ebay_emitted. cbn [flat_map]. rewrite app_nil_r.
  destruct (item_link item) as [[l|]|e] eqn:El; try reflexivity.
  rewrite bool_decide_eq_true_2 by (apply (Hall item l); [now left | exact El]).
  reflexivity.
Qed.

(** X2.  A run of [process_ebay] on a page whose items all have a usable
    link, from a readable seen-file.  It returns; it appends exactly the
    matches of the items whose identity is outside the loaded set, in the
    order of the page, with the first 11 characters of the title cut off;
    and it saves the loaded set extended by the identity of every complete
    item, matching or not, which is the set that the next load reads. *)
Theorem X2_process_ebay_closed_form (cfg : Config) (env : Env) (w : World)
    (items : list EbayItem) (seen : gset string) :
  ebay_response env = Ok items ->
  load_ebay_seen w = (Ok seen, w) ->
  Forall well_linked items ->
  exists new_seen,
    process_ebay cfg env w
    = (Ok tt, ebay_saved (hash_seed env) new_seen (ebay_emitted cfg seen items) w)
    /\ (forall l, l ∈ new_seen <->
          l ∈ seen \/ exists item, In item items /\ item_link item = Ok (Some l))
    /\ forall w', SEEN_EBAY w' = SEEN_EBAY (snd (process_ebay cfg env w)) ->
         load_ebay_seen w' = (Ok new_seen, w').
Proof. apply process_ebay_closed. Qed.

Lemma X2_process_ebay_closed_form_witness :
  exists new_seen,
    process_ebay source_config (env_of (Ok sample_page) (Ok [])) fresh_world
    = (Ok tt,
       ebay_saved [] new_seen
         [("Trek Marlin 5", "https://www.ebay.co.uk/itm/1");
          ("", "https://www.ebay.co.uk/itm/2")] fresh_world)
    /\ "https://www.ebay.co.uk/itm/2" ∈ new_seen
    /\ "https://www.ebay.co.uk/itm/3" ∉ new_seen.
Proof.
  assert (Hwl : Forall well_linked sample_page)
    by (repeat constructor; eexists; reflexivity).
  destruct (X2_process_ebay_closed_form source_config (env_of (Ok sample_page) (Ok []))
              fresh_world sample_page ∅ eq_refl eq_refl Hwl) as [ns [Hrun [Hmem _]]].
  exists ns. split; [exact Hrun|]. split.
  - apply Hmem. right. exists short_listing. split; [|reflexivity].
    right. right. left. reflexivity.
  - intros Hin. apply Hmem in Hin. destruct Hin as [Hin|[it [Hit Hl]]].
    + now apply not_elem_of_empty in Hin.
    + destruct Hit as [<-|[<-|[<-|[]]]]; vm_compute in Hl; discriminate.
Defined.

(** X3.  A failure inside the eBay loop.  When an item has a link tag
    without [href], or an [href] that [urlparse] rejects, the exception
    leaves [process_ebay]: the matches of the items before it stay
    appended, and the seen-file is not written, so none of the items of
    the page is recorded. *)
Theorem X3_process_ebay_item_failure (cfg : Config) (env : Env) (w : World)
    (before after : list EbayItem) (bad : EbayItem) (seen : gset string) (e : exn) :
  ebay_response env = Ok (before ++ bad :: after)%list ->
  load_ebay_seen w = (Ok seen, w) ->
  Forall well_linked before ->
  item_link bad = Raise e ->
  process_ebay cfg env w
  = (Raise e, set_ebay_matches (ebay_matches w ++ ebay_emitted cfg seen before)%list w)
  /\ SEEN_EBAY (snd (process_ebay cfg env w)) = SEEN_EBAY w
  /\ (e = KeyError \/ e = ValueError).
Proof.
  intros Hresp Hload Hall Hbad.
  destruct (ebay_loop_closed cfg seen before Hall seen w) as [ns [Hrun _]].
  assert (Hp : process_ebay cfg env w
    = (Raise e, set_ebay_matches (ebay_matches w ++ ebay_emitted cfg seen before)%list w)).
  { unfold process_ebay, fetch_ebay_results, bind, lift.
    rewrite Hresp, Hload, ebay_loop_app, Hrun. cbn [ebay_loop]. unfold bind.
    rewrite ebay_item_spec, Hbad. reflexivity. }
  split; [exact Hp|]. split; [rewrite Hp; reflexivity|].
  unfold item_link in Hbad.
  destruct (link_tag bad) as [lt|]; [|discriminate].
  destruct (title_tag bad) as [tt|]; [|discriminate].
  unfold mbind, result_bind, getitem in Hbad.
  destruct (attrs lt !! "href") as [href|]; cbn [bind_result] in Hbad;
    [|injection Hbad as <-; now left].
  unfold normalize_ebay_url, Url.urlparse, Url.urlsplit in Hbad.
  destruct (Url.split_scheme (Url.clean_url href)) as [sch url].
  destruct (bool_decide (Py.take 2 url = "//")).
  - destruct (Url.splitnetloc2 url) as [nl rest].
    destruct (Url.netloc_error nl); cbn [bind_result] in Hbad.
    + injection Hbad as <-. now right.
    + match type of Hbad with context [if ?c then _ else _] => destruct c end;
        cbn [bind_result] in Hbad; try discriminate;
        match type of Hbad with context [let '(_, _) := ?x in _] => destruct x end;
        discriminate.
  - match type of Hbad with context [if ?c then _ else _] => destruct c end;
      cbn [bind_result] in Hbad; try discriminate;
      match type of Hbad with context [let '(_, _) := ?x in _] => destruct x end;
      discriminate.
Qed.

Lemma X3_process_ebay_item_failure_witness :
  process_ebay source_config
    (env_of (Ok ([trek_listing] ++ hrefless_listing :: [short_listing])%list) (Ok []))
    fresh_world
  = (Raise KeyError,
     set_ebay_matches [("Trek Marlin 5", "https://www.ebay.co.uk/itm/1")] fresh_world)
  /\ item_link bracket_listing = Raise ValueError.
Proof.
  split; [|reflexivity].
  assert (Hwl : Forall well_linked [trek_listing])
    by (repeat constructor; eexists; reflexivity).
  destruct (X3_process_ebay_item_failure source_config
              (env_of (Ok ([trek_listing] ++ hrefless_listing :: [short_listing])%list)
                 (Ok []))
              fresh_world [trek_listing] [short_listing] hrefless_listing ∅ KeyError
              eq_refl eq_refl Hwl eq_refl) as [Hrun _].
  rewrite Hrun. reflexivity.
Defined.

(** X4.  A second run of [process_ebay] on the same page.  After a run that
    returned, a run from the seen-file that it left returns too, emits
    nothing, and leaves a seen-file with the same set, whatever the
    thresholds, the terms and the location mode of the second run are. *)
Theorem X4_process_ebay_rerun_silent (cfg cfg' : Config) (env env' : Env)
    (w w1 w1' : World) :
  process_ebay cfg env w = (Ok tt, w1) ->
  ebay_response env' = ebay_response env ->
  SEEN_EBAY w1' = SEEN_EBAY w1 ->
  exists w2 saved,
    process_ebay cfg' env' w1' = (Ok tt, w2)
    /\ ebay_matches w2 = ebay_matches w1'
    /\ load_ebay_seen w1' = (Ok saved, w1')
    /\ load_ebay_seen w2 = (Ok saved, w2).
Proof.
  intros Hrun Hresp Hfile.
  destruct (process_ebay_completed _ _ _ _ Hrun)
    as [items [seen [ns [new [Hitems [Hload [Hreload [Hsub [_ [_ Hall]]]]]]]]]].
  assert (Hwl : Forall well_linked items).
  { apply List.Forall_forall. intros it Hit.
    destruct (Hall it Hit) as [ol [Hol _]]. now exists ol. }
  assert (Hin : forall item l, In item items -> item_link item = Ok (Some l) -> l ∈ ns).
  { intros it l Hit Hl. destruct (Hall it Hit) as [ol [Hol Hmem]].
    rewrite Hl in Hol. injection Hol as <-. now apply Hmem. }
  rewrite <- Hresp in Hitems.
  destruct (process_ebay_closed cfg' env' w1' items ns Hitems (Hreload w1' Hfile) Hwl)
    as [ns2 [Hrun2 [Hmem2 Hload2]]].
  rewrite (ebay_emitted_seen cfg' ns items Hin) in Hrun2.
  assert (Hns : ns2 = ns).
  { apply set_eq. intros l. rewrite Hmem2. split; [|now left].
    intros [H|[it [Hit Hl]]]; [exact H | now apply (Hin it)]. }
  subst ns2. eexists. exists ns. split; [exact Hrun2|].
  split; [unfold ebay_saved; cbn; now rewrite app_nil_r|].
  split; [exact (Hreload w1' Hfile)|].
  apply Hload2. rewrite Hrun2. reflexivity.
Qed.

Lemma X4_process_ebay_rerun_silent_witness :
  is_match (with_ratios source_config 0 0) "Garden chair" (Some "ebay") = true
  /\ exists w2 saved,
       process_ebay (with_ratios source_config 0 0)
         (env_of (Ok [chair_listing]) (Ok []))
         (snd (process_ebay source_config (env_of (Ok [chair_listing]) (Ok []))
                 fresh_world))
       = (Ok tt, w2)
       /\ ebay_matches w2 = []
       /\ load_ebay_seen
            (snd (process_ebay source_config (env_of (Ok [chair_listing]) (Ok []))
                    fresh_world))
          = (Ok saved,
             snd (process_ebay source_config (env_of (Ok [chair_listing]) (Ok []))
                    fresh_world))
       /\ load_ebay_seen w2 = (Ok saved, w2).
Proof.
  split; [vm_compute; reflexivity|].
  apply (X4_process_ebay_rerun_silent source_config (with_ratios source_config 0 0)
           (env_of (Ok [chair_listing]) (Ok [])) (env_of (Ok [chair_listing]) (Ok []))
           fresh_world
           (snd (process_ebay source_config (env_of (Ok [chair_listing]) (Ok []))
                   fresh_world))
           (snd (process_ebay source_config (env_of (Ok [chair_listing]) (Ok []))
                   fresh_world)));
    [vm_compute; reflexivity | reflexivity | reflexivity].
Defined.

(** ** The Gumtree pipeline, in full *)

Lemma gumtree_marked_cons (file : option string) (it : Listing) (rest : list Listing) :
  gumtree_marked (Some (default "" file ++ link it ++ String "010" "")) rest
  = Some (default "" file ++ marked_lines (it :: rest)).
Proof.
  destruct rest as [|it' rest]; cbn [gumtree_marked marked_lines].
  - reflexivity.
  - f_equal. change (default "" (Some ?x)) with x. now rewrite !append_assoc.
Qed.

Lemma gumtree_loop_closed (cfg : Config) (seen : gset string) (items : list Listing) :
  forall w : World,
  gumtree_loop cfg seen items w
  = (Ok tt,
     set_SEEN_GUMTREE (gumtree_marked (SEEN_GUMTREE w) (gumtree_fresh seen items))
       (set_gumtree_matches (gumtree_matches w ++ gumtree_emitted cfg seen items)%list w)).
Proof.
  induction items as [|item items IH]; intros w.
  - cbn. destruct w. unfold set_SEEN_GUMTREE, set_gumtree_matches. cbn.
    now rewrite app_nil_r.
  - cbn [gumtree_loop]. unfold bind, gumtree_item, gumtree_emitted, gumtree_fresh.
    cbn [List.filter].
    destruct (bool_decide (link item ∈ seen)); cbn [negb ret].
    + exact (IH w).
    + destruct (is_match cfg (title item) (Some "gumtree")) eqn:Em;
        unfold append_gumtree_match, mark_gumtree_seen, ret, bind;
        cbn [List.filter map]; rewrite ?Em; cbn [map];
        (etransitivity; [apply IH|]);
        unfold set_SEEN_GUMTREE, set_gumtree_matches; cbn;
        fold (gumtree_fresh seen items); rewrite gumtree_marked_cons;
        unfold gumtree_emitted; try rewrite <- app_assoc; reflexivity.
Qed.

Lemma process_gumtree_closed (cfg : Config) (env : Env) (w : World) :
  process_gumtree cfg env w
  = match gumtree_response env with
    | Raise e => (Raise e, w)
    | Ok html => (Ok tt, gumtree_done cfg (parse_gumtree html) w)
    end.
Proof.
  unfold process_gumtree, fetch_gumtree_results, bind, lift.
  destruct (gumtree_response env) as [html|e]; [|reflexivity].
  rewrite load_gumtree_seen_set. apply gumtree_loop_closed.
Qed.


(** ** What the seen-file of Gumtree stores *)

Lemma rstrip_by_cons (p : ascii -> bool) (c : ascii) (s : string) :
  Py.rstrip_by p (String c s)
  = match Py.rstrip_by p s with
    | EmptyString => if p c then EmptyString else String c EmptyString
    | r => String c r
    end.
Proof. reflexivity. Qed.

Lemma rstrip_by_idem (p : ascii -> bool) (s : string) :
  Py.rstrip_by p (Py.rstrip_by p s) = Py.rstrip_by p s.
Proof.
  induction s as [|c s IH]; [reflexivity|]. rewrite rstrip_by_cons.
  destruct (Py.rstrip_by p s) as [|d r] eqn:Er.
  - destruct (p c) eqn:Ec; [reflexivity|]. cbn [Py.rstrip_by]. now rewrite Ec.
  - rewrite rstrip_by_cons, IH. reflexivity.
Qed.

Lemma rstrip_by_head (p : ascii -> bool) (c : ascii) (s : string) :
  p c = false -> exists r, Py.rstrip_by p (String c s) = String c r.
Proof.
  intros Hc. cbn [Py.rstrip_by]. destruct (Py.rstrip_by p s); [rewrite Hc|]; eauto.
Qed.

Lemma lstrip_by_head (p : ascii -> bool) (s : string) :
  Py.lstrip_by p s = "" \/ exists c r, Py.lstrip_by p s = String c r /\ p c = false.
Proof.
  induction s as [|c s IH]; [now left|]. cbn [Py.lstrip_by].
  destruct (p c) eqn:Ec; [exact IH|]. right. eauto.
Qed.

Lemma strip_idem (s : string) : Py.strip (Py.strip s) = Py.strip s.
Proof.
  unfold Py.strip.
  destruct (lstrip_by_head Py.isspace s) as [->|[c [r [-> Hc]]]]; [reflexivity|].
  destruct (rstrip_by_head Py.isspace c r Hc) as [r' Hr]. rewrite Hr.
  cbn [Py.lstrip_by]. rewrite Hc, <- Hr. apply rstrip_by_idem.
Qed.

Lemma strip_line_any (l : string) :
  Py.strip (l ++ String "010" "") = Py.strip l.
Proof.
  unfold Py.strip. induction l as [|a l IH]; [reflexivity|].
  change (String a l ++ String "010" "") with (String a (l ++ String "010" "")).
  cbn [Py.lstrip_by]. destruct (Py.isspace a); [exact IH|].
  change (String a (l ++ String "010" "")) with (String a l ++ String "010" "").
  now rewrite rstrip_by_line.
Qed.

(** Every member of the set that a seen-file gives is a stripped string. *)
Lemma gumtree_set_stripped (file : option string) (x : string) :
  x ∈ gumtree_set file -> Py.strip x = x.
Proof.
  destruct file as [content|]; cbn [gumtree_set].
  - rewrite elem_of_list_to_set, list_elem_of_fmap. intros [y [-> _]]. apply strip_idem.
  - intros H. now apply not_elem_of_empty in H.
Qed.

(** Appending the line of a link without line break adds the stripped link
    to the set that the file gives. *)
Lemma gumtree_set_mark (file : option string) (l : string) :
  appendable file ->
  Py.has_char "010" l = false -> Py.has_char "013" l = false ->
  gumtree_set (Some (default "" file ++ l ++ String "010" ""))
  = gumtree_set file ∪ {[Py.strip l]}.
Proof.
  intros Hf Hn Hr.
  assert (Hline : map Py.strip (file_lines (read_text (l ++ String "010" "")))
                  = [Py.strip l]).
  { rewrite read_text_no_cr by (rewrite has_char_append, Hr; reflexivity).
    rewrite file_lines_one_line by exact Hn. cbn [map]. now rewrite strip_line_any. }
  assert (Hnew : forall content, content = "" \/ (exists c, content = c ++ String "010" "") ->
            gumtree_set (Some (content ++ l ++ String "010" ""))
            = gumtree_set (Some content) ∪ {[Py.strip l]}).
  { intros content [->|[c ->]]; unfold gumtree_set.
    - change ("" ++ l ++ String "010" "") with (l ++ String "010" "").
      rewrite Hline. apply singleton_list_set.
    - destruct (read_text_after_line _ c (le_n _)) as [r Hread].
      rewrite Hread. pose proof (Hread "") as H0.
      rewrite !append_empty_r in H0. cbn [read_text] in H0.
      rewrite ?append_empty_r in H0. rewrite H0.
      rewrite file_lines_after_line, map_app, list_to_set_app_L.
      rewrite read_text_no_cr in Hline by (rewrite has_char_append, Hr; reflexivity).
      rewrite read_text_no_cr by (rewrite has_char_append, Hr; reflexivity).
      rewrite Hline. apply union_singleton_list_set. }
  destruct file as [content|]; cbn [default].
  - apply Hnew. exact Hf.
  - rewrite (Hnew "" (or_introl eq_refl)). reflexivity.
Qed.

(** X6.  Marking then loading.  After [mark_gumtree_seen(url)] on a
    seen-file that is absent, empty or ends with a line feed, for a [url]
    without line break, [load_gumtree_seen] gives the set that the file
    gave before with [url.strip()] added: the stored identity is the
    stripped link, not the link. *)
Theorem X6_mark_then_load (url : string) (w : World) :
  appendable (SEEN_GUMTREE w) ->
  Py.has_char "010" url = false -> Py.has_char "013" url = false ->
  load_gumtree_seen (snd (mark_gumtree_seen url w))
  = (Ok (gumtree_set (SEEN_GUMTREE w) ∪ {[Py.strip url]}), snd (mark_gumtree_seen url w))
  /\ appendable (SEEN_GUMTREE (snd (mark_gumtree_seen url w))).
Proof.
  intros Ha Hn Hr. rewrite load_gumtree_seen_set. split.
  - f_equal. f_equal. cbn [mark_gumtree_seen snd set_SEEN_GUMTREE SEEN_GUMTREE].
    now apply gumtree_set_mark.
  - cbn. right. exists (default "" (SEEN_GUMTREE w) ++ url). now rewrite append_assoc.
Qed.

Lemma X6_mark_then_load_witness :
  load_gumtree_seen (snd (mark_gumtree_seen " https://www.gumtree.com/p/bikes/1 " fresh_world))
  = (Ok (gumtree_set None ∪ {[Py.strip " https://www.gumtree.com/p/bikes/1 "]}),
     snd (mark_gumtree_seen " https://www.gumtree.com/p/bikes/1 " fresh_world))
  /\ Py.strip " https://www.gumtree.com/p/bikes/1 " = "https://www.gumtree.com/p/bikes/1".
Proof.
  split; [|reflexivity].
  apply (X6_mark_then_load " https://www.gumtree.com/p/bikes/1 " fresh_world);
    [exact I | reflexivity | reflexivity].
Defined.

(** X7.  A link that [strip] changes is never recognised.  Whatever the
    seen-file holds, such a link is not in the loaded set, so a matching
    listing with such a link is emitted by every run of [process_gumtree]
    whose request returns. *)
Theorem X7_unstripped_link_never_seen (cfg : Config) (env : Env) (w : World)
    (html : list Tag) (it : Listing) :
  gumtree_response env = Ok html ->
  In it (parse_gumtree html) ->
  Py.strip (link it) <> link it ->
  is_match cfg (title it) (Some "gumtree") = true ->
  (link it ∉ gumtree_set (SEEN_GUMTREE w))
  /\ exists new,
       gumtree_matches (snd (process_gumtree cfg env w)) = (gumtree_matches w ++ new)%list
       /\ In (title it, link it) new.
Proof.
  intros Hresp Hin Hs Hm.
  assert (Hnot : link it ∉ gumtree_set (SEEN_GUMTREE w)).
  { intros H. apply Hs. now apply (gumtree_set_stripped (SEEN_GUMTREE w)). }
  split; [exact Hnot|].
  unfold process_gumtree, fetch_gumtree_results, bind, lift.
  rewrite Hresp, load_gumtree_seen_set, gumtree_loop_closed.
  eexists. split; [reflexivity|].
  unfold gumtree_emitted, gumtree_fresh.
  apply (in_map (fun it => (title it, link it))).
  apply filter_In. split; [|exact Hm].
  apply filter_In. split; [exact Hin|].
  now rewrite bool_decide_eq_false_2.
Qed.

Lemma X7_unstripped_link_never_seen_witness :
  SEEN_GUMTREE
    (snd (process_gumtree source_config (env_of (Ok []) (Ok [spaced_anchor])) fresh_world))
  = Some ("https://www.gumtree.com/p/bikes/1 " ++ String "010" "")
  /\ exists new,
       gumtree_matches
         (snd (process_gumtree source_config (env_of (Ok []) (Ok [spaced_anchor]))
                 (snd (process_gumtree source_config (env_of (Ok []) (Ok [spaced_anchor]))
                         fresh_world))))
       = (gumtree_matches
            (snd (process_gumtree source_config (env_of (Ok []) (Ok [spaced_anchor]))
                    fresh_world)) ++ new)%list
       /\ In (title spaced_listing, link spaced_listing) new.
Proof.
  split; [reflexivity|].
  apply (X7_unstripped_link_never_seen source_config (env_of (Ok []) (Ok [spaced_anchor]))
           (snd (process_gumtree source_config (env_of (Ok []) (Ok [spaced_anchor]))
                   fresh_world))
           [spaced_anchor] spaced_listing);
    [reflexivity | left; reflexivity | vm_compute; discriminate | vm_compute; reflexivity].
Defined.

(** ** The listings of a Gumtree page *)

Lemma startswith_contains (p s : string) :
  Py.startswith p s = true -> Py.contains p s = true.
Proof. intros H. destruct s; cbn [Py.contains]; now rewrite H. Qed.

Lemma parse_items_cons (a : Tag) (items : list Tag) (results : list Listing) :
  parse_items (a :: items) results
  = parse_items items
      (match listing_of a with Some it => (results ++ [it])%list | None => results end).
Proof.
  cbn [parse_items]. unfold listing_of.
  destruct (attrs a !! "href") as [href|].
  - change (default "" (Some href)) with href.
    destruct (bool_decide (href = "")) eqn:Ee.
    + apply bool_decide_eq_true in Ee. subst href. reflexivity.
    + destruct (Py.startswith "/p/" href) eqn:Es; cbn [negb]; [|reflexivity].
      rewrite (startswith_contains _ _ Es), andb_true_r.
      match goal with |- context [negb (bool_decide ?P)] =>
        destruct (bool_decide P) end; reflexivity.
  - change (default "" None) with "". rewrite bool_decide_eq_true_2 by reflexivity.
    reflexivity.
Qed.

Lemma parse_items_listing_of (items : list Tag) : forall results : list Listing,
  parse_items items results = (results ++ omap listing_of items)%list.
Proof.
  induction items as [|a items IH]; intros results; [now rewrite app_nil_r|].
  rewrite parse_items_cons, IH. cbn [omap list_omap].
  destruct (listing_of a); [now rewrite <- app_assoc | reflexivity].
Qed.

Lemma omap_listing_of_filter (html : list Tag) :
  omap listing_of (find_all_a_href html) = omap listing_of html.
Proof.
  unfold find_all_a_href. induction html as [|a html IH]; [reflexivity|].
  cbn [List.filter omap list_omap]. destruct (attrs a !! "href") as [href|] eqn:Eh.
  - rewrite bool_decide_eq_true_2 by eauto. cbn [omap list_omap]. now rewrite IH.
  - rewrite bool_decide_eq_false_2 by (intros [x Hx]; discriminate).
    unfold listing_of at 2. rewrite Eh. exact IH.
Qed.

Lemma listing_of_well_formed (a : Tag) (it : Listing) :
  listing_of a = Some it -> well_formed_listing it.
Proof.
  unfold listing_of. destruct (attrs a !! "href") as [href|]; [|discriminate].
  destruct (Py.startswith "/p/" href) eqn:Es; [|discriminate].
  destruct (bool_decide _) eqn:Et; [discriminate|]. intros [= <-].
  apply bool_decide_eq_false in Et. unfold well_formed_listing. cbn [title link].
  split; [|split; [exact Et|]].
  - apply startswith_spec in Es. destruct Es as [post ->]. exists post. reflexivity.
  - destruct (bool_decide (Py.strip (default "" (attrs a !! "aria-label")) = ""));
      apply strip_idem.
Qed.

(** X8.  What [parse_gumtree] returns: the listings of the anchors of the
    page, in the order of the page, one for every anchor whose [href]
    starts with [/p/] and whose label, or else text, is not blank.  So every
    listing has a link under [https://www.gumtree.com/p/] and a title that
    is stripped and not empty; the tests for an empty [href] and for [/p/]
    inside the [href] reject nothing that the other tests accept. *)
Theorem X8_parse_gumtree_listings (html : list Tag) :
  parse_gumtree html = omap listing_of html
  /\ Forall well_formed_listing (parse_gumtree html).
Proof.
  assert (H : parse_gumtree html = omap listing_of html).
  { unfold parse_gumtree. rewrite parse_items_listing_of. apply omap_listing_of_filter. }
  split; [exact H|]. rewrite H. apply Forall_forall. intros it Hit.
  apply list_elem_of_omap in Hit. destruct Hit as [a [_ Ha]].
  now apply (listing_of_well_formed a).
Qed.

(** X9.  A second run of [process_gumtree] on the same page.  When the
    seen-file is absent, empty or ends with a line feed, and every link of
    the page is unchanged by [strip] and holds no line break, a run from
    the seen-file that a first run left returns and changes nothing,
    whatever the configuration of the second run is. *)
Theorem X9_process_gumtree_rerun_silent (cfg cfg' : Config) (env env' : Env)
    (w w1' : World) (html : list Tag) :
  gumtree_response env = Ok html ->
  gumtree_response env' = Ok html ->
  appendable (SEEN_GUMTREE w) ->
  Forall (fun it => plain_link (link it)) (parse_gumtree html) ->
  SEEN_GUMTREE w1' = SEEN_GUMTREE (snd (process_gumtree cfg env w)) ->
  process_gumtree cfg' env' w1' = (Ok tt, w1').
Proof.
  intros Hresp Hresp' Ha Hplain Hfile.
  apply (process_gumtree_rerun cfg cfg' env env' w w1').
  - now rewrite Hresp, Hresp'.
  - exact Ha.
  - intros html' Hh. rewrite Hresp in Hh. injection Hh as <-. exact Hplain.
  - unfold process_gumtree, fetch_gumtree_results, bind, lift.
    rewrite Hresp, load_gumtree_seen_set, gumtree_loop_closed. reflexivity.
  - exact Hfile.
Qed.

Lemma X9_process_gumtree_rerun_silent_witness :
  gumtree_matches
    (snd (process_gumtree source_config (env_of (Ok []) (Ok [bike_anchor])) fresh_world))
  = [("Road bike", "https://www.gumtree.com/p/bikes/1")]
  /\ process_gumtree source_config (env_of (Ok []) (Ok [bike_anchor]))
       (snd (process_gumtree source_config (env_of (Ok []) (Ok [bike_anchor])) fresh_world))
     = (Ok tt,
        snd (process_gumtree source_config (env_of (Ok []) (Ok [bike_anchor])) fresh_world)).
Proof.
  split; [reflexivity|].
  apply (X9_process_gumtree_rerun_silent source_config source_config
           (env_of (Ok []) (Ok [bike_anchor])) (env_of (Ok []) (Ok [bike_anchor]))
           fresh_world _ [bike_anchor]);
    [reflexivity | reflexivity | exact I | | reflexivity].
  constructor; [|constructor]. repeat split; reflexivity.
Defined.

(** ** The two pipelines are independent *)

Lemma ebay_loop_frame (cfg : Config) (seen : gset string) (items : list EbayItem)
    (g : option string) (m : list (string * string)) (s : string) :
  forall (ns : gset string) (w : World),
  ebay_loop cfg seen items ns (with_gumtree_side g m s w)
  = (fst (ebay_loop cfg seen items ns w),
     with_gumtree_side g m s (snd (ebay_loop cfg seen items ns w))).
Proof.
  induction items as [|item items IH]; intros ns w; [reflexivity|].
  cbn [ebay_loop]. unfold bind. rewrite !ebay_item_spec.
  destruct (item_link item) as [[l|]|e]; [| apply IH | reflexivity].
  destruct (bool_decide (l ∈ seen)); [apply IH|].
  destruct (is_match cfg (item_title item) (Some "ebay")
            && is_nearby cfg (item_location item)); [|apply IH].
  rewrite <- IH. reflexivity.
Qed.

Lemma process_ebay_frame (cfg : Config) (env : Env) (w : World)
    (g : option string) (m : list (string * string)) (s : string) :
  process_ebay cfg env (with_gumtree_side g m s w)
  = (fst (process_ebay cfg env w),
     with_gumtree_side g m s (snd (process_ebay cfg env w))).
Proof.
  unfold process_ebay, fetch_ebay_results, bind, lift.
  destruct (ebay_response env) as [items|e]; [|reflexivity].
  assert (Hl : load_ebay_seen (with_gumtree_side g m s w)
               = (fst (load_ebay_seen w), with_gumtree_side g m s w)).
  { unfold load_ebay_seen. cbn [with_gumtree_side set_stdout set_SEEN_GUMTREE
      set_gumtree_matches SEEN_EBAY]. destruct (SEEN_EBAY w); reflexivity. }
  rewrite Hl. pose proof (load_ebay_seen_world w) as Hw.
  destruct (load_ebay_seen w) as [[seen|e] w0]; cbn [fst snd] in *; subst w0;
    [|reflexivity].
  rewrite ebay_loop_frame.
  destruct (ebay_loop cfg seen items seen w) as [[ns|e] w1]; reflexivity.
Qed.

Lemma process_gumtree_frame (cfg : Config) (env : Env) (w : World)
    (f : option string) (m : list (string * string)) (s : string) :
  process_gumtree cfg env (with_ebay_side f m s w)
  = (fst (process_gumtree cfg env w),
     with_ebay_side f m s (snd (process_gumtree cfg env w))).
Proof.
  rewrite !process_gumtree_closed.
  destruct (gumtree_response env); reflexivity.
Qed.

(** X10.  Each pipeline reads and writes only its own part of the state.
    The outcome of [process_ebay] does not depend on the Gumtree seen-file,
    the Gumtree matches and the text printed, and it leaves them as they
    are, whether it returns or raises; likewise [process_gumtree] for the
    eBay seen-file, the eBay matches and the text printed. *)
Theorem X10_pipelines_framed (cfg : Config) (env : Env) (w : World)
    (file : option string) (m : list (string * string)) (s : string) :
  process_ebay cfg env (with_gumtree_side file m s w)
  = (fst (process_ebay cfg env w),
     with_gumtree_side file m s (snd (process_ebay cfg env w)))
  /\ process_gumtree cfg env (with_ebay_side file m s w)
     = (fst (process_gumtree cfg env w),
        with_ebay_side file m s (snd (process_gumtree cfg env w))).
Proof. split; [apply process_ebay_frame | apply process_gumtree_frame]. Qed.

Lemma with_gumtree_side_self (w w' : World) :
  SEEN_EBAY w' = SEEN_EBAY w -> ebay_matches w' = ebay_matches w ->
  with_gumtree_side (SEEN_GUMTREE w') (gumtree_matches w') (stdout w') w = w'.
Proof. destruct w, w'. cbn. intros -> ->. reflexivity. Qed.

Lemma with_ebay_side_self (w w' : World) :
  SEEN_GUMTREE w' = SEEN_GUMTREE w -> gumtree_matches w' = gumtree_matches w ->
  with_ebay_side (SEEN_EBAY w') (ebay_matches w') (stdout w') w = w'.
Proof. destruct w, w'. cbn. intros -> ->. reflexivity. Qed.

Lemma process_ebay_untouched (cfg : Config) (env : Env) (w : World) :
  SEEN_GUMTREE (snd (process_ebay cfg env w)) = SEEN_GUMTREE w
  /\ gumtree_matches (snd (process_ebay cfg env w)) = gumtree_matches w
  /\ stdout (snd (process_ebay cfg env w)) = stdout w.
Proof.
  pose proof (process_ebay_frame cfg env w (SEEN_GUMTREE w) (gumtree_matches w) (stdout w))
    as H.
  assert (Hw : with_gumtree_side (SEEN_GUMTREE w) (gumtree_matches w) (stdout w) w = w)
    by (destruct w; reflexivity).
  rewrite Hw in H. rewrite H. cbn. repeat split.
Qed.

Lemma process_gumtree_untouched (cfg : Config) (env : Env) (w : World) :
  SEEN_EBAY (snd (process_gumtree cfg env w)) = SEEN_EBAY w
  /\ ebay_matches (snd (process_gumtree cfg env w)) = ebay_matches w
  /\ stdout (snd (process_gumtree cfg env w)) = stdout w.
Proof.
  rewrite process_gumtree_closed.
  destruct (gumtree_response env); repeat split.
Qed.

(** X11.  The two pipelines commute.  When both return, running
    [process_gumtree] before [process_ebay] gives the state that [main]
    reaches by running [process_ebay] first. *)
Theorem X11_pipelines_commute (cfg : Config) (env : Env) (w : World) :
  fst (process_ebay cfg env w) = Ok tt ->
  fst (process_gumtree cfg env w) = Ok tt ->
  (process_ebay cfg env ;;; process_gumtree cfg env) w
  = (process_gumtree cfg env ;;; process_ebay cfg env) w.
Proof.
  intros He Hg. unfold bind.
  destruct (process_ebay_untouched cfg env w) as [E1 [E2 E3]].
  destruct (process_gumtree_untouched cfg env w) as [G1 [G2 G3]].
  destruct (process_ebay cfg env w) as [re we] eqn:Ee.
  destruct (process_gumtree cfg env w) as [rg wg] eqn:Eg.
  cbn [fst snd] in *. subst re rg.
  rewrite <- (with_ebay_side_self w we E1 E2) at 1.
  rewrite process_gumtree_frame, Eg. cbn [fst snd].
  rewrite <- (with_gumtree_side_self w wg G1 G2) at 2.
  rewrite process_ebay_frame, Ee. cbn [fst snd].
  f_equal. destruct w, we, wg. cbn in *. subst. reflexivity.
Qed.

Lemma X11_pipelines_commute_witness :
  (process_ebay source_config (env_of (Ok sample_page) (Ok [bike_anchor]))
     ;;; process_gumtree source_config (env_of (Ok sample_page) (Ok [bike_anchor])))
    fresh_world
  = (process_gumtree source_config (env_of (Ok sample_page) (Ok [bike_anchor]))
       ;;; process_ebay source_config (env_of (Ok sample_page) (Ok [bike_anchor])))
      fresh_world.
Proof.
  apply (X11_pipelines_commute source_config (env_of (Ok sample_page) (Ok [bike_anchor]))
           fresh_world); vm_compute; reflexivity.
Defined.

(** ** What [main] prints *)

Lemma print_matches_spec (l : list (string * string)) : forall w : World,
  print_matches l w = (Ok tt, set_stdout (stdout w ++ printed l) w).
Proof.
  induction l as [|[t u] l IH]; intros w.
  - cbn. rewrite append_empty_r. destruct w; reflexivity.
  - cbn [print_matches printed]. unfold bind, print. rewrite IH.
    unfold set_stdout. cbn. rewrite !append_assoc. reflexivity.
Qed.

Lemma main_unfold (cfg : Config) (env : Env) (w : World) :
  main cfg env w
  = match pipelines cfg env (after_clear cfg w) with
    | (Ok _, w') => (Ok tt, reported w')
    | (Raise e, w') => (Raise e, w')
    end.
Proof.
  cbv beta delta [main pipelines after_clear bind].
  assert (Hc : (if CLEAR_CACHE_ON_START cfg then clear_cache else ret tt) w
               = (Ok tt, if CLEAR_CACHE_ON_START cfg then snd (clear_cache w) else w))
    by (destruct (CLEAR_CACHE_ON_START cfg); reflexivity).
  rewrite Hc.
  destruct ((if ENABLE_EBAY cfg then process_ebay cfg env else ret tt) _)
    as [[[]|e] w1]; [|reflexivity].
  destruct ((if ENABLE_GUMTREE cfg then process_gumtree cfg env else ret tt) _)
    as [[[]|e] w2]; [|reflexivity].
  unfold reported, report.
  destruct (bool_decide (ebay_matches w2 = [])) eqn:Ee;
    [apply bool_decide_eq_true in Ee|];
    (destruct (bool_decide (gumtree_matches w2 = [])) eqn:Eg;
     [apply bool_decide_eq_true in Eg|]);
    unfold print, ret;
    repeat first
      [ rewrite print_matches_spec
      | progress cbn [set_stdout stdout ebay_matches gumtree_matches
                      SEEN_EBAY SEEN_GUMTREE]
      | progress rewrite ?Ee, ?Eg ];
    cbn [printed String.append];
    repeat rewrite append_empty_r; repeat rewrite append_assoc; reflexivity.
Qed.

Lemma pipelines_stdout (cfg : Config) (env : Env) (w : World) :
  stdout (snd (pipelines cfg env w)) = stdout w.
Proof.
  unfold pipelines, bind.
  assert (H1 : stdout (snd ((if ENABLE_EBAY cfg then process_ebay cfg env else ret tt) w))
               = stdout w).
  { destruct (ENABLE_EBAY cfg); [apply process_ebay_untouched | reflexivity]. }
  destruct ((if ENABLE_EBAY cfg then process_ebay cfg env else ret tt) w)
    as [[[]|e] w1]; cbn [snd] in *; [|exact H1].
  rewrite <- H1.
  destruct (ENABLE_GUMTREE cfg); [apply process_gumtree_untouched | reflexivity].
Qed.

Lemma after_clear_stdout (cfg : Config) (w : World) :
  stdout (after_clear cfg w) = stdout w.
Proof. unfold after_clear. destruct (CLEAR_CACHE_ON_START cfg); reflexivity. Qed.

(** X12.  What [main] prints.  When a pipeline raises, the exception leaves
    [main] and nothing is printed, also not the matches found before the
    failure.  When [main] returns, it has printed the eBay matches and then
    the Gumtree matches of the lists, each list under its heading when it
    is not empty, each match as its title, its link and an empty line. *)
Theorem X12_main_output (cfg : Config) (env : Env) (w : World) :
  match main cfg env w with
  | (Ok _, w') =>
      stdout w' = stdout w ++ report "All ebay matches!" (ebay_matches w')
                    ++ report "All gumtree matches!" (gumtree_matches w')
  | (Raise _, w') => stdout w' = stdout w
  end.
Proof.
  rewrite main_unfold.
  pose proof (pipelines_stdout cfg env (after_clear cfg w)) as Hs.
  rewrite after_clear_stdout in Hs.
  destruct (pipelines cfg env (after_clear cfg w)) as [[[]|e] w1]; cbn [snd] in Hs.
  - unfold reported. cbn. now rewrite Hs.
  - exact Hs.
Qed.

(** X13.  With [CLEAR_CACHE_ON_START], the seen-files of earlier runs have
    no effect: [main] gives the same outcome, the same matches, the same
    text and the same files, whatever the two seen-files held. *)
Theorem X13_clear_makes_history_inert (cfg : Config) (env : Env) (w : World)
    (ebay_file gumtree_file : option string) :
  CLEAR_CACHE_ON_START cfg = true ->
  main cfg env (set_SEEN_EBAY ebay_file (set_SEEN_GUMTREE gumtree_file w))
  = main cfg env w.
Proof.
  intros Hc. rewrite !main_unfold. unfold after_clear. rewrite Hc. reflexivity.
Qed.

Lemma X13_clear_makes_history_inert_witness :
  main source_config (env_of (Ok sample_page) (Ok [bike_anchor]))
    (set_SEEN_EBAY (Some "[") (set_SEEN_GUMTREE (Some "https://www.gumtree.com/p/bikes/1")
                                 fresh_world))
  = main source_config (env_of (Ok sample_page) (Ok [bike_anchor])) fresh_world.
Proof.
  apply (X13_clear_makes_history_inert source_config
           (env_of (Ok sample_page) (Ok [bike_anchor])) fresh_world).
  reflexivity.
Defined.

(** ** The identity of a link *)

Lemma has_char_take (x : ascii) (n : nat) : forall s : string,
  Py.has_char x s = false -> Py.has_char x (Py.take n s) = false.
Proof.
  induction n as [|n IH]; intros [|c s]; simpl; try reflexivity.
  destruct (ascii_dec x c); [discriminate | apply IH].
Qed.

Lemma has_char_split_once_fst (x c : ascii) (s : string) :
  Py.has_char x s = false -> Py.has_char x (fst (Py.split_once c s)) = false.
Proof.
  induction s as [|d s IH]; simpl; [reflexivity|].
  destruct (ascii_dec x d); [discriminate|]. intros H.
  destruct (ascii_dec c d); [reflexivity|].
  destruct (Py.split_once c s) as [l r]. cbn [fst] in *. simpl.
  destruct (ascii_dec x d); [contradiction | now apply IH].
Qed.

Lemma split_once_fst_clean (c : ascii) (s : string) :
  Py.has_char c (fst (Py.split_once c s)) = false.
Proof.
  induction s as [|d s IH]; simpl; [reflexivity|].
  destruct (ascii_dec c d) as [|Hn]; [reflexivity|].
  destruct (Py.split_once c s) as [l r]. cbn [fst] in *. simpl.
  destruct (ascii_dec c d); [contradiction | exact IH].
Qed.

Lemma netloc_take_clean (s : string) :
  Py.has_char "/" (Py.take (Url.netloc_end s) s) = false
  /\ Py.has_char "?" (Py.take (Url.netloc_end s) s) = false
  /\ Py.has_char "#" (Py.take (Url.netloc_end s) s) = false.
Proof.
  induction s as [|c s IH]; [repeat split|]. cbn [Url.netloc_end].
  destruct (bool_decide (c = "/"%char)) eqn:E1; [repeat split|].
  destruct (bool_decide (c = "?"%char)) eqn:E2; [repeat split|].
  destruct (bool_decide (c = "#"%char)) eqn:E3; [repeat split|].
  apply bool_decide_eq_false in E1, E2, E3. cbn [orb Py.take Py.has_char].
  destruct IH as [H1 [H2 H3]].
  destruct (ascii_dec "/" c); [congruence|].
  destruct (ascii_dec "?" c); [congruence|].
  destruct (ascii_dec "#" c); [congruence|]. repeat split; assumption.
Qed.

Lemma lower_scheme_char (c : ascii) :
  Url.is_scheme_char c = true ->
  Py.lower_char c <> "?"%char /\ Py.lower_char c <> "#"%char.
Proof. each_char c; intros H; try discriminate H; split; discriminate. Qed.

Lemma lower_scheme_clean (s : string) :
  Url.all_chars Url.is_scheme_char s = true ->
  no_query_fragment (Py.lower s).
Proof.
  unfold no_query_fragment. induction s as [|c s IH]; [now split|].
  cbn [Url.all_chars Py.lower Py.has_char]. intros H.
  apply andb_true_iff in H. destruct H as [Hc Hs].
  destruct (lower_scheme_char c Hc) as [H1 H2]. destruct (IH Hs) as [I1 I2].
  destruct (ascii_dec "?" (Py.lower_char c)); [congruence|].
  destruct (ascii_dec "#" (Py.lower_char c)); [congruence|]. now split.
Qed.

Lemma no_query_fragment_app (a b : string) :
  no_query_fragment a -> no_query_fragment b -> no_query_fragment (a ++ b).
Proof.
  unfold no_query_fragment. intros [H1 H2] [H3 H4].
  now rewrite !has_char_append, H1, H2, H3, H4.
Qed.

(** The parts that [urlsplit] returns as scheme, netloc and path hold no
    [?] and no [#]. *)
Lemma urlsplit_parts_clean (url : string) (r : Url.SplitResult) :
  Url.urlsplit url = Ok r ->
  no_query_fragment (Url.sr_scheme r)
  /\ no_query_fragment (Url.sr_netloc r)
  /\ no_query_fragment (Url.sr_path r).
Proof.
  unfold Url.urlsplit.
  assert (Hsch : no_query_fragment (fst (Url.split_scheme (Url.clean_url url)))).
  { unfold Url.split_scheme.
    destruct (_ && _ && Url.all_chars Url.is_scheme_char _) eqn:E; cbn [fst];
      [|now split].
    apply andb_true_iff in E. destruct E as [_ E]. now apply lower_scheme_clean. }
  assert (Hpath : forall sch nl u,
            no_query_fragment (Url.sr_path (Url.split_query_fragment sch nl u))).
  { intros sch nl u. destruct (split_query_fragment_path sch nl u) as [_ [_ ->]].
    cbv zeta.
    assert (H : Py.has_char "#"
                  (if Py.has_char "#" u then fst (Py.split_once "#" u) else u) = false).
    { destruct (Py.has_char "#" u) eqn:E; [apply split_once_fst_clean | exact E]. }
    set (u' := if Py.has_char "#" u then fst (Py.split_once "#" u) else u) in *.
    destruct (Py.has_char "?" u') eqn:E; split.
    + apply split_once_fst_clean.
    + now apply has_char_split_once_fst.
    + exact E.
    + exact H. }
  destruct (Url.split_scheme (Url.clean_url url)) as [sch u]. cbn [fst] in Hsch.
  destruct (bool_decide (Py.take 2 u = "//")).
  - destruct (Url.splitnetloc2 u) as [nl u3] eqn:En.
    assert (Hnl : nl = Py.take (Url.netloc_end (Py.drop 2 u)) (Py.drop 2 u))
      by (unfold Url.splitnetloc2 in En; congruence).
    destruct (Url.netloc_error nl); [discriminate|]. intros [= <-].
    destruct (split_query_fragment_path sch nl u3) as [H1 [H2 _]].
    rewrite H1, H2.
    split; [exact Hsch|]. split; [|apply Hpath].
    rewrite Hnl. destruct (netloc_take_clean (Py.drop 2 u)) as [_ [H3 H4]]. now split.
  - intros [= <-].
    destruct (split_query_fragment_path sch "" u) as [H1 [H2 _]]. rewrite H1, H2.
    split; [exact Hsch|]. split; [now split | apply Hpath].
Qed.

Lemma splitparams_clean (p : string) :
  no_query_fragment p ->
  no_query_fragment (fst (Url.splitparams p))
  /\ no_query_fragment (snd (Url.splitparams p)).
Proof.
  intros [H1 H2]. unfold Url.splitparams.
  destruct (Py.has_char "/" p).
  - destruct (_ <? 0); cbn [fst snd]; [now repeat split|].
    repeat split; (apply has_char_take || apply has_char_drop); assumption.
  - cbn [fst snd].
    repeat split; (apply has_char_take || apply has_char_drop); assumption.
Qed.

Lemma urlunsplit_clean (sch nl url : string) :
  no_query_fragment sch -> no_query_fragment nl -> no_query_fragment url ->
  no_query_fragment (Url.urlunsplit sch nl url "" "").
Proof.
  intros Hs Hn Hu. unfold Url.urlunsplit.
  rewrite (bool_decide_eq_true_2 (@eq string "" "")) by reflexivity. cbn [negb].
  assert (Hslash : no_query_fragment "/") by now split.
  assert (Hss : no_query_fragment "//") by now split.
  assert (Hcolon : no_query_fragment ":") by now split.
  assert (H1 : no_query_fragment
                 (if negb (bool_decide (url = "")) && negb (bool_decide (Py.take 1 url = "/"))
                  then "/" ++ url else url)).
  { destruct (_ && _); [now apply no_query_fragment_app | exact Hu]. }
  assert (H2 : no_query_fragment
                 (if negb (bool_decide (nl = ""))
                     || (negb (bool_decide (sch = "")) && bool_decide (sch ∈ Url.uses_netloc)
                         && negb (bool_decide (Py.take 2 url = "//")))
                  then "//" ++ nl ++
                       (if negb (bool_decide (url = ""))
                           && negb (bool_decide (Py.take 1 url = "/"))
                        then "/" ++ url else url)
                  else url)).
  { destruct (_ || _); [|exact Hu].
    apply no_query_fragment_app; [exact Hss|]. now apply no_query_fragment_app. }
  destruct (negb (bool_decide (sch = ""))); [|exact H2].
  apply no_query_fragment_app; [exact Hs|]. now apply no_query_fragment_app.
Qed.

(** X14.  The identity of a link holds no query and no fragment: whenever
    [normalize_ebay_url] returns, its result has no [?] and no [#]. *)
Theorem X14_normalized_has_no_query (href r : string) :
  normalize_ebay_url href = Ok r -> no_query_fragment r.
Proof.
  unfold normalize_ebay_url, Url.urlparse.
  destruct (Url.urlsplit href) as [sr|e] eqn:Es; [|discriminate].
  destruct (urlsplit_parts_clean _ _ Es) as [Hs [Hn Hp]].
  destruct (splitparams_clean _ Hp) as [Hp1 Hp2].
  assert (Hsemi : no_query_fragment ";") by now split.
  destruct (bool_decide (Url.sr_scheme sr ∈ Url.uses_params)
            && Py.has_char ";" (Url.sr_path sr)).
  - destruct (Url.splitparams (Url.sr_path sr)) as [u p]. cbn [fst snd] in *.
    intros [= <-]. unfold Url.urlunparse, Url.replace_query_fragment.
    cbn [Url.scheme Url.netloc Url.path Url.params Url.query Url.fragment].
    apply urlunsplit_clean; [exact Hs | exact Hn |].
    destruct (negb (bool_decide (p = ""))); [|exact Hp1].
    apply no_query_fragment_app; [exact Hp1|]. now apply no_query_fragment_app.
  - intros [= <-]. unfold Url.urlunparse, Url.replace_query_fragment.
    cbn [Url.scheme Url.netloc Url.path Url.params Url.query Url.fragment].
    rewrite (bool_decide_eq_true_2 (@eq string "" "")) by reflexivity. cbn [negb].
    now apply urlunsplit_clean.
Qed.

Lemma X14_normalized_has_no_query_witness :
  normalize_ebay_url "https://x/item;v=1?id=1#top" = Ok "https://x/item;v=1"
  /\ no_query_fragment "https://x/item;v=1".
Proof.
  split; [reflexivity|].
  apply (X14_normalized_has_no_query "https://x/item;v=1?id=1#top" "https://x/item;v=1").
  reflexivity.
Defined.





(** ** Plain web links *)










(** ** The bounds of the ratio *)

Lemma scan_js_inside (i blo bhi : Z) (j2len : gmap Z Z) (js : list Z) :
  runs_inside blo bhi j2len ->
  forall (newj2len : gmap Z Z) (bst : Difflib.best),
  runs_inside blo bhi newj2len -> best_inside blo bhi bst ->
  let r := Difflib.scan_js i blo bhi j2len js newj2len bst in
  runs_inside blo bhi (fst r) /\ best_inside blo bhi (snd r).
Proof.
  intros Hold. induction js as [|j js IH]; intros new bst Hnew Hb; cbn [Difflib.scan_js].
  - cbn [fst snd]. auto.
  - destruct (j <? blo) eqn:E1; [now apply IH|].
    destruct (bhi <=? j) eqn:E2; [cbn [fst snd]; auto|].
    apply Z.ltb_ge in E1. apply Z.leb_gt in E2.
    assert (Hk : 1 <= default 0 (j2len !! (j - 1)) + 1
                 /\ blo <= j - (default 0 (j2len !! (j - 1)) + 1) + 1).
    { destruct (j2len !! (j - 1)) as [v|] eqn:E; simpl.
      - destruct (Hold _ _ E) as [? [? ?]]. lia.
      - lia. }
    apply IH.
    + intros j' v. rewrite lookup_insert. case_decide; [|apply Hnew].
      intros [= <-]. subst j'. lia.
    + destruct Hb as [Hb1 Hb2]. unfold best_inside.
      destruct (Difflib.bestsize bst <? _); cbn [Difflib.bestj Difflib.bestsize]; lia.
Qed.

Lemma scan_is_inside (a b : list ascii) (blo bhi : Z) (is_ : list Z) :
  forall (j2len : gmap Z Z) (bst : Difflib.best),
  runs_inside blo bhi j2len -> best_inside blo bhi bst ->
  best_inside blo bhi (Difflib.scan_is a b blo bhi is_ j2len bst).
Proof.
  induction is_ as [|i is_ IH]; intros j2len bst Hold Hb; cbn [Difflib.scan_is];
    [exact Hb|].
  pose proof (scan_js_inside i blo bhi j2len (Difflib.b2j b (Difflib.at_ a i)) Hold
                ∅ bst) as Hjs.
  destruct (Difflib.scan_js i blo bhi j2len _ ∅ bst) as [new bst'].
  cbn [fst snd] in Hjs. destruct Hjs as [Hnew Hb']; [|exact Hb|now apply IH].
  intros j v. rewrite lookup_empty. discriminate.
Qed.

Lemma extend_left_inside (a b : list ascii) (alo blo bhi : Z) (junk : bool) (fuel : nat) :
  forall bst : Difflib.best,
  best_inside blo bhi bst ->
  best_inside blo bhi (Difflib.extend_left fuel a b alo blo junk bst).
Proof.
  induction fuel as [|fuel IH]; intros bst Hb; cbn [Difflib.extend_left]; [exact Hb|].
  destruct ((alo <? Difflib.besti bst) && (blo <? Difflib.bestj bst)) eqn:E;
    cbn [andb]; [|exact Hb].
  destruct (Bool.eqb _ junk && bool_decide _); [|exact Hb].
  apply andb_true_iff in E. destruct E as [_ E]. apply Z.ltb_lt in E.
  apply IH. destruct Hb as [H1 H2]. unfold best_inside.
  cbn [Difflib.bestj Difflib.bestsize]. lia.
Qed.

Lemma extend_right_inside (a b : list ascii) (ahi blo bhi : Z) (junk : bool) (fuel : nat) :
  forall bst : Difflib.best,
  best_inside blo bhi bst ->
  best_inside blo bhi (Difflib.extend_right fuel a b ahi bhi junk bst).
Proof.
  induction fuel as [|fuel IH]; intros bst Hb; cbn [Difflib.extend_right]; [exact Hb|].
  destruct ((Difflib.besti bst + Difflib.bestsize bst <? ahi)
            && (Difflib.bestj bst + Difflib.bestsize bst <? bhi)) eqn:E;
    cbn [andb]; [|exact Hb].
  destruct (Bool.eqb _ junk && bool_decide _); [|exact Hb].
  apply andb_true_iff in E. destruct E as [_ E]. apply Z.ltb_lt in E.
  apply IH. destruct Hb as [H1 H2]. unfold best_inside.
  cbn [Difflib.bestj Difflib.bestsize]. lia.
Qed.

(** [find_longest_match] returns a block inside [b[blo:bhi]]. *)
Lemma find_longest_match_inside (a b : list ascii) (alo ahi blo bhi : Z) :
  blo <= bhi ->
  best_inside blo bhi (Difflib.find_longest_match a b alo ahi blo bhi).
Proof.
  intros Hle. unfold Difflib.find_longest_match.
  apply extend_right_inside, extend_left_inside, extend_right_inside,
    extend_left_inside, scan_is_inside.
  - intros j v. rewrite lookup_empty. discriminate.
  - unfold best_inside. cbn. lia.
Qed.

Lemma sum_sizes_snoc (blocks : list (Z * Z * Z)) (x : Z * Z * Z) :
  sum_sizes (blocks ++ [x]) = sum_sizes blocks + snd x.
Proof.
  unfold sum_sizes. induction blocks as [|y blocks IH]; cbn [app map foldr]; lia.
Qed.

(** The blocks that the loop adds have sizes that are not negative and
    fit, together, into the rows of [a] and into the rows of [b] that the
    queue spans. *)
Lemma blocks_loop_sum (a b : list ascii) (fuel : nat) :
  forall (queue : list (Z * Z * Z * Z)) (blocks : list (Z * Z * Z)),
  queue_ranges queue ->
  let r := Difflib.blocks_loop fuel a b queue blocks in
  sum_sizes blocks <= sum_sizes r
  /\ sum_sizes r <= sum_sizes blocks + a_room queue
  /\ sum_sizes r <= sum_sizes blocks + b_room queue.
Proof.
  assert (Hroom : forall q, queue_ranges q -> 0 <= a_room q /\ 0 <= b_room q).
  { induction 1 as [|[[[alo ahi] blo] bhi] q [H1 H2] _ IH]; cbn [a_room b_room];
      cbn in *; lia. }
  induction fuel as [|fuel IH]; intros queue blocks Hok; cbv zeta.
  - destruct (Hroom queue Hok). destruct queue as [|[[[alo ahi] blo] bhi] queue];
      cbn [Difflib.blocks_loop]; lia.
  - destruct queue as [|[[[alo ahi] blo] bhi] queue]; cbn [Difflib.blocks_loop].
    + cbn [a_room b_room]. lia.
    + apply Forall_cons in Hok. destruct Hok as [[Hla Hlb] Hq]. cbn in Hla, Hlb.
      destruct (Hroom queue Hq) as [Hra Hrb].
      destruct (find_longest_match_bounds a b alo ahi blo bhi Hla) as [A1 [A2 [A3 _]]].
      destruct (find_longest_match_inside a b alo ahi blo bhi Hlb) as [B1 B2].
      set (x := Difflib.find_longest_match a b alo ahi blo bhi) in *.
      cbn [a_room b_room].
      destruct (Difflib.bestsize x =? 0) eqn:Ek.
      * specialize (IH queue blocks Hq). cbv zeta in IH. lia.
      * match goal with |- context [Difflib.blocks_loop fuel a b ?q ?bl] =>
          assert (Hq' : queue_ranges q /\ a_room q + Difflib.bestsize x
                                           <= (ahi - alo) + a_room queue
                        /\ b_room q + Difflib.bestsize x <= (bhi - blo) + b_room queue);
          [|specialize (IH q bl (proj1 Hq')); cbv zeta in IH;
            rewrite sum_sizes_snoc in IH; cbn [snd] in IH; lia]
        end.
        destruct ((alo <? Difflib.besti x) && (blo <? Difflib.bestj x)) eqn:E1;
          destruct ((Difflib.besti x + Difflib.bestsize x <? ahi)
                    && (Difflib.bestj x + Difflib.bestsize x <? bhi)) eqn:E2;
          try (apply andb_true_iff in E1; destruct E1 as [E1a E1b];
               apply Z.ltb_lt in E1a, E1b);
          try (apply andb_true_iff in E2; destruct E2 as [E2a E2b];
               apply Z.ltb_lt in E2a, E2b);
          (split; [repeat (constructor; [cbn; lia|]); exact Hq
                  | cbn [a_room b_room]; lia]).
Qed.

Lemma sum_sizes_perm (l1 l2 : list (Z * Z * Z)) :
  l1 ≡ₚ l2 -> sum_sizes l1 = sum_sizes l2.
Proof.
  unfold sum_sizes. induction 1; cbn [map foldr]; lia.
Qed.

Lemma collapse_sum (blocks : list (Z * Z * Z)) :
  forall (i1 j1 k1 : Z) (acc : list (Z * Z * Z)),
  let r := Difflib.collapse blocks i1 j1 k1 acc in
  sum_sizes (fst r) + snd (snd r) = sum_sizes acc + k1 + sum_sizes blocks.
Proof.
  induction blocks as [|[[i2 j2] k2] blocks IH]; intros i1 j1 k1 acc; cbv zeta.
  - cbn. unfold sum_sizes. cbn. lia.
  - cbn [Difflib.collapse].
    assert (Hc : sum_sizes ((i2, j2, k2) :: blocks) = k2 + sum_sizes blocks)
      by reflexivity.
    rewrite Hc.
    destruct ((i1 + k1 =? i2) && (j1 + k1 =? j2)).
    + specialize (IH i1 j1 (k1 + k2) acc). cbv zeta in IH. lia.
    + destruct (k1 =? 0) eqn:Ek.
      * apply Z.eqb_eq in Ek. specialize (IH i2 j2 k2 acc). cbv zeta in IH. lia.
      * specialize (IH i2 j2 k2 (acc ++ [(i1, j1, k1)])%list). cbv zeta in IH.
        rewrite sum_sizes_snoc in IH. cbn [snd] in IH. lia.
Qed.

(** The number of matched characters is not negative and at most the
    length of each of the two sequences. *)
Lemma matches_bounds (a b : list ascii) :
  let m := sum_sizes (Difflib.get_matching_blocks a b) in
  0 <= m /\ m <= Difflib.llen a /\ m <= Difflib.llen b.
Proof.
  cbv zeta. unfold Difflib.get_matching_blocks.
  pose proof (blocks_loop_sum a b (2 * length a + 1)
                [(0, Difflib.llen a, 0, Difflib.llen b)] []) as Hs.
  cbv zeta in Hs. cbn [a_room b_room] in Hs.
  assert (Hq : queue_ranges [(0, Difflib.llen a, 0, Difflib.llen b)])
    by (constructor; [cbn; unfold Difflib.llen; lia | constructor]).
  specialize (Hs Hq).
  set (bl := Difflib.blocks_loop _ a b _ []) in *.
  pose proof (sum_sizes_perm _ _ (merge_sort_Permutation Difflib.triple_le bl)) as Hp.
  pose proof (collapse_sum (merge_sort Difflib.triple_le bl) 0 0 0 []) as Hc.
  cbv zeta in Hc.
  destruct (Difflib.collapse (merge_sort Difflib.triple_le bl) 0 0 0 [])
    as [na [[i1 j1] k1]].
  cbn [fst snd] in Hc. rewrite sum_sizes_snoc. cbn [snd].
  assert (Hn : sum_sizes (if k1 =? 0 then na else (na ++ [(i1, j1, k1)])%list)
               = sum_sizes na + k1).
  { destruct (k1 =? 0) eqn:Ek; [apply Z.eqb_eq in Ek; lia|].
    now rewrite sum_sizes_snoc. }
  rewrite Hn. change (sum_sizes []) with 0 in *. lia.
Qed.

(** The ratio lies between 0 and 1. *)
Lemma ratio_bounds (a b : string) : (0 <= Difflib.ratio a b <= 1)%Q.
Proof.
  unfold Difflib.ratio, Difflib.ratio_seq.
  pose proof (matches_bounds (list_ascii_of_string a) (list_ascii_of_string b)) as Hm.
  cbv zeta in Hm. unfold sum_sizes in Hm.
  set (m := foldr Z.add 0 _) in *.
  set (la := Difflib.llen (list_ascii_of_string a)) in *.
  set (lb := Difflib.llen (list_ascii_of_string b)) in *.
  unfold Difflib.calculate_ratio.
  destruct (la + lb =? 0) eqn:E; [split; discriminate|].
  apply Z.eqb_neq in E.
  assert (Hpos : 0 < la + lb) by lia.
  destruct (la + lb) as [|p|p] eqn:Ep; try lia.
  unfold Qle, Qdiv, Qmult, Qinv, inject_Z. cbn. split; nia.
Qed.

(** X17.  The thresholds at their extremes.  The ratio of two strings lies
    between 0 and 1, and a title matches a known term only when the ratio
    is above the threshold.  So with a threshold of 1 or more no known term
    ever matches, not even a title equal to it, and only the keywords of
    Gumtree are left; with a threshold below 0 and at least one known term
    every title matches. *)
Theorem X17_threshold_extremes (cfg : Config) (t : string) (website : option string) :
  (forall known, (0 <= Difflib.ratio (Py.lower t) (Py.lower known) <= 1)%Q)
  /\ ((1 <= RATIO cfg website)%Q ->
      is_match cfg t website
      = bool_decide (website = Some "gumtree")
        && keyword_loop (Py.lower t) (SEARCH_KEYWORDS cfg))
  /\ ((RATIO cfg website < 0)%Q -> KNOWN_BIKES cfg <> [] ->
      is_match cfg t website = true).
Proof.
  split; [intros known; apply ratio_bounds|]. rewrite is_match_paths. split.
  - intros Hhigh.
    destruct (known_loop cfg (Py.lower t) website (KNOWN_BIKES cfg)) eqn:Ek;
      [|reflexivity].
    apply known_loop_spec in Ek. destruct Ek as [known [_ Hlt]].
    destruct (ratio_bounds (Py.lower t) (Py.lower known)) as [_ Hle].
    exfalso. apply (Qlt_not_le _ _ Hlt). now apply (Qle_trans _ 1).
  - intros Hlow Hne.
    destruct (KNOWN_BIKES cfg) as [|known rest] eqn:Eb; [contradiction|].
    assert (Hk : known_loop cfg (Py.lower t) website (known :: rest) = true).
    { apply known_loop_spec. exists known. split; [now left|].
      destruct (ratio_bounds (Py.lower t) (Py.lower known)) as [Hge _].
      now apply (Qlt_le_trans _ 0). }
    now rewrite Hk.
Qed.

Lemma X17_threshold_extremes_witness :
  (1 <= RATIO (with_ratios source_config 1 1) (Some "ebay"))%Q
  /\ is_match (with_ratios source_config 1 1) "Trek" (Some "ebay") = false
  /\ (RATIO (with_ratios source_config (-1 # 10) (5 # 100)) (Some "ebay") < 0)%Q
  /\ is_match (with_ratios source_config (-1 # 10) (5 # 100)) "" (Some "ebay") = true.
Proof.
  assert (H1 : (1 <= RATIO (with_ratios source_config 1 1) (Some "ebay"))%Q)
    by (vm_compute; discriminate).
  assert (H2 : (RATIO (with_ratios source_config (-1 # 10) (5 # 100)) (Some "ebay") < 0)%Q)
    by reflexivity.
  split; [exact H1|]. split.
  - rewrite (proj1 (proj2 (X17_threshold_extremes (with_ratios source_config 1 1) "Trek"
                             (Some "ebay"))) H1).
    reflexivity.
  - split; [exact H2|].
    apply (proj2 (proj2 (X17_threshold_extremes
                           (with_ratios source_config (-1 # 10) (5 # 100)) ""
                           (Some "ebay"))) H2).
    discriminate.
Defined.

(** ** The two readings of the location mode *)

Lemma is_match_location_mode (cfg : Config) (mode t : string) (website : option string) :
  is_match (with_location_mode cfg mode) t website = is_match cfg t website.
Proof.
  rewrite !is_match_paths. cbn [with_location_mode KNOWN_BIKES SEARCH_KEYWORDS].
  f_equal. induction (KNOWN_BIKES cfg) as [|known rest IH]; [reflexivity|].
  cbn [known_loop]. now rewrite IH.
Qed.

(** X18.  The location mode is read in two ways.  The listings of Gumtree
    are never tested for their location: on the same page
    [process_gumtree] does the same in every mode, and the mode only
    chooses the location of the request, [united-kingdom] unless the mode
    is [edinburgh].  The items of eBay are tested in every mode but
    [anywhere].  So in a mode that is neither of the two words, eBay is
    restricted to Edinburgh while Gumtree is searched in the whole
    country. *)
Theorem X18_location_mode_readings (cfg : Config) (mode : string) (env : Env) (w : World) :
  process_gumtree (with_location_mode cfg mode) env w = process_gumtree cfg env w
  /\ (mode <> "edinburgh" ->
      gumtree_search_url (with_location_mode cfg mode)
      = "https://www.gumtree.com/search?search_category=bicycles&search_location=united-kingdom&q="
        ++ Py.join "+" (SEARCH_KEYWORDS cfg))
  /\ (mode <> "anywhere" ->
      forall location,
        is_nearby (with_location_mode cfg mode) location = true
        <-> exists pre post, Py.lower location = pre ++ "edinburgh" ++ post).
Proof.
  split; [|split].
  - rewrite !process_gumtree_closed.
    destruct (gumtree_response env) as [html|e]; [|reflexivity].
    unfold gumtree_done, gumtree_emitted. do 5 f_equal.
    apply List.filter_ext. intros it. apply is_match_location_mode.
  - intros Hm. unfold gumtree_search_url, gumtree_search_location.
    cbn [with_location_mode LOCATION_MODE SEARCH_KEYWORDS].
    rewrite bool_decide_eq_false_2 by exact Hm. reflexivity.
  - intros Hm location. unfold is_nearby. cbn [with_location_mode LOCATION_MODE].
    rewrite bool_decide_eq_false_2 by exact Hm. apply contains_spec.
Qed.

Lemma X18_location_mode_readings_witness :
  gumtree_search_url (with_location_mode source_config "Edinburgh")
  = "https://www.gumtree.com/search?search_category=bicycles&search_location=united-kingdom&q=bike"
  /\ is_nearby (with_location_mode source_config "Edinburgh") "Leith, Edinburgh" = true
  /\ is_nearby (with_location_mode source_config "Edinburgh") "Glasgow" = false.
Proof.
  pose proof (X18_location_mode_readings source_config "Edinburgh" (env_of (Ok []) (Ok []))
                fresh_world) as [_ [H1 H2]].
  split; [apply H1; discriminate|]. split.
  - apply H2; [discriminate|]. exists "leith, ", "". reflexivity.
  - reflexivity.
Defined.

(** ** A run of [main] with the switches of the source *)

(** X19.  A run of [main] with the switches of the source.  With the
    cache cleared at the start and both pipelines enabled, when both
    requests return and every item of the eBay page has a usable link,
    [main] returns, and what it appends and prints is decided by the two
    pages alone: the matching items of the eBay page and the matching
    listings of the Gumtree page, each in the order of its page, whatever
    earlier runs have stored. *)
Theorem X19_main_end_to_end (cfg : Config) (env : Env) (w : World)
    (items : list EbayItem) (html : list Tag) :
  CLEAR_CACHE_ON_START cfg = true ->
  ENABLE_EBAY cfg = true ->
  ENABLE_GUMTREE cfg = true ->
  ebay_response env = Ok items ->
  Forall well_linked items ->
  gumtree_response env = Ok html ->
  let em := (ebay_matches w ++ ebay_emitted cfg ∅ items)%list in
  let gm := (gumtree_matches w ++ gumtree_emitted cfg ∅ (parse_gumtree html))%list in
  exists w',
    main cfg env w = (Ok tt, w')
    /\ ebay_matches w' = em
    /\ gumtree_matches w' = gm
    /\ stdout w'
       = stdout w ++ report "All ebay matches!" em ++ report "All gumtree matches!" gm.
Proof.
  intros Hc He Hg Hresp Hwl Hhtml. cbv zeta.
  rewrite main_unfold. unfold after_clear, pipelines, bind. rewrite Hc, He, Hg.
  destruct (process_ebay_closed cfg env (snd (clear_cache w)) items ∅ Hresp eq_refl Hwl)
    as [ns [Hrun _]].
  rewrite Hrun, process_gumtree_closed, Hhtml.
  eexists. split; [reflexivity|]. repeat split.
Qed.

Lemma X19_main_end_to_end_witness :
  exists w',
    main source_config (env_of (Ok sample_page) (Ok [bike_anchor]))
      (set_SEEN_GUMTREE (Some ("https://www.gumtree.com/p/bikes/1" ++ String "010" ""))
         seen_world)
    = (Ok tt, w')
    /\ ebay_matches w'
       = [("Trek Marlin 5", "https://www.ebay.co.uk/itm/1");
          ("", "https://www.ebay.co.uk/itm/2")]
    /\ gumtree_matches w' = [("Road bike", "https://www.gumtree.com/p/bikes/1")]
    /\ stdout w'
       = "" ++ report "All ebay matches!"
                 [("Trek Marlin 5", "https://www.ebay.co.uk/itm/1");
                  ("", "https://www.ebay.co.uk/itm/2")]
            ++ report "All gumtree matches!"
                 [("Road bike", "https://www.gumtree.com/p/bikes/1")].
Proof.
  assert (Hwl : Forall well_linked sample_page)
    by (repeat constructor; eexists; reflexivity).
  exact (X19_main_end_to_end source_config (env_of (Ok sample_page) (Ok [bike_anchor]))
           (set_SEEN_GUMTREE (Some ("https://www.gumtree.com/p/bikes/1" ++ String "010" ""))
              seen_world)
           sample_page [bike_anchor] eq_refl eq_refl eq_refl eq_refl Hwl eq_refl).
Defined.

(** ** The ratio of a string with itself *)

Lemma positions_spec (x : ascii) (b : list ascii) : forall (j0 j : Z),
  In j (Difflib.positions x b j0) ->
  j0 <= j < j0 + Difflib.llen b /\ Difflib.at_ b (j - j0) = x.
Proof.
  unfold Difflib.llen, Difflib.at_.
  induction b as [|y b IH]; intros j0 j Hin; cbn [Difflib.positions] in Hin; [destruct Hin|].
  assert (Htail : In j (Difflib.positions x b (j0 + 1)) ->
            j0 <= j < j0 + Z.of_nat (length (y :: b))
            /\ nth (Z.to_nat (j - j0)) (y :: b) Ascii.zero = x).
  { intros H. destruct (IH _ _ H) as [Hr Hc]. cbn [length]. split; [lia|].
    replace (Z.to_nat (j - j0)) with (S (Z.to_nat (j - (j0 + 1)))) by lia. exact Hc. }
  destruct (ascii_dec x y) as [->|Hne]; [|now apply Htail].
  destruct Hin as [<-|Hin]; [|now apply Htail].
  cbn [length]. split; [lia|]. now rewrite Z.sub_diag.
Qed.

Lemma positions_complete (x : ascii) (b : list ascii) : forall (j0 t : Z),
  0 <= t < Difflib.llen b -> Difflib.at_ b t = x ->
  In (j0 + t) (Difflib.positions x b j0).
Proof.
  unfold Difflib.llen, Difflib.at_.
  induction b as [|y b IH]; intros j0 t Ht Hc; cbn [length] in Ht; [lia|].
  cbn [Difflib.positions].
  destruct (Z.eq_dec t 0) as [->|Hnz].
  - change (Z.to_nat 0) with O in Hc. cbn [nth] in Hc. subst y.
    destruct (ascii_dec x x); [|contradiction]. left. lia.
  - assert (Hin : In (j0 + t) (Difflib.positions x b (j0 + 1))).
    { replace (j0 + t) with (j0 + 1 + (t - 1)) by lia. apply IH; [lia|].
      replace (Z.to_nat t) with (S (Z.to_nat (t - 1))) in Hc by lia. exact Hc. }
    destruct (ascii_dec x y); [now right | exact Hin].
Qed.

Lemma positions_sorted (x : ascii) (b : list ascii) : forall j0 : Z,
  StronglySorted Z.lt (Difflib.positions x b j0).
Proof.
  induction b as [|y b IH]; intros j0; cbn [Difflib.positions]; [constructor|].
  destruct (ascii_dec x y); [|apply IH].
  constructor; [apply IH|]. apply List.Forall_forall. intros j Hj.
  apply positions_spec in Hj. lia.
Qed.

Lemma unpopular_run_step (s : list ascii) (t : Z) :
  0 <= t ->
  unpopular_run s t
  = if Difflib.popular s (Difflib.at_ s t) then 0 else unpopular_run s (t - 1) + 1.
Proof.
  intros Ht. unfold unpopular_run, Difflib.at_.
  replace (t <? 0) with false by (symmetry; apply Z.ltb_ge; lia).
  destruct (Z.eq_dec t 0) as [->|Hnz].
  - change (Z.to_nat 0) with O. change (0 - 1 <? 0) with true.
    cbn [unpopular_run_nat]. destruct (Difflib.popular s _); reflexivity.
  - replace (t - 1 <? 0) with false by (symmetry; apply Z.ltb_ge; lia).
    replace (Z.to_nat t) with (S (Z.to_nat (t - 1))) by lia.
    cbn [unpopular_run_nat]. reflexivity.
Qed.

Lemma unpopular_run_bounds (s : list ascii) (t : Z) :
  0 <= unpopular_run s t /\ (-1 <= t -> unpopular_run s t <= t + 1).
Proof.
  unfold unpopular_run. destruct (t <? 0) eqn:E; [lia|]. apply Z.ltb_ge in E.
  assert (H : forall n, 0 <= unpopular_run_nat s n <= Z.of_nat n + 1).
  { induction n as [|n IH]; cbn [unpopular_run_nat];
      destruct (Difflib.popular s _); lia. }
  specialize (H (Z.to_nat t)). lia.
Qed.

(** One row of the scan of a sequence against itself, at a character that
    is not popular: the best block stays on the diagonal, and the entry of
    the diagonal is the run that ends there. *)
Lemma scan_js_own (s : list ascii) (i n : Z) (j2len : gmap Z Z) :
  n = Difflib.llen s -> 0 <= i < n ->
  Difflib.popular s (Difflib.at_ s i) = false ->
  own_rows s i j2len ->
  forall (js : list Z) (new : gmap Z Z) (bst : Difflib.best),
  StronglySorted Z.lt js ->
  (forall j, In j js -> 0 <= j < n /\ Difflib.at_ s j = Difflib.at_ s i) ->
  (forall j v, new !! j = Some v ->
     1 <= v /\ v <= unpopular_run s j /\ v <= unpopular_run s i) ->
  Difflib.besti bst = Difflib.bestj bst ->
  0 <= Difflib.besti bst -> 0 <= Difflib.bestsize bst ->
  Difflib.besti bst + Difflib.bestsize bst <= i + 1 ->
  (forall t, 0 <= t < i -> unpopular_run s t <= Difflib.bestsize bst) ->
  ((In i js /\ new !! i = None)
   \/ ((forall j, In j js -> i < j) /\ new !! i = Some (unpopular_run s i)
       /\ unpopular_run s i <= Difflib.bestsize bst)) ->
  let r := Difflib.scan_js i 0 n j2len js new bst in
  (forall j v, fst r !! j = Some v ->
     1 <= v /\ v <= unpopular_run s j /\ v <= unpopular_run s i)
  /\ fst r !! i = Some (unpopular_run s i)
  /\ own_best s (i + 1) (snd r).
Proof.
  intros Hn Hi Hpop [Hrows Hdiag].
  assert (Hrun_i : unpopular_run s i = unpopular_run s (i - 1) + 1)
    by (rewrite unpopular_run_step by lia; now rewrite Hpop).
  induction js as [|j js IH]; intros new bst Hsort Hjs Hnew Hd Hb0 Hs0 Hbi Hall Hstat;
    cbv zeta; cbn [Difflib.scan_js].
  - destruct Hstat as [[[] _]|[_ [Hni Hle]]]. cbn [fst snd].
    split; [exact Hnew|]. split; [exact Hni|].
    unfold own_best. repeat (split; [assumption || lia|]).
    intros t Ht. destruct (Z.eq_dec t i) as [->|Hne]; [exact Hle | apply Hall; lia].
  - apply StronglySorted_inv in Hsort. destruct Hsort as [Hsort Hlt].
    destruct (Hjs j (or_introl eq_refl)) as [Hj Hc].
    replace (j <? 0) with false by (symmetry; apply Z.ltb_ge; lia).
    replace (n <=? j) with false by (symmetry; apply Z.leb_gt; lia).
    assert (Hrun_j : unpopular_run s j = unpopular_run s (j - 1) + 1)
      by (rewrite unpopular_run_step by lia; now rewrite Hc, Hpop).
    set (k := default 0 (j2len !! (j - 1)) + 1).
    assert (Hk : 1 <= k /\ k <= unpopular_run s j /\ k <= unpopular_run s i).
    { subst k. destruct (j2len !! (j - 1)) as [v|] eqn:E; cbn [default from_option id].
      - destruct (Hrows _ _ E) as [H1 [H2 H3]]. lia.
      - pose proof (proj1 (unpopular_run_bounds s (j - 1))).
        pose proof (proj1 (unpopular_run_bounds s (i - 1))). lia. }
    assert (Hnew' : forall j' v, <[j := k]> new !! j' = Some v ->
              1 <= v /\ v <= unpopular_run s j' /\ v <= unpopular_run s i).
    { intros j' v. rewrite lookup_insert. case_decide; [|apply Hnew].
      intros [= <-]. subst j'. exact Hk. }
    assert (Htail : forall j', In j' js -> 0 <= j' < n /\ Difflib.at_ s j' = Difflib.at_ s i)
      by (intros j' Hj'; apply Hjs; now right).
    destruct (Z.eq_dec j i) as [Heq|Hne].
    + subst j.
      assert (Hki : k = unpopular_run s i) by (subst k; rewrite Hdiag; lia).
      pose proof (proj2 (unpopular_run_bounds s i) ltac:(lia)) as Hub.
      apply IH; try assumption.
      * destruct (Difflib.bestsize bst <? k); cbn [Difflib.besti Difflib.bestj]; congruence.
      * destruct (Difflib.bestsize bst <? k); cbn [Difflib.besti]; lia.
      * destruct (Difflib.bestsize bst <? k); cbn [Difflib.bestsize]; lia.
      * destruct (Difflib.bestsize bst <? k); cbn [Difflib.besti Difflib.bestsize]; lia.
      * intros t Ht. specialize (Hall t Ht).
        destruct (Difflib.bestsize bst <? k) eqn:E; cbn [Difflib.bestsize]; [|exact Hall].
        apply Z.ltb_lt in E. lia.
      * right. split; [|split].
        -- intros j' Hj'. rewrite List.Forall_forall in Hlt. now apply Hlt.
        -- rewrite lookup_insert. case_decide; [now rewrite Hki | contradiction].
        -- destruct (Difflib.bestsize bst <? k) eqn:E; cbn [Difflib.bestsize]; [lia|].
           apply Z.ltb_ge in E. lia.
    + assert (Hsame : (if Difflib.bestsize bst <? k
                       then Difflib.Best (i - k + 1) (j - k + 1) k else bst) = bst).
      { replace (Difflib.bestsize bst <? k) with false; [reflexivity|].
        symmetry. apply Z.ltb_ge.
        destruct Hstat as [[Hin _]|[Hgt [_ Hle]]].
        - destruct Hin as [Hin|Hin]; [contradiction|].
          rewrite List.Forall_forall in Hlt. specialize (Hlt _ Hin).
          specialize (Hall j ltac:(lia)). lia.
        - lia. }
      rewrite Hsame. apply IH; try assumption.
      destruct Hstat as [[Hin Hnone]|[Hgt [Hsome Hle]]].
      * left. split; [destruct Hin as [Hin|Hin]; [contradiction | exact Hin]|].
        rewrite lookup_insert. case_decide; [contradiction | exact Hnone].
      * right. split; [intros j' Hj'; apply Hgt; now right|]. split; [|exact Hle].
        rewrite lookup_insert. case_decide; [contradiction | exact Hsome].
Qed.

(** The scan of a sequence against itself leaves a block of the
    diagonal. *)
Lemma scan_is_own (s : list ascii) (n : Z) :
  n = Difflib.llen s ->
  forall (m : nat) (i : Z) (j2len : gmap Z Z) (bst : Difflib.best),
  0 <= i -> i + Z.of_nat m = n ->
  own_rows s i j2len -> own_best s i bst ->
  own_best s n (Difflib.scan_is s s 0 n (seqZ i (Z.of_nat m)) j2len bst).
Proof.
  intros Hn. induction m as [|m IH]; intros i j2len bst Hi Hm Hrows Hbest.
  - rewrite seqZ_nil by lia. cbn [Difflib.scan_is]. replace n with i by lia. exact Hbest.
  - rewrite seqZ_cons by lia. cbn [Difflib.scan_is].
    replace (Z.pred (Z.of_nat (S m))) with (Z.of_nat m) by lia.
    destruct Hbest as [Hd [Hb0 [Hs0 [Hbi Hall]]]].
    unfold Difflib.b2j. destruct (Difflib.popular s (Difflib.at_ s i)) eqn:Ep.
    + cbn [Difflib.scan_js]. apply IH; [lia | lia | |].
      * unfold own_rows. replace (Z.succ i - 1) with i by lia.
        split; [intros j v; rewrite lookup_empty; discriminate|].
        rewrite lookup_empty, unpopular_run_step by lia. now rewrite Ep.
      * unfold own_best. repeat (split; [assumption || lia|]).
        intros t Ht. destruct (Z.eq_dec t i) as [->|Hne]; [|apply Hall; lia].
        rewrite unpopular_run_step by lia. rewrite Ep. exact Hs0.
    + pose proof (scan_js_own s i n j2len Hn ltac:(lia) Ep Hrows
                    (Difflib.positions (Difflib.at_ s i) s 0) ∅ bst) as Hjs.
      cbv zeta in Hjs.
      destruct (Difflib.scan_js i 0 n j2len _ ∅ bst) as [new bst'].
      cbn [fst snd] in Hjs.
      destruct Hjs as [Hnew [Hni Hbest']]; try assumption.
      * apply positions_sorted.
      * intros j Hj. apply positions_spec in Hj. rewrite Z.sub_0_r in Hj.
        rewrite <- Hn in Hj. destruct Hj as [Hr Hc]. split; [lia | exact Hc].
      * intros j v. rewrite lookup_empty. discriminate.
      * lia.
      * left. split; [|apply lookup_empty].
        exact (positions_complete (Difflib.at_ s i) s 0 i ltac:(lia) eq_refl).
      * apply IH; [lia | lia | | replace (Z.succ i) with (i + 1) by lia; exact Hbest'].
        unfold own_rows. replace (Z.succ i - 1) with i by lia.
        split; [exact Hnew | now rewrite Hni].
Qed.

Lemma extend_left_own (s : list ascii) (fuel : nat) : forall (i k : Z),
  0 <= i <= Z.of_nat fuel ->
  Difflib.extend_left fuel s s 0 0 false (Difflib.Best i i k) = Difflib.Best 0 0 (k + i).
Proof.
  induction fuel as [|fuel IH]; intros i k Hi; cbn [Difflib.extend_left].
  - replace i with 0 by lia. now rewrite Z.add_0_r.
  - cbn [Difflib.besti Difflib.bestj Difflib.bestsize]. unfold Difflib.isbjunk.
    cbn [Bool.eqb]. rewrite bool_decide_eq_true_2 by reflexivity.
    destruct (0 <? i) eqn:E; cbn [andb].
    + apply Z.ltb_lt in E. rewrite IH by lia. f_equal. lia.
    + apply Z.ltb_ge in E. replace i with 0 by lia. now rewrite Z.add_0_r.
Qed.

Lemma extend_right_own (s : list ascii) (n : Z) (fuel : nat) : forall k : Z,
  0 <= k <= n -> n - k <= Z.of_nat fuel ->
  Difflib.extend_right fuel s s n n false (Difflib.Best 0 0 k) = Difflib.Best 0 0 n.
Proof.
  induction fuel as [|fuel IH]; intros k Hk Hf; cbn [Difflib.extend_right].
  - f_equal. lia.
  - cbn [Difflib.besti Difflib.bestj Difflib.bestsize]. unfold Difflib.isbjunk.
    cbn [Bool.eqb]. rewrite bool_decide_eq_true_2 by reflexivity.
    destruct (0 + k <? n) eqn:E; cbn [andb].
    + apply Z.ltb_lt in E. apply IH; lia.
    + apply Z.ltb_ge in E. f_equal. lia.
Qed.

Lemma extend_left_no_junk (a b : list ascii) (fuel : nat) (alo blo : Z)
    (bst : Difflib.best) :
  Difflib.extend_left fuel a b alo blo true bst = bst.
Proof.
  destruct fuel as [|fuel]; cbn [Difflib.extend_left]; [reflexivity|].
  unfold Difflib.isbjunk. cbn [Bool.eqb]. now rewrite andb_false_r.
Qed.

Lemma extend_right_no_junk (a b : list ascii) (fuel : nat) (ahi bhi : Z)
    (bst : Difflib.best) :
  Difflib.extend_right fuel a b ahi bhi true bst = bst.
Proof.
  destruct fuel as [|fuel]; cbn [Difflib.extend_right]; [reflexivity|].
  unfold Difflib.isbjunk. cbn [Bool.eqb]. now rewrite andb_false_r.
Qed.

(** The longest match of a sequence with itself is the whole sequence. *)
Lemma find_longest_match_own (s : list ascii) :
  Difflib.find_longest_match s s 0 (Difflib.llen s) 0 (Difflib.llen s)
  = Difflib.Best 0 0 (Difflib.llen s).
Proof.
  unfold Difflib.find_longest_match.
  set (n := Difflib.llen s).
  assert (Hn0 : 0 <= n) by (subst n; unfold Difflib.llen; lia).
  pose proof (scan_is_own s n eq_refl (Z.to_nat n) 0 ∅ (Difflib.Best 0 0 0)) as Hs.
  rewrite Z2Nat.id in Hs by lia. replace (n - 0) with n by lia.
  destruct Hs as [Hd [Hb0 [Hs0 [Hbi _]]]]; [lia | lia | | |].
  - split; [intros j v; rewrite lookup_empty; discriminate|].
    rewrite lookup_empty. reflexivity.
  - unfold own_best. cbn [Difflib.besti Difflib.bestj Difflib.bestsize].
    repeat (split; [lia|]). intros t Ht. lia.
  - destruct (Difflib.scan_is s s 0 n (seqZ 0 n) ∅ (Difflib.Best 0 0 0)) as [i j k].
    cbn [Difflib.besti Difflib.bestj Difflib.bestsize] in *. subst j.
    rewrite extend_left_own by lia.
    rewrite extend_right_own by lia.
    rewrite extend_left_no_junk, extend_right_no_junk. reflexivity.
Qed.

Lemma blocks_loop_nil (fuel : nat) (a b : list ascii) (blocks : list (Z * Z * Z)) :
  Difflib.blocks_loop fuel a b [] blocks = blocks.
Proof. destruct fuel; reflexivity. Qed.

(** The matching blocks of a sequence with itself: the whole sequence, and
    the block that ends the list. *)
Lemma get_matching_blocks_own (s : list ascii) :
  Difflib.get_matching_blocks s s
  = if Difflib.llen s =? 0 then [(0, 0, 0)]
    else [(0, 0, Difflib.llen s); (Difflib.llen s, Difflib.llen s, 0)].
Proof.
  unfold Difflib.get_matching_blocks.
  replace (2 * length s + 1)%nat with (S (2 * length s)) by lia.
  cbn [Difflib.blocks_loop]. rewrite find_longest_match_own.
  cbn [Difflib.besti Difflib.bestj Difflib.bestsize].
  destruct (Difflib.llen s =? 0) eqn:E.
  - rewrite blocks_loop_nil. apply Z.eqb_eq in E. rewrite E. reflexivity.
  - rewrite Z.ltb_irrefl. cbn [andb].
    replace (0 + Difflib.llen s <? Difflib.llen s) with false
      by (symmetry; apply Z.ltb_ge; lia).
    cbn [andb]. rewrite blocks_loop_nil. cbn [app].
    change (merge_sort Difflib.triple_le [(0, 0, Difflib.llen s)])
      with [(0, 0, Difflib.llen s)].
    cbn [Difflib.collapse]. change (0 + 0 =? 0) with true. cbn [andb Difflib.collapse].
    change (0 + Difflib.llen s) with (Difflib.llen s). rewrite E. reflexivity.
Qed.

(** The ratio of a string with itself is 1. *)
Lemma ratio_own (x : string) : (Difflib.ratio x x == 1)%Q.
Proof.
  unfold Difflib.ratio, Difflib.ratio_seq. rewrite get_matching_blocks_own.
  set (n := Difflib.llen (list_ascii_of_string x)).
  assert (Hn0 : 0 <= n) by (subst n; unfold Difflib.llen; lia).
  unfold Difflib.calculate_ratio.
  destruct (n =? 0) eqn:E.
  - apply Z.eqb_eq in E. rewrite E. reflexivity.
  - apply Z.eqb_neq in E. cbn [map foldr snd].
    replace (n + n =? 0) with false by (symmetry; apply Z.eqb_neq; lia).
    destruct n as [|p|p]; try lia.
    change (Z.pos p + Z.pos p) with (Z.pos (p + p)).
    unfold Qeq, Qdiv, Qmult, Qinv, inject_Z. cbn. lia.
Qed.

(** X20.  A known term matches itself.  A title that is a known term,
    whatever the case of its letters, matches on every site as long as the
    threshold of the site is below 1: the ratio of a string with itself is
    1, also for a string of 200 characters or more, where the popular
    characters are left out of the scan. *)
Theorem X20_known_term_matches_itself (cfg : Config) (t known : string)
    (website : option string) :
  In known (KNOWN_BIKES cfg) ->
  Py.lower t = Py.lower known ->
  (RATIO cfg website < 1)%Q ->
  (Difflib.ratio (Py.lower t) (Py.lower known) == 1)%Q
  /\ is_match cfg t website = true.
Proof.
  intros Hin Heq Hlt.
  assert (Hr : (Difflib.ratio (Py.lower t) (Py.lower known) == 1)%Q)
    by (rewrite Heq; apply ratio_own).
  split; [exact Hr|]. rewrite is_match_paths.
  assert (Hk : known_loop cfg (Py.lower t) website (KNOWN_BIKES cfg) = true).
  { apply known_loop_spec. exists known. split; [exact Hin|]. now rewrite Hr. }
  now rewrite Hk.
Qed.

Lemma X20_known_term_matches_itself_witness :
  is_match source_config "SPECIALISED" (Some "ebay") = true
  /\ is_match source_config "carrera" None = true.
Proof.
  split.
  - apply (X20_known_term_matches_itself source_config "SPECIALISED" "Specialised"
             (Some "ebay")); [right; right; left; reflexivity | reflexivity | reflexivity].
  - apply (X20_known_term_matches_itself source_config "carrera" "Carrera" None);
      [right; left; reflexivity | reflexivity | reflexivity].
Defined.
